(** * Interstellar: Houdini scene scripts, shallow embedding

    The scripts of [scripts/setup_houdini_ai.py] and
    [scripts/generate_interstellar_ship.py] drive three external
    collaborators: the Houdini scene graph ([hou]), the file system
    ([pathlib]) and a Stable Diffusion HTTP server ([requests]).  Each Python
    function is a computation in a state-and-exception monad over an explicit
    model of these collaborators:

    - the scene is a finite map from node paths to nodes (type name,
      positional inputs, parameter values, flags);
    - the file system is a finite map from paths to file contents together
      with a set of directories;
    - the server is a function of the environment from requests to outcomes;
    - [print] appends to a list of lines.

    A Python exception is the [Raise] result; [try]/[except Exception] is
    [try_except].  State changes made before an exception is raised stay. *)

From Stdlib Require Import Ascii String QArith_base.
From Stdlib.Strings Require Import Byte.
From stdpp Require Import gmap strings list fin_maps pretty.

Local Open Scope string_scope.
Local Open Scope nat_scope.
Local Open Scope list_scope.

(** ** Python strings *)

Module Py.

(** [str.lower] on the ASCII range. *)
Definition lower_ascii (c : Ascii.ascii) : Ascii.ascii :=
  let n := Ascii.nat_of_ascii c in
  if Nat.leb 65 n && Nat.leb n 90 then Ascii.ascii_of_nat (n + 32) else c.

Fixpoint lower (s : string) : string :=
  match s with
  | EmptyString => EmptyString
  | String c s' => String (lower_ascii c) (lower s')
  end.

(** [sub in s]. *)
Fixpoint contains (sub s : string) : bool :=
  String.prefix sub s ||
  match s with
  | EmptyString => false
  | String _ s' => contains sub s'
  end.

(** [s.rstrip("/")], on the reversed string and back. *)
Fixpoint lstrip_slash (s : string) : string :=
  match s with
  | String "/"%char s' => lstrip_slash s'
  | _ => s
  end.

Definition rstrip_slash (s : string) : string :=
  String.rev (lstrip_slash (String.rev s)).

(** Truth value of an [Optional[str]]: [None] and [""] are false. *)
Definition truthy (o : option string) : bool :=
  match o with
  | Some (String _ _) => true
  | _ => false
  end.

End Py.

(** ** Exceptions and the monad *)

Inductive exn_kind :=
  | RuntimeError | AttributeError | TypeError | KeyError | ValueError
  | IndexError | OSError | OperationFailed | ObjectWasDeleted
  | ConnectionError | HTTPError | BinasciiError | ImportError.

Record exn := Exn { ekind : exn_kind; emsg : string }.

Inductive result (A : Type) :=
  | Ok (a : A)
  | Raise (e : exn).
Arguments Ok {A} a.
Arguments Raise {A} e.

Definition is_raise {A} (r : result A) : bool :=
  match r with Ok _ => false | Raise _ => true end.

(** ** Data of the collaborators *)

(** JSON documents as [json.loads] and [requests] see them.  An object keeps
    its pairs in order; a key that occurs twice reads as its last binding, as
    in a Python [dict] built by the parser. *)
#[warnings="-register-all"]
Inductive json :=
  | JNull
  | JBool (b : bool)
  | JInt (n : Z)
  | JFloat (q : Q)
  | JStr (s : string)
  | JList (l : list json)
  | JObj (kvs : list (string * json)).

(** Values written to node parameters.  Float literals are carried as exact
    rationals: the scripts only store them. *)
Inductive pval :=
  | VInt (n : Z)
  | VFloat (q : Q)
  | VBool (b : bool)
  | VStr (s : string)
  | VTuple (l : list Q)
  | VParm (node parm : string).

(** A node of the scene graph.  Nodes are referred to by their absolute path,
    which is what a [hou.Node] handle denotes. *)
Record Node := {
  ntype : string;
  ninputs : gmap nat string;
  nparms : gmap string pval;
  ndisplay : bool;
  nrender : bool;
}.

Definition new_node (type_name : string) : Node :=
  {| ntype := type_name; ninputs := ∅; nparms := ∅;
     ndisplay := false; nrender := false |}.

(** File-system paths are lists of components below the root. *)
Abbreviation path := (list string).

Inductive http_outcome :=
  | HttpRaises (e : exn)                        (* connection error, timeout *)
  | HttpResponse (status : nat) (body : option json). (* [None]: not JSON *)

Inductive render_outcome :=
  | RenderRaises (e : exn)
  | RenderDone (picture : option (list Byte.byte)).  (* [None]: nothing written *)

(** What one run cannot change: the interpreter, the host's node-type
    catalog (type name to parameter names), the server, the codec. *)
Record Env := {
  hou_importable : bool;
  python_version : nat * nat;
  application_version : list nat;
  application_version_string : string;
  catalog : gmap string (gset string);
  hip : string;
  cwd : path;
  rop_render : path → render_outcome;
  requests_importable : bool;
  http_post : string → json → nat → http_outcome;
  b64encode : list Byte.byte → string;
  b64decode : string → option (list Byte.byte);
  unreadable : gset path;
  unwritable : gset path;
}.

(** What a run changes. *)
Record State := {
  scene : gmap string Node;
  files : gmap path (list Byte.byte);
  dirs : gset path;
  sent : list (string * json * nat);
  stdout : list string;
}.

Definition set_scene (sc : gmap string Node) (s : State) : State :=
  {| scene := sc; files := files s; dirs := dirs s;
     sent := sent s; stdout := stdout s |}.

Definition set_files (fs : gmap path (list Byte.byte)) (s : State) : State :=
  {| scene := scene s; files := fs; dirs := dirs s;
     sent := sent s; stdout := stdout s |}.

Definition set_dirs (ds : gset path) (s : State) : State :=
  {| scene := scene s; files := files s; dirs := ds;
     sent := sent s; stdout := stdout s |}.

Definition add_sent (r : string * json * nat) (s : State) : State :=
  {| scene := scene s; files := files s; dirs := dirs s;
     sent := sent s ++ [r]; stdout := stdout s |}.

Definition add_stdout (line : string) (s : State) : State :=
  {| scene := scene s; files := files s; dirs := dirs s;
     sent := sent s; stdout := stdout s ++ [line] |}.

Definition M (A : Type) : Type := State → result A * State.

Global Instance M_ret : MRet M := λ A a s, (Ok a, s).

Global Instance M_bind : MBind M := λ A B f m s,
  match m s with
  | (Ok a, s') => f a s'
  | (Raise e, s') => (Raise e, s')
  end.

Definition raise {A} (e : exn) : M A := λ s, (Raise e, s).

(** [try: body  except Exception as exc: handler]. *)
Definition try_except {A} (body : M A) (handler : exn → M A) : M A := λ s,
  match body s with
  | (Ok a, s') => (Ok a, s')
  | (Raise e, s') => handler e s'
  end.

Fixpoint for_each {A} (l : list A) (body : A → M unit) : M unit :=
  match l with
  | [] => mret tt
  | x :: l' => body x ≫= λ _, for_each l' body
  end.

Definition print (line : string) : M unit := λ s, (Ok tt, add_stdout line s).

(** [m] leaves the scene as it is and sends the requests [reqs]. *)
Definition sends {A} (m : M A) (reqs : list (string * json * nat)) : Prop :=
  ∀ s, scene (m s).2 = scene s ∧ sent (m s).2 = sent s ++ reqs.

Definition quiet {A} (m : M A) : Prop := sends m [].

(** [m] relates every state to the state it leaves, by [R]. *)
Definition keeps (R : relation State) {A} (m : M A) : Prop :=
  ∀ s, R s (m s).2.

(** The scene is the same and the only new directories are among [made]. *)
Definition calm (made : gset path) : relation State :=
  λ s s', scene s' = scene s ∧ dirs s' ⊆ dirs s ∪ made.

(** The first index from [k] on that [m] does not bind through [f], looking
    at no more than [fuel] indices.  Both searches of the model (the [while]
    loop of [_connect_merge] and the host's choice of a unique node name) are
    instances; [size m] is enough fuel (lemma [first_free_spec]). *)
Fixpoint first_free `{Countable K} {V} (f : nat → K) (m : gmap K V)
    (fuel k : nat) : nat :=
  match fuel with
  | 0 => k
  | S fuel' =>
      match m !! f k with
      | Some _ => first_free f m fuel' (S k)
      | None => k
      end
  end.

(** ** The host application: [hou] *)

Module Hou.
Section Hou.
Context (E : Env).

Definition deleted {A} : M A :=
  raise (Exn ObjectWasDeleted "Attempt to access an object that no longer exists in Houdini.").

(** Path of the child [name] of [parent]; the root is ["/"]. *)
Definition child_prefix (parent : string) : string :=
  if decide (parent = "/") then "/" else parent +:+ "/".

Definition child_path (parent name : string) : string :=
  child_prefix parent +:+ name.

(** [hou.node(path)]. *)
Definition node_at (p : string) : M (option string) := λ s,
  (Ok (match scene s !! p with Some _ => Some p | None => None end), s).

(** [parent.node(name)]. *)
Definition node (parent name : string) : M (option string) := λ s,
  match scene s !! parent with
  | None => deleted s
  | Some _ => node_at (child_path parent name) s
  end.

(** The name the host gives a new child: the requested one when it is
    free, else the requested one followed by the first number that makes
    it unique. *)
Definition unique_path (sc : gmap string Node) (parent name : string) : string :=
  match sc !! child_path parent name with
  | None => child_path parent name
  | Some _ =>
      let f k := child_path parent (name +:+ pretty k) in
      f (first_free f sc (size sc) 1)
  end.

(** [parent.createNode(type_name, node_name=name)]: fails for a type the
    catalog does not have. *)
Definition createNode (parent type_name name : string) : M string := λ s,
  match scene s !! parent with
  | None => deleted s
  | Some _ =>
      match catalog E !! type_name with
      | None =>
          raise (Exn OperationFailed ("Invalid node type name: " +:+ type_name)) s
      | Some _ =>
          let h := unique_path (scene s) parent name in
          (Ok h, set_scene (<[h := new_node type_name]> (scene s)) s)
      end
  end.

(** [category.nodeType(name)], used for its truth value. *)
Definition nodeType (type_name : string) : M bool := λ s,
  (Ok (bool_decide (is_Some (catalog E !! type_name))), s).

(** [node.type().name()]. *)
Definition type_name (h : string) : M string := λ s,
  match scene s !! h with
  | None => deleted s
  | Some n => (Ok (ntype n), s)
  end.

(** [node.input(idx)]. *)
Definition input (h : string) (idx : nat) : M (option string) := λ s,
  match scene s !! h with
  | None => deleted s
  | Some n => (Ok (ninputs n !! idx), s)
  end.

Definition inputs (h : string) : M (gmap nat string) := λ s,
  match scene s !! h with
  | None => deleted s
  | Some n => (Ok (ninputs n), s)
  end.

Definition update_node (h : string) (f : Node → Node) : M unit := λ s,
  match scene s !! h with
  | None => deleted s
  | Some n => (Ok tt, set_scene (<[h := f n]> (scene s)) s)
  end.

Definition set_inputs (ins : gmap nat string) (n : Node) : Node :=
  {| ntype := ntype n; ninputs := ins;
     nparms := nparms n; ndisplay := ndisplay n; nrender := nrender n |}.

(** [node.setInput(idx, x)]. *)
Definition setInput (h : string) (idx : nat) (x : string) : M unit :=
  update_node h (λ n, set_inputs (<[idx := x]> (ninputs n)) n).

Definition setDisplayFlag (h : string) (b : bool) : M unit :=
  update_node h (λ n,
    {| ntype := ntype n; ninputs := ninputs n; nparms := nparms n;
       ndisplay := b; nrender := nrender n |}).

Definition setRenderFlag (h : string) (b : bool) : M unit :=
  update_node h (λ n,
    {| ntype := ntype n; ninputs := ninputs n; nparms := nparms n;
       ndisplay := ndisplay n; nrender := b |}).

(** Does a node of this type have the parameter (or parameter tuple)? *)
Definition has_parm (n : Node) (name : string) : bool :=
  match catalog E !! ntype n with
  | Some ps => bool_decide (name ∈ ps)
  | None => false
  end.

(** [node.parm(name)] (and [node.parmTuple(name)]): [None] when the node
    has no such parameter. *)
Definition parm (h name : string) : M (option (string * string)) := λ s,
  match scene s !! h with
  | None => deleted s
  | Some n => (Ok (if has_parm n name then Some (h, name) else None), s)
  end.

Definition store_parm (name : string) (v : pval) (n : Node) : Node :=
  {| ntype := ntype n; ninputs := ninputs n;
     nparms := <[name := v]> (nparms n);
     ndisplay := ndisplay n; nrender := nrender n |}.

(** [p.set(v)] on the result of [node.parm(name)]: calling [set] on
    [None] is an [AttributeError]. *)
Definition parm_set (p : option (string * string)) (v : pval) : M unit :=
  match p with
  | None => raise (Exn AttributeError "'NoneType' object has no attribute 'set'")
  | Some (h, name) => update_node h (store_parm name v)
  end.

(** [p.set(q)] with [q] the result of another [node.parm(name)]. *)
Definition parm_set_from (p q : option (string * string)) : M unit :=
  match p with
  | None => raise (Exn AttributeError "'NoneType' object has no attribute 'set'")
  | Some (h, name) =>
      match q with
      | None => raise (Exn TypeError "Parm.set: no matching overload for NoneType")
      | Some (h', name') => update_node h (store_parm name (VParm h' name'))
      end
  end.

(** Is [p] the node [h] or below it? *)
Definition under (h p : string) : bool :=
  bool_decide (p = h) || String.prefix (h +:+ "/") p.

(** [node.children()]: the paths one component below [h]. *)
Definition is_child (h p : string) : bool :=
  String.prefix (child_prefix h) p
  && negb (bool_decide (p = child_prefix h))
  && negb (Py.contains "/"
             (String.substring (String.length (child_prefix h))
                (String.length p) p)).

Definition children (h : string) : M (list string) := λ s,
  match scene s !! h with
  | None => deleted s
  | Some _ => (Ok (List.filter (is_child h) (map_to_list (scene s)).*1), s)
  end.

Definition unplug (h : string) (n : Node) : Node :=
  {| ntype := ntype n;
     ninputs := filter (λ kv, under h kv.2 = false) (ninputs n);
     nparms := nparms n; ndisplay := ndisplay n; nrender := nrender n |}.

(** [node.destroy()]: the node and what is below it go, and so do the
    wires that came from them. *)
Definition destroy (h : string) : M unit := λ s,
  match scene s !! h with
  | None => deleted s
  | Some _ =>
      (Ok tt,
       set_scene (unplug h <$> filter (λ kv, under h kv.1 = false) (scene s)) s)
  end.

(** [node.path()]. *)
Definition path (h : string) : M string := λ s,
  match scene s !! h with
  | None => deleted s
  | Some _ => (Ok h, s)
  end.

(** [node.layoutChildren()] moves boxes on the network pane only. *)
Definition layoutChildren (h : string) : M unit := λ s,
  match scene s !! h with
  | None => deleted s
  | Some _ => (Ok tt, s)
  end.

End Hou.
End Hou.


(** ** The file system: [pathlib] *)

Module Pathlib.
Section Pathlib.
Context (E : Env).

(** The components of a path written with slashes. *)
Fixpoint components (cur s : string) : list string :=
  match s with
  | EmptyString => if decide (cur = "") then [] else [cur]
  | String c s' =>
      if decide (c = "/"%char)
      then (if decide (cur = "") then [] else [cur]) ++ components "" s'
      else components (cur +:+ String c "") s'
  end.

(** [Path(s)]. *)
Definition Path (s : string) : path := components "" s.

(** [str(p)]. *)
Definition str (p : path) : string :=
  match p with
  | [] => "/"
  | _ => foldr (λ c acc, "/" +:+ c +:+ acc) "" p
  end.

(** [p.parent]. *)
Definition parent (p : path) : path := removelast p.

(** The directories [mkdir(parents=True)] goes through, [p] included. *)
Definition ancestors (p : path) : list path :=
  (λ n, take n p) <$> seq 1 (length p).

Definition os_error {A} (msg : string) (p : path) : M A :=
  raise (Exn OSError (msg +:+ ": '" +:+ str p +:+ "'")).

Definition is_dir (s : State) (p : path) : bool :=
  bool_decide (p = []) || bool_decide (p ∈ dirs s).

Definition is_file (s : State) (p : path) : bool :=
  bool_decide (is_Some (files s !! p)).

(** [p.exists()]. *)
Definition path_exists (p : path) : M bool := λ s,
  (Ok (is_dir s p || is_file s p), s).

(** [with p.open("rb") as f: f.read()]. *)
Definition read_bytes (p : path) : M (list Byte.byte) := λ s,
  match files s !! p with
  | None =>
      if is_dir s p then os_error "Is a directory" p s
      else os_error "No such file or directory" p s
  | Some data =>
      if bool_decide (p ∈ unreadable E) then os_error "Permission denied" p s
      else (Ok data, s)
  end.

(** [p.mkdir(parents=True, exist_ok=True)]. *)
Definition mkdir_parents (p : path) : M unit := λ s,
  match List.find (is_file s) (ancestors p) with
  | Some f => os_error "File exists" f s
  | None =>
      match List.find (λ d, negb (is_dir s d) && bool_decide (d ∈ unwritable E))
              (ancestors p) with
      | Some d => os_error "Permission denied" d s
      | None => (Ok (), set_dirs (dirs s ∪ list_to_set (ancestors p)) s)
      end
  end.

(** [p.write_bytes(data)]. *)
Definition write_bytes (p : path) (data : list Byte.byte) : M unit := λ s,
  if is_dir s p then os_error "Is a directory" p s
  else if negb (is_dir s (parent p)) then
    os_error "No such file or directory" p s
  else if bool_decide (p ∈ unwritable E) then os_error "Permission denied" p s
  else (Ok (), set_files (<[p := data]> (files s)) s).

(** [rop.render()] with the picture path the node was given: the host
    writes the image, making the directories on the way, or writes
    nothing, or fails. *)
Definition render (rop : string) (picture : path) : M unit := λ s,
  match scene s !! rop with
  | None => Hou.deleted s
  | Some _ =>
      match rop_render E picture with
      | RenderRaises e => (Raise e, s)
      | RenderDone None => (Ok (), s)
      | RenderDone (Some data) =>
          (Ok (),
           set_files (<[picture := data]> (files s))
             (set_dirs (dirs s ∪ list_to_set (ancestors (parent picture))) s))
      end
  end.

End Pathlib.
End Pathlib.

(** ** JSON values as Python objects *)

Module Json.

(** Truth value. *)
Definition truthy (j : json) : bool :=
  match j with
  | JNull => false
  | JBool b => b
  | JInt n => negb (Z.eqb n 0)
  | JFloat q => negb (Z.eqb (Qnum q) 0)
  | JStr s => negb (bool_decide (s = ""))
  | JList l => match l with [] => false | _ => true end
  | JObj kvs => match kvs with [] => false | _ => true end
  end.

(** Lookup in a [dict]: the last binding of the key. *)
Fixpoint lookup_key (k : string) (kvs : list (string * json)) : option json :=
  match kvs with
  | [] => None
  | (k', v) :: rest =>
      match lookup_key k rest with
      | Some v' => Some v'
      | None => if decide (k' = k) then Some v else None
      end
  end.

(** [d[k] = v] on an insertion-ordered [dict]. *)
Fixpoint set_key (k : string) (v : json) (kvs : list (string * json))
    : list (string * json) :=
  match kvs with
  | [] => [(k, v)]
  | (k', v') :: rest =>
      if decide (k' = k) then (k, v) :: rest else (k', v') :: set_key k v rest
  end.

(** [d.update(new)]. *)
Definition update (d new : list (string * json)) : list (string * json) :=
  foldl (λ acc kv, set_key kv.1 kv.2 acc) d new.

(** [data.get(key)]: only a [dict] has [get]; a missing key gives
    [None]. *)
Definition get (data : json) (key : string) : M json :=
  match data with
  | JObj kvs => mret (default JNull (lookup_key key kvs))
  | _ => raise (Exn AttributeError "object has no attribute 'get'")
  end.

(** [x or []]. *)
Definition or_empty_list (x : json) : json :=
  if truthy x then x else JList [].

(** [x[0]]. *)
Definition first (x : json) : M json :=
  match x with
  | JList (v :: _) => mret v
  | JList [] => raise (Exn IndexError "list index out of range")
  | JStr (String c _) => mret (JStr (String c ""))
  | JStr EmptyString => raise (Exn IndexError "string index out of range")
  | JObj _ => raise (Exn KeyError "0")
  | _ => raise (Exn TypeError "object is not subscriptable")
  end.

End Json.

(** ** The HTTP client and the codec: [requests], [base64] *)

Module Requests.
Section Requests.
Context (E : Env).

(** [requests.post(url, json=body, timeout=t)]; the call is recorded
    whatever comes of it. *)
Definition post (url : string) (body : json) (timeout : nat)
    : M (nat * option json) := λ s,
  let s' := add_sent (url, body, timeout) s in
  match http_post E url body timeout with
  | HttpRaises e => (Raise e, s')
  | HttpResponse status content => (Ok (status, content), s')
  end.

(** [resp.raise_for_status()]. *)
Definition raise_for_status (resp : nat * option json) : M unit :=
  if Nat.leb 400 resp.1 && Nat.ltb resp.1 600
  then raise (Exn HTTPError (pretty resp.1 +:+ " Error"))
  else mret ().

(** [resp.json()]. *)
Definition json_of (resp : nat * option json) : M json :=
  match resp.2 with
  | Some j => mret j
  | None => raise (Exn ValueError "Expecting value: line 1 column 1 (char 0)")
  end.

(** [base64.b64decode(x)]: text only, and only text that decodes. *)
Definition b64decode_json (x : json) : M (list Byte.byte) :=
  match x with
  | JStr s =>
      match b64decode E s with
      | Some data => mret data
      | None => raise (Exn BinasciiError "Incorrect padding")
      end
  | _ => raise (Exn TypeError "argument should be a bytes-like object or ASCII string")
  end.

End Requests.
End Requests.
(** ** scripts/setup_houdini_ai.py, graph construction *)

Module SetupHoudiniAi.
Section Scripts.
Context (E : Env).

(** [import hou] inside a function. *)
Definition import_hou : M unit :=
  if hou_importable E then mret ()
  else raise (Exn ImportError "No module named 'hou'").

(** [node.parm(name).set(v)] and [node.parmTuple(name).set(v)]. *)
Definition set_parm (h name : string) (v : pval) : M unit :=
  p ← Hou.parm E h name; Hou.parm_set p v.

(** [dst.parm(name).set(src.parm(name))]: the attribute [set] is looked up
    before the argument is evaluated. *)
Definition set_parm_from (dst src name : string) : M unit :=
  p ← Hou.parm E dst name;
  match p with
  | None => Hou.parm_set p (VStr "")
  | Some _ => q ← Hou.parm E src name; Hou.parm_set_from p q
  end.

Definition _get_or_create (parent type_name node_name : string) : M string :=
  node ← Hou.node parent node_name;
  match node with
  | None => Hou.createNode E parent type_name node_name
  | Some n => mret n
  end.

(** The [while node.input(idx) is not None: idx += 1] loop from [idx = 1]:
    a node has finitely many inputs, so it stops within [size ins]
    rounds. *)
Definition next_free_input (ins : gmap nat string) : nat :=
  first_free id ins (size ins) 1.

(** The node [_connect_merge] works on: the child called [name] when it is
    a merge, else a new merge node. *)
Definition merge_node (parent name : string) : M string :=
  node ← Hou.node parent name;
  match node with
  | None => Hou.createNode E parent "merge" name
  | Some n =>
      ty ← Hou.type_name n;
      if decide (ty ≠ "merge") then Hou.createNode E parent "merge" name
      else mret n
  end.

(** The list [inputs = [i for i in range(10)]] of the source is never
    read. *)
Definition _connect_merge (parent a b name : string) : M string :=
  node ← merge_node parent name;
  in0 ← Hou.input node 0;
  match in0 with
  | None =>
      Hou.setInput node 0 a;;
      Hou.setInput node 1 b
  | Some _ =>
      ins ← Hou.inputs node;
      let idx := next_free_input ins in
      Hou.setInput node idx b;;
      in0' ← Hou.input node 0;
      if decide (in0' ≠ Some a) then Hou.setInput node 0 a else mret tt
  end;;
  mret node.

(** The body of [if "rivet" in text:]. *)
Definition add_rivets (geo_node out : string) : M string :=
  scatter ← _get_or_create geo_node "scatter" "rivets_scatter";
  Hou.setInput scatter 0 out;;
  set_parm scatter "npts" (VInt 400);;
  circle ← _get_or_create geo_node "circle" "rivet_circle";
  set_parm circle "type" (VInt 1);;
  set_parm circle "radx" (VFloat 0.05);;
  set_parm circle "rady" (VFloat 0.05);;
  ctp ← _get_or_create geo_node "copytopoints" "rivets_copy";
  Hou.setInput ctp 0 circle;;
  Hou.setInput ctp 1 scatter;;
  _connect_merge geo_node out ctp "merge_rivets".

(** The body of [if "glow" in text or "conduit" in text:]. *)
Definition add_conduit (geo_node out : string) : M string :=
  curve ← _get_or_create geo_node "curve" "conduit_curve";
  set_parm curve "type" (VInt 1);;
  set_parm curve "coords" (VStr "-1 0 -10  0 0 0  1 0 10");;
  polywire ← _get_or_create geo_node "polywire" "conduit_wire";
  Hou.setInput polywire 0 curve;;
  set_parm polywire "radius" (VFloat 0.05);;
  _connect_merge geo_node out polywire "merge_conduit".

Definition _apply_prompt_tweaks (geo_node input_node prompt_text : string)
    : M string :=
  import_hou;;
  let text := Py.lower prompt_text in
  let out := input_node in
  out ← (if Py.contains "rivet" text then add_rivets geo_node out
         else mret out);
  out ← (if Py.contains "glow" text || Py.contains "conduit" text
         then add_conduit geo_node out
         else mret out);
  mret out.

(** *** Building the ship *)

Definition _ensure_houdini : M unit :=
  if hou_importable E then mret ()
  else raise (Exn RuntimeError
                "This script must be run inside Houdini (hou module not found).").

Definition _check_versions : M unit :=
  import_hou;;
  (if negb (bool_decide (python_version E = (3, 9))) then
     print ("[Interstellar] Warning: Python " +:+ pretty (python_version E).1
            +:+ "." +:+ pretty (python_version E).2
            +:+ " detected; recommended 3.9")
   else mret ());;
  try_except
    (major ← match application_version E with
             | m :: _ => mret m
             | [] => raise (Exn IndexError "tuple index out of range")
             end;
     if Nat.ltb major 20 then
       print ("[Interstellar] Warning: Houdini "
              +:+ application_version_string E +:+ " detected; recommended 20+")
     else mret ())
    (λ _, mret ()).

(** [for c in geo.children(): try: if c.type().name() == "file":
    c.destroy()  except Exception: pass]. *)
Definition clear_file_nodes (geo : string) : M unit :=
  cs ← Hou.children geo;
  for_each cs (λ c,
    try_except
      (ty ← Hou.type_name c;
       if decide (ty = "file") then Hou.destroy c else mret ())
      (λ _, mret ())).

(** [_get_or_create(geo, new, name) if category.nodeType(new) else
    _get_or_create(geo, old, name)]. *)
Definition get_or_create_versioned (parent new old name : string) : M string :=
  known ← Hou.nodeType E new;
  if known : bool then _get_or_create parent new name
  else _get_or_create parent old name.

Definition copy_tube_parms (dst src : string) : M unit :=
  for_each ["type"; "orient"; "height"; "rad1"; "rad2"; "cap"]
    (λ p, set_parm_from dst src p).

Record Blockout := {
  bo_obj : string;
  bo_geo : string;
  bo_mat_sop : string;
  bo_uv_out : string;
  bo_hull : string;
  bo_engines : string * string;
  bo_plasma : string * string;
  bo_bussard : string * string;
}.

Definition _create_spaceship_blockout (prompt_tweaks : option string)
    : M Blockout :=
  import_hou;;
  obj ← Hou.node_at "/obj";
  match obj with
  | None => raise (Exn RuntimeError "/obj not found")
  | Some obj =>
    geo ← _get_or_create obj "geo" "interstellar_ship";
    clear_file_nodes geo;;
    let hull_length := 5000%Q in
    let hull_radius := 80%Q in
    core ← _get_or_create geo "tube" "hull_core";
    set_parm core "type" (VInt 1);;
    set_parm core "orient" (VInt 2);;
    set_parm core "height" (VFloat hull_length);;
    set_parm core "rad1" (VFloat hull_radius);;
    set_parm core "rad2" (VFloat hull_radius);;
    set_parm core "cap" (VBool true);;
    shield1 ← _get_or_create geo "tube" "hull_shield_1";
    copy_tube_parms shield1 core;;
    set_parm shield1 "rad1" (VFloat (hull_radius * 1.05));;
    set_parm shield1 "rad2" (VFloat (hull_radius * 1.05));;
    shield2 ← _get_or_create geo "tube" "hull_shield_2";
    copy_tube_parms shield2 core;;
    set_parm shield2 "rad1" (VFloat (hull_radius * 1.1));;
    set_parm shield2 "rad2" (VFloat (hull_radius * 1.1));;
    let tail_z := (- hull_length * 0.5)%Q in
    let engine_offset := 140%Q in
    let nozzle_length := 150%Q in
    let nozzle_radius := 40%Q in
    noz_l ← _get_or_create geo "cone" "engine_nozzle_L";
    set_parm noz_l "type" (VInt 1);;
    set_parm noz_l "height" (VFloat nozzle_length);;
    set_parm noz_l "rad" (VFloat nozzle_radius);;
    set_parm noz_l "t"
      (VTuple [engine_offset; 0; tail_z + nozzle_length * 0.5])%Q;;
    set_parm noz_l "r" (VTuple [90; 0; 0])%Q;;
    noz_r ← _get_or_create geo "cone" "engine_nozzle_R";
    set_parm noz_r "type" (VInt 1);;
    set_parm noz_r "height" (VFloat nozzle_length);;
    set_parm noz_r "rad" (VFloat nozzle_radius);;
    set_parm noz_r "t"
      (VTuple [- engine_offset; 0; tail_z + nozzle_length * 0.5])%Q;;
    set_parm noz_r "r" (VTuple [90; 0; 0])%Q;;
    plasma_l ← _get_or_create geo "sphere" "engine_plasma_L";
    set_parm plasma_l "type" (VInt 2);;
    set_parm plasma_l "radx" (VFloat (nozzle_radius * 0.6));;
    set_parm plasma_l "rady" (VFloat (nozzle_radius * 0.6));;
    set_parm plasma_l "radz" (VFloat (nozzle_radius * 0.6));;
    set_parm plasma_l "t"
      (VTuple [engine_offset; 0; tail_z + nozzle_length])%Q;;
    plasma_r ← _get_or_create geo "sphere" "engine_plasma_R";
    set_parm plasma_r "type" (VInt 2);;
    set_parm plasma_r "radx" (VFloat (nozzle_radius * 0.6));;
    set_parm plasma_r "rady" (VFloat (nozzle_radius * 0.6));;
    set_parm plasma_r "radz" (VFloat (nozzle_radius * 0.6));;
    set_parm plasma_r "t"
      (VTuple [- engine_offset; 0; tail_z + nozzle_length])%Q;;
    let nose_z := (hull_length * 0.5)%Q in
    scoop_ring ← _get_or_create geo "torus" "bussard_ring";
    set_parm scoop_ring "type" (VInt 1);;
    set_parm scoop_ring "rad1" (VFloat (hull_radius * 1.6));;
    set_parm scoop_ring "rad2" (VFloat (hull_radius * 0.2));;
    set_parm scoop_ring "t" (VTuple [0; 0; nose_z - 50])%Q;;
    scoop_cone ← _get_or_create geo "cone" "bussard_cone";
    set_parm scoop_cone "type" (VInt 1);;
    set_parm scoop_cone "height" (VFloat 400);;
    set_parm scoop_cone "rad" (VFloat (hull_radius * 1.2));;
    set_parm scoop_cone "t" (VTuple [0; 0; nose_z - 200])%Q;;
    set_parm scoop_cone "r" (VTuple [-90; 0; 0])%Q;;
    merge ← _get_or_create geo "merge" "ship_merge";
    Hou.setInput merge 0 core;;
    Hou.setInput merge 1 shield1;;
    Hou.setInput merge 2 shield2;;
    Hou.setInput merge 3 noz_l;;
    Hou.setInput merge 4 noz_r;;
    Hou.setInput merge 5 plasma_l;;
    Hou.setInput merge 6 plasma_r;;
    Hou.setInput merge 7 scoop_ring;;
    Hou.setInput merge 8 scoop_cone;;
    polyreduce ←
      get_or_create_versioned geo "polyreduce::2.0" "polyreduce" "opt_reduce";
    Hou.setInput polyreduce 0 merge;;
    set_parm polyreduce "percentage" (VInt 100);;
    uvflatten ← get_or_create_versioned geo "uvflatten::2.0" "uvunwrap" "uvs";
    Hou.setInput uvflatten 0 polyreduce;;
    let output := uvflatten in
    output ← (if Py.truthy prompt_tweaks
              then _apply_prompt_tweaks geo output (default "" prompt_tweaks)
              else mret output);
    mat_sop ← _get_or_create geo "material" "assign_material";
    Hou.setInput mat_sop 0 output;;
    Hou.setDisplayFlag geo true;;
    Hou.setDisplayFlag mat_sop true;;
    Hou.setRenderFlag mat_sop true;;
    mret {| bo_obj := obj; bo_geo := geo; bo_mat_sop := mat_sop;
            bo_uv_out := output; bo_hull := core;
            bo_engines := (noz_l, noz_r);
            bo_plasma := (plasma_l, plasma_r);
            bo_bussard := (scoop_ring, scoop_cone) |}
  end.

Record Cockpit := {
  ck_geo : string;
  ck_camera : string;
  ck_out : string;
}.

Definition _add_cockpit (parent_obj : string) (style_prompt : option string)
    : M Cockpit :=
  import_hou;;
  geo ← _get_or_create parent_obj "geo" "interstellar_cockpit";
  clear_file_nodes geo;;
  grid ← _get_or_create geo "grid" "dashboard_grid";
  set_parm grid "sizex" (VFloat 4);;
  set_parm grid "sizey" (VFloat 2);;
  set_parm grid "t" (VTuple [0; 1.2; 0])%Q;;
  set_parm grid "r" (VTuple [-10; 0; 0])%Q;;
  scatter ← _get_or_create geo "scatter" "holo_scatter";
  Hou.setInput scatter 0 grid;;
  set_parm scatter "npts" (VInt 20);;
  set_parm scatter "relax" (VInt 1);;
  sphere ← _get_or_create geo "sphere" "holo_orb";
  set_parm sphere "type" (VInt 2);;
  set_parm sphere "radx" (VFloat 0.07);;
  set_parm sphere "rady" (VFloat 0.07);;
  set_parm sphere "radz" (VFloat 0.07);;
  ctp ← _get_or_create geo "copytopoints" "holo_copy";
  Hou.setInput ctp 0 sphere;;
  Hou.setInput ctp 1 scatter;;
  merge ← _get_or_create geo "merge" "cockpit_merge";
  Hou.setInput merge 0 grid;;
  Hou.setInput merge 1 ctp;;
  uvflatten ←
    get_or_create_versioned geo "uvflatten::2.0" "uvunwrap" "cockpit_uvs";
  Hou.setInput uvflatten 0 merge;;
  cam ← _get_or_create parent_obj "cam" "cockpit_cam";
  set_parm cam "t" (VTuple [0; 1.5; 2.5])%Q;;
  set_parm cam "r" (VTuple [-8; 0; 0])%Q;;
  attrib ← _get_or_create geo "attribcreate" "holo_emission_hint";
  Hou.setInput attrib 0 uvflatten;;
  set_parm attrib "name" (VStr "emit");;
  set_parm attrib "class" (VInt 1);;
  set_parm attrib "type" (VInt 0);;
  set_parm attrib "value1" (VFloat 5);;
  Hou.setDisplayFlag attrib true;;
  Hou.setRenderFlag attrib true;;
  mret {| ck_geo := geo; ck_camera := cam; ck_out := attrib |}.

(** A method called on the [None] that [hou.node] returned. *)
Definition none_has_no {A} (attr : string) : M A :=
  raise (Exn AttributeError
           ("'NoneType' object has no attribute '" +:+ attr +:+ "'")).

Definition _create_camera_and_lights : M string :=
  import_hou;;
  obj ← Hou.node_at "/obj";
  match obj with
  | None => none_has_no "node"
  | Some obj =>
      cam ← _get_or_create obj "cam" "interstellar_cam";
      set_parm cam "t" (VTuple [0; 5; 50])%Q;;
      set_parm cam "r" (VTuple [-10; 0; 0])%Q;;
      light ← _get_or_create obj "hlight" "key_light";
      set_parm light "t" (VTuple [20; 30; 40])%Q;;
      fill ← _get_or_create obj "hlight" "fill_light";
      set_parm fill "t" (VTuple [-25; -10; 20])%Q;;
      mret cam
  end.

(** *** StableHoudini, snapshot, texture, material *)

(** [if node.parm(name): node.parm(name).set(v)]. *)
Definition set_parm_if_present (h name : string) (v : pval) : M unit :=
  p ← Hou.parm E h name;
  match p with
  | Some _ => set_parm h name v
  | None => mret ()
  end.

(** The [for t in node_types: ... break] loop. *)
Fixpoint create_first_known (topnet : string) (node_types : list string)
    : M (option string) :=
  match node_types with
  | [] => mret None
  | t :: rest =>
      known ← Hou.nodeType E t;
      if known : bool then
        sd_top ← Hou.createNode E topnet t "sd_img2img_cockpit";
        mret (Some sd_top)
      else create_first_known topnet rest
  end.

Definition _try_stablehoudini_pdg (cockpit_geo_path : string) : M unit :=
  try_except
    (import_hou;;
     obj ← Hou.node_at "/obj";
     topnet ← match obj with
              | None => none_has_no "node"
              | Some obj => Hou.node obj "stablehoudini_pdg"
              end;
     topnet ← match topnet with
              | Some t => mret t
              | None =>
                  obj ← Hou.node_at "/obj";
                  match obj with
                  | None => none_has_no "createNode"
                  | Some obj => Hou.createNode E obj "topnet" "stablehoudini_pdg"
                  end
              end;
     sd_top ← create_first_known topnet ["sd_img2img"; "top_stable_diffusion"];
     match sd_top with
     | None =>
         print "[Interstellar] StableHoudini TOP node not found; skipping PDG setup."
     | Some sd_top =>
         set_parm_if_present sd_top "api_url" (VStr "http://127.0.0.1:7860");;
         set_parm_if_present sd_top "prompt"
           (VStr "retro-futuristic cockpit with neon holograms, high-fidelity panels");;
         sched ← Hou.node topnet "localscheduler";
         match sched with
         | None =>
             try_except
               (localsched ←
                  Hou.createNode E topnet "localscheduler" "localscheduler";
                Hou.setInput sd_top 0 localsched)
               (λ _, mret ())
         | Some _ => mret ()
         end;;
         Hou.layoutChildren topnet
     end)
    (λ exc,
       print ("[Interstellar] StableHoudini PDG setup skipped: " +:+ emsg exc)).

Definition _render_viewport_snapshot (output_path : path)
    (camera_path objects_path : string) : M bool :=
  import_hou;;
  out ← Hou.node_at "/out";
  match out with
  | None => mret false
  | Some out =>
      opengl ← Hou.nodeType E "opengl";
      rop_type ←
        (if opengl : bool then mret (Some "opengl")
         else ogl ← Hou.nodeType E "ogl";
              mret (if ogl : bool then Some "ogl" else None));
      match rop_type with
      | None =>
          print "[Interstellar] No OpenGL ROP available; skipping snapshot render.";;
          mret false
      | Some rop_type =>
          rop ← _get_or_create out rop_type "interstellar_snapshot";
          set_parm rop "camera" (VStr camera_path);;
          set_parm rop "vm_picture" (VStr (Pathlib.str output_path));;
          set_parm rop "trange" (VInt 0);;
          set_parm rop "res1" (VInt 1024);;
          set_parm rop "res2" (VInt 1024);;
          try_except
            (Pathlib.render E rop output_path;;
             Pathlib.path_exists output_path)
            (λ exc,
               print ("[Interstellar] Snapshot render failed: " +:+ emsg exc);;
               mret false)
      end
  end.

(** The request body before an init image is attached. *)
Definition base_payload (prompt : string) : list (string * json) :=
  [("prompt", JStr prompt); ("steps", JInt 20); ("cfg_scale", JFloat 7.0);
   ("sampler_name", JStr "Euler a"); ("width", JInt 1024);
   ("height", JInt 1024)].

(** The lines from [payload = {...}] to [payload.update(...)]: the
    endpoint and the request body.  The snapshot is read outside the
    [try] block of the round trip. *)
Definition sd_request (init_image : option path) (prompt : string)
    : M (string * list (string * json)) :=
  let payload := base_payload prompt in
  let endpoint := "/sdapi/v1/txt2img" in
  match init_image with
  | Some init_image =>
      found ← Pathlib.path_exists init_image;
      if found : bool then
        let endpoint := "/sdapi/v1/img2img" in
        data ← Pathlib.read_bytes E init_image;
        let init_b64 := b64encode E data in
        mret (endpoint,
              Json.update payload
                [("init_images", JList [JStr init_b64]);
                 ("denoising_strength", JFloat 0.6)])
      else mret (endpoint, payload)
  | None => mret (endpoint, payload)
  end.

(** The [try: ... except Exception as exc: ...] block. *)
Definition sd_round_trip (api_url endpoint : string)
    (payload : list (string * json)) (output_image : path) : M bool :=
  try_except
    (resp ← Requests.post E (Py.rstrip_slash api_url +:+ endpoint)
              (JObj payload) 120;
     Requests.raise_for_status resp;;
     data ← Requests.json_of resp;
     images ← Json.get data "images";
     let images := Json.or_empty_list images in
     if negb (Json.truthy images) then
       print "[Interstellar] SD returned no images.";;
       mret false
     else
       img_b64 ← Json.first images;
       png_bytes ← Requests.b64decode_json E img_b64;
       Pathlib.mkdir_parents E (Pathlib.parent output_image);;
       Pathlib.write_bytes E output_image png_bytes;;
       mret true)
    (λ exc,
       print ("[Interstellar] Stable Diffusion request failed: " +:+ emsg exc);;
       mret false).

Definition _call_stable_diffusion (init_image : option path)
    (prompt : string) (output_image : path) (api_url : option string)
    : M bool :=
  if negb (Py.truthy api_url) then
    print "[Interstellar] No Stable Diffusion API URL provided; skipping.";;
    mret false
  else if negb (requests_importable E) then
    print "[Interstellar] 'requests' not available in this Houdini Python; skipping SD call.";;
    mret false
  else
    request ← sd_request init_image prompt;
    sd_round_trip (default "" api_url) request.1 request.2 output_image.

Definition _create_or_update_material (texture_path : option path)
    : M string :=
  import_hou;;
  matnet ← Hou.node_at "/mat";
  matnet ← match matnet with
           | Some m => mret m
           | None =>
               root ← Hou.node_at "/";
               match root with
               | None => none_has_no "createNode"
               | Some root => Hou.createNode E root "matnet" "mat"
               end
           end;
  modern ← Hou.nodeType E "principledshader::2.0";
  let shader_type :=
    if modern : bool then "principledshader::2.0" else "principledshader" in
  mat ← _get_or_create matnet shader_type "ship_mat";
  match texture_path with
  | Some texture_path =>
      found ← Pathlib.path_exists texture_path;
      if found : bool then
        for_each ["basecolor_useTexture"; "basecolortex_useTexture"]
          (λ parm_name, set_parm_if_present mat parm_name (VInt 1));;
        for_each ["basecolor_texture"; "basecolortex_texture"]
          (λ parm_name,
             set_parm_if_present mat parm_name
               (VStr (Pathlib.str texture_path)))
      else mret ()
  | None => mret ()
  end;;
  mret mat.

Definition _assign_material_to_geo (material_node_path : string)
    (material_sop : option string) : M unit :=
  match material_sop with
  | None => mret ()
  | Some material_sop =>
      p ← Hou.parm E material_sop "shop_materialpath1";
      match p with
      | Some _ =>
          set_parm material_sop "num_materials" (VInt 1);;
          set_parm material_sop "group1" (VStr "");;
          set_parm material_sop "shop_materialpath1" (VStr material_node_path)
      | None => mret ()
      end
  end.

Definition setup_interstellar_ai (prompt : string)
    (prompt_tweaks sd_api_url cockpit_style : option string)
    (build_stablehoudini_pdg : bool) : M unit :=
  _ensure_houdini;;
  _check_versions;;
  import_hou;;
  nodes ← _create_spaceship_blockout prompt_tweaks;
  cockpit_nodes ←
    (if Py.truthy cockpit_style then
       ck ← _add_cockpit (bo_obj nodes) cockpit_style; mret (Some ck)
     else mret None);
  cam ← _create_camera_and_lights;
  let project_root :=
    if Py.truthy (Some (hip E)) then Pathlib.Path (hip E) else cwd E in
  let ai_dir := project_root ++ ["ai_tools"; "generated"] in
  let snapshot_path := ai_dir ++ ["ship_view.png"] in
  let texture_path := ai_dir ++ ["ship_texture.png"] in
  let cockpit_snapshot_path := ai_dir ++ ["cockpit_view.png"] in
  let cockpit_texture_path := ai_dir ++ ["cockpit_texture.png"] in
  cam_path ← Hou.path cam;
  geo_path ← Hou.path (bo_geo nodes);
  snapshot_ok ← _render_viewport_snapshot snapshot_path cam_path geo_path;
  sd_ok ← _call_stable_diffusion
            (if snapshot_ok : bool then Some snapshot_path else None)
            prompt texture_path sd_api_url;
  match cockpit_nodes with
  | Some ck =>
      cockpit_cam_path ← Hou.path (ck_camera ck);
      cockpit_geo_path ← Hou.path (ck_geo ck);
      cockpit_snapshot_ok ←
        _render_viewport_snapshot cockpit_snapshot_path
          cockpit_cam_path cockpit_geo_path;
      cockpit_ok ←
        _call_stable_diffusion
          (if cockpit_snapshot_ok : bool then Some cockpit_snapshot_path
           else None)
          (if Py.truthy cockpit_style then default "" cockpit_style
           else "retro-futuristic cockpit with neon holograms")
          cockpit_texture_path sd_api_url;
      if build_stablehoudini_pdg then
        cockpit_geo_path ← Hou.path (ck_geo ck);
        _try_stablehoudini_pdg cockpit_geo_path
      else mret ()
  | None => mret ()
  end;;
  mat ← _create_or_update_material
          (if sd_ok : bool then Some texture_path else None);
  mat_path ← Hou.path mat;
  _assign_material_to_geo mat_path (Some (bo_mat_sop nodes));;
  print "[Interstellar] Setup complete.";;
  (if sd_ok : bool then
     print ("[Interstellar] Applied AI texture: " +:+ Pathlib.str texture_path)
   else
     print "[Interstellar] AI texture step skipped or failed; using default shader settings.");;
  match cockpit_nodes with
  | Some _ =>
      found ← Pathlib.path_exists cockpit_texture_path;
      if found : bool then
        print ("[Interstellar] Applied cockpit AI texture: "
               +:+ Pathlib.str cockpit_texture_path)
      else print "[Interstellar] Cockpit AI texture step skipped or failed."
  | None => mret ()
  end.

End Scripts.

(** *** Shapes in the scene that the properties speak of *)

Definition has_type (sc : gmap string Node) (h ty : string) : Prop :=
  ∃ n, sc !! h = Some n ∧ ntype n = ty.

Definition wired (sc : gmap string Node) (h : string) (idx : nat)
    (src : string) : Prop :=
  ∃ n, sc !! h = Some n ∧ ninputs n !! idx = Some src.

(** Rivets: points scattered over [base], a circle copied onto them, and
    the copies merged with [base] in the node [out]. *)
Definition rivet_branch (sc : gmap string Node) (geo base out : string)
    : Prop :=
  let scatter := Hou.child_path geo "rivets_scatter" in
  let circle := Hou.child_path geo "rivet_circle" in
  let ctp := Hou.child_path geo "rivets_copy" in
  has_type sc scatter "scatter" ∧ wired sc scatter 0 base
  ∧ has_type sc circle "circle"
  ∧ has_type sc ctp "copytopoints"
  ∧ wired sc ctp 0 circle ∧ wired sc ctp 1 scatter
  ∧ has_type sc out "merge" ∧ wired sc out 0 base ∧ wired sc out 1 ctp.

(** Conduit: a curve swept by a polywire, merged with [base] in [out]. *)
Definition conduit_branch (sc : gmap string Node) (geo base out : string)
    : Prop :=
  let curve := Hou.child_path geo "conduit_curve" in
  let polywire := Hou.child_path geo "conduit_wire" in
  has_type sc curve "curve"
  ∧ has_type sc polywire "polywire" ∧ wired sc polywire 0 curve
  ∧ has_type sc out "merge" ∧ wired sc out 0 base ∧ wired sc out 1 polywire.

(** An init image is given and exists on disk. *)
Definition snapshot_on_disk (s : State) (init_image : option path) : bool :=
  match init_image with
  | Some p => Pathlib.is_dir s p || Pathlib.is_file s p
  | None => false
  end.

(** The init image, when it is on disk, can be read. *)
Definition snapshot_readable (E : Env) (s : State)
    (init_image : option path) : bool :=
  match init_image with
  | Some p =>
      negb (Pathlib.is_dir s p || Pathlib.is_file s p)
      || (Pathlib.is_file s p && negb (bool_decide (p ∈ unreadable E)))
  | None => true
  end.

(** [mkdir(parents=True, exist_ok=True)] on the parent of [p] and then
    [write_bytes] on [p] both go through. *)
Definition can_write (E : Env) (s : State) (p : path) : bool :=
  forallb (λ d, negb (Pathlib.is_file s d)
                && (Pathlib.is_dir s d || negb (bool_decide (d ∈ unwritable E))))
    (Pathlib.ancestors (Pathlib.parent p))
  && negb (Pathlib.is_dir s p)
  && negb (bool_decide (p ∈ unwritable E)).

Definition status_ok (status : nat) : bool :=
  negb (Nat.leb 400 status && Nat.ltb status 600).

(** The tweak prompt is given and has the rivet keyword; the conduit
    keywords. *)
Definition wants_rivets (prompt_tweaks : option string) : bool :=
  Py.truthy prompt_tweaks
  && Py.contains "rivet" (Py.lower (default "" prompt_tweaks)).

Definition wants_conduit (prompt_tweaks : option string) : bool :=
  Py.truthy prompt_tweaks
  && (Py.contains "glow" (Py.lower (default "" prompt_tweaks))
      || Py.contains "conduit" (Py.lower (default "" prompt_tweaks))).

(** Where the run keeps its images: [project_root / "ai_tools" /
    "generated"]. *)
Definition ai_dir (E : Env) : path :=
  (if Py.truthy (Some (hip E)) then Pathlib.Path (hip E) else cwd E)
  ++ ["ai_tools"; "generated"].

(** Neither snapshot path is a directory, and neither is denied to the
    reader: a snapshot that is on disk can be read. *)
Definition snapshots_readable (E : Env) (s : State) : Prop :=
  ∀ name p,
    name ∈ ["ship_view.png"; "cockpit_view.png"] →
    p = ai_dir E ++ [name] →
    (p ∉ unreadable E) ∧ (p ∉ dirs s).

(** A well-formed response whose image list is empty or missing. *)
Definition images_absent (o : http_outcome) : Prop :=
  ∃ status kvs,
    o = HttpResponse status (Some (JObj kvs))
    ∧ status_ok status = true
    ∧ (Json.lookup_key "images" kvs = None
       ∨ Json.lookup_key "images" kvs = Some (JList [])).

(** A well-formed response with at least one image, the first [img]. *)
Definition images_present (o : http_outcome) (img : string) : Prop :=
  ∃ status kvs rest,
    o = HttpResponse status (Some (JObj kvs))
    ∧ status_ok status = true
    ∧ Json.lookup_key "images" kvs = Some (JList (JStr img :: rest)).

(** No response at all: connection refused, timeout. *)
Definition network_failure (o : http_outcome) : Prop :=
  ∃ e, o = HttpRaises e.

Definition rivet_names : list string :=
  ["rivets_scatter"; "rivet_circle"; "rivets_copy"; "merge_rivets"].

Definition conduit_names : list string :=
  ["conduit_curve"; "conduit_wire"; "merge_conduit"].

Definition tweak_names : list string := rivet_names ++ conduit_names.

Definition rivet_paths (geo : string) : list string :=
  Hou.child_path geo <$> rivet_names.

Definition conduit_paths (geo : string) : list string :=
  Hou.child_path geo <$> conduit_names.

Definition provides (E : Env) (type_name : string) (parms : list string)
    : Prop :=
  ∃ ps, catalog E !! type_name = Some ps ∧ ∀ p, p ∈ parms → p ∈ ps.

(** A geometry container that has none of the tweak nodes yet, in a host
    that has the six node types with the parameters the tweaks set. *)
Definition tweak_ready (E : Env) (geo : string) (s : State) : Prop :=
  hou_importable E = true
  ∧ is_Some (scene s !! geo)
  ∧ (∀ name, name ∈ tweak_names →
             scene s !! Hou.child_path geo name = None)
  ∧ provides E "scatter" ["npts"]
  ∧ provides E "circle" ["type"; "radx"; "rady"]
  ∧ provides E "copytopoints" []
  ∧ provides E "merge" []
  ∧ provides E "curve" ["type"; "coords"]
  ∧ provides E "polywire" ["radius"].

End SetupHoudiniAi.


(** ** scripts/generate_interstellar_ship.py *)

Module GenerateInterstellarShip.
Section Ship.
Context (E : Env).

Definition get_or_create (parent type_name node_name : string) : M string :=
  node ← Hou.node parent node_name;
  match node with
  | None => Hou.createNode E parent type_name node_name
  | Some n => mret n
  end.

Definition _safe_requests : M bool := mret (requests_importable E).

Definition call_sd_txt2img (prompt : string) (out_path : path)
    (api_url : string) : M bool :=
  requests ← _safe_requests;
  if negb requests then
    print "[Interstellar] 'requests' not available; skipping SD texture.";;
    mret false
  else
    let payload :=
      [("prompt", JStr prompt); ("steps", JInt 20); ("cfg_scale", JFloat 7.0);
       ("sampler_name", JStr "Euler a"); ("width", JInt 1024);
       ("height", JInt 1024)] in
    try_except
      (resp ← Requests.post E (Py.rstrip_slash api_url +:+ "/sdapi/v1/txt2img")
                (JObj payload) 180;
       Requests.raise_for_status resp;;
       data ← Requests.json_of resp;
       images ← Json.get data "images";
       let images := Json.or_empty_list images in
       if negb (Json.truthy images) then
         print "[Interstellar] SD returned no images; skipping.";;
         mret false
       else
         img_b64 ← Json.first images;
         Pathlib.mkdir_parents E (Pathlib.parent out_path);;
         png_bytes ← Requests.b64decode_json E img_b64;
         Pathlib.write_bytes E out_path png_bytes;;
         print ("[Interstellar] Wrote AI texture: " +:+ Pathlib.str out_path);;
         mret true)
      (λ exc,
         print ("[Interstellar] SD txt2img failed: " +:+ emsg exc);;
         mret false).

(** [enumerate(l)]. *)
Definition enumerate {A} (l : list A) : list (nat * A) := imap pair l.

(** [build_ship], from [obj = hou.node("/obj")] to the material SOP: the
    container, the hull with its three shields, the engines, the scoop,
    the merge of the ten parts, the UVs and the material SOP.  Returns the
    container and the material SOP. *)
Definition ship_network : M (string * string) :=
  obj ← Hou.node_at "/obj";
  obj ← match obj with
        | Some obj => mret obj
        | None =>
            root ← Hou.node_at "/";
            match root with
            | None => SetupHoudiniAi.none_has_no "createNode"
            | Some root => Hou.createNode E root "obj" "obj"
            end
        end;
  geo ← get_or_create obj "geo" "interstellar_ship";
  SetupHoudiniAi.clear_file_nodes geo;;
  let hull_length := 5000%Q in
  let hull_radius := 80%Q in
  core ← get_or_create geo "tube" "hull_core";
  SetupHoudiniAi.set_parm E core "type" (VInt 1);;
  SetupHoudiniAi.set_parm E core "orient" (VInt 2);;
  SetupHoudiniAi.set_parm E core "height" (VFloat hull_length);;
  SetupHoudiniAi.set_parm E core "rad1" (VFloat hull_radius);;
  SetupHoudiniAi.set_parm E core "rad2" (VFloat hull_radius);;
  SetupHoudiniAi.set_parm E core "cap" (VBool true);;
  shield1 ← get_or_create geo "tube" "hull_shield_1";
  SetupHoudiniAi.copy_tube_parms E shield1 core;;
  SetupHoudiniAi.set_parm E shield1 "rad1" (VFloat (hull_radius * 1.05));;
  SetupHoudiniAi.set_parm E shield1 "rad2" (VFloat (hull_radius * 1.05));;
  shield2 ← get_or_create geo "tube" "hull_shield_2";
  SetupHoudiniAi.copy_tube_parms E shield2 core;;
  SetupHoudiniAi.set_parm E shield2 "rad1" (VFloat (hull_radius * 1.1));;
  SetupHoudiniAi.set_parm E shield2 "rad2" (VFloat (hull_radius * 1.1));;
  shield3 ← get_or_create geo "tube" "hull_shield_3";
  SetupHoudiniAi.copy_tube_parms E shield3 core;;
  SetupHoudiniAi.set_parm E shield3 "rad1" (VFloat (hull_radius * 1.2));;
  SetupHoudiniAi.set_parm E shield3 "rad2" (VFloat (hull_radius * 1.2));;
  let tail_z := (- hull_length * 0.5)%Q in
  let engine_offset := 140%Q in
  let nozzle_length := 150%Q in
  let nozzle_radius := 40%Q in
  noz_l ← get_or_create geo "cone" "engine_nozzle_L";
  SetupHoudiniAi.set_parm E noz_l "type" (VInt 1);;
  SetupHoudiniAi.set_parm E noz_l "height" (VFloat nozzle_length);;
  SetupHoudiniAi.set_parm E noz_l "rad" (VFloat nozzle_radius);;
  SetupHoudiniAi.set_parm E noz_l "t"
    (VTuple [engine_offset; 0; tail_z + nozzle_length * 0.5])%Q;;
  SetupHoudiniAi.set_parm E noz_l "r" (VTuple [90; 0; 0])%Q;;
  noz_r ← get_or_create geo "cone" "engine_nozzle_R";
  SetupHoudiniAi.set_parm E noz_r "type" (VInt 1);;
  SetupHoudiniAi.set_parm E noz_r "height" (VFloat nozzle_length);;
  SetupHoudiniAi.set_parm E noz_r "rad" (VFloat nozzle_radius);;
  SetupHoudiniAi.set_parm E noz_r "t"
    (VTuple [- engine_offset; 0; tail_z + nozzle_length * 0.5])%Q;;
  SetupHoudiniAi.set_parm E noz_r "r" (VTuple [90; 0; 0])%Q;;
  plasma_l ← get_or_create geo "sphere" "engine_plasma_L";
  SetupHoudiniAi.set_parm E plasma_l "type" (VInt 2);;
  for_each ["radx"; "rady"; "radz"]
    (λ p, SetupHoudiniAi.set_parm E plasma_l p (VFloat (nozzle_radius * 0.6)));;
  SetupHoudiniAi.set_parm E plasma_l "t"
    (VTuple [engine_offset; 0; tail_z + nozzle_length])%Q;;
  plasma_r ← get_or_create geo "sphere" "engine_plasma_R";
  SetupHoudiniAi.set_parm E plasma_r "type" (VInt 2);;
  for_each ["radx"; "rady"; "radz"]
    (λ p, SetupHoudiniAi.set_parm E plasma_r p (VFloat (nozzle_radius * 0.6)));;
  SetupHoudiniAi.set_parm E plasma_r "t"
    (VTuple [- engine_offset; 0; tail_z + nozzle_length])%Q;;
  let nose_z := (hull_length * 0.5)%Q in
  ring ← get_or_create geo "torus" "bussard_ring";
  SetupHoudiniAi.set_parm E ring "type" (VInt 1);;
  SetupHoudiniAi.set_parm E ring "rad1" (VFloat (hull_radius * 1.6));;
  SetupHoudiniAi.set_parm E ring "rad2" (VFloat (hull_radius * 0.2));;
  SetupHoudiniAi.set_parm E ring "t" (VTuple [0; 0; nose_z - 50])%Q;;
  cone ← get_or_create geo "cone" "bussard_cone";
  SetupHoudiniAi.set_parm E cone "type" (VInt 1);;
  SetupHoudiniAi.set_parm E cone "height" (VFloat 400);;
  SetupHoudiniAi.set_parm E cone "rad" (VFloat (hull_radius * 1.2));;
  SetupHoudiniAi.set_parm E cone "t" (VTuple [0; 0; nose_z - 200])%Q;;
  SetupHoudiniAi.set_parm E cone "r" (VTuple [-90; 0; 0])%Q;;
  merge ← get_or_create geo "merge" "ship_merge";
  for_each
    (enumerate [core; shield1; shield2; shield3; noz_l; noz_r;
                plasma_l; plasma_r; ring; cone])
    (λ '(idx, n), Hou.setInput merge idx n);;
  known ← Hou.nodeType E "uvflatten::2.0";
  let uv_op := if known : bool then "uvflatten::2.0" else "uvunwrap" in
  uvs ← get_or_create geo uv_op "uvs";
  Hou.setInput uvs 0 merge;;
  mat_sop ← get_or_create geo "material" "assign_material";
  Hou.setInput mat_sop 0 uvs;;
  mret (geo, mat_sop).

(** The shader under /mat. *)
Definition ship_shader : M string :=
  matnet ← Hou.node_at "/mat";
  matnet ← match matnet with
           | Some m => mret m
           | None =>
               root ← Hou.node_at "/";
               match root with
               | None => SetupHoudiniAi.none_has_no "createNode"
               | Some root => Hou.createNode E root "matnet" "mat"
               end
           end;
  modern ← Hou.nodeType E "principledshader::2.0";
  let shader_type :=
    if modern : bool then "principledshader::2.0" else "principledshader" in
  get_or_create matnet shader_type "ship_mat".

(** The body of [if prompt_for_texture:]. *)
Definition texture_shader (prompt_for_texture mat : string) : M unit :=
  let project_root := cwd E in
  let texture_file := project_root ++ ["ai_tools"; "generated"; "ship_texture.png"] in
  ok ← call_sd_txt2img prompt_for_texture texture_file "http://127.0.0.1:7860";
  if ok : bool then
    for_each ["basecolor_useTexture"; "basecolortex_useTexture"]
      (λ name, SetupHoudiniAi.set_parm_if_present E mat name (VInt 1));;
    for_each ["basecolor_texture"; "basecolortex_texture"]
      (λ name,
         SetupHoudiniAi.set_parm_if_present E mat name
           (VStr (Pathlib.str texture_file)))
  else mret ().

(** The three guarded assignments on the material SOP; [mat.path()] is
    evaluated once the parameter has been found. *)
Definition assign_shader (mat_sop mat : string) : M unit :=
  SetupHoudiniAi.set_parm_if_present E mat_sop "num_materials" (VInt 1);;
  SetupHoudiniAi.set_parm_if_present E mat_sop "group1" (VStr "");;
  p ← Hou.parm E mat_sop "shop_materialpath1";
  match p with
  | Some _ =>
      p ← Hou.parm E mat_sop "shop_materialpath1";
      match p with
      | None => Hou.parm_set p (VStr "")
      | Some _ => mat_path ← Hou.path mat; Hou.parm_set p (VStr mat_path)
      end
  | None => mret ()
  end.

Definition build_ship (prompt_for_texture : option string) : M unit :=
  SetupHoudiniAi.import_hou E;;
  nodes ← ship_network;
  let geo := nodes.1 in
  let mat_sop := nodes.2 in
  mat ← ship_shader;
  (if Py.truthy prompt_for_texture
   then texture_shader (default "" prompt_for_texture) mat
   else mret ());;
  assign_shader mat_sop mat;;
  Hou.setDisplayFlag geo true;;
  Hou.setDisplayFlag mat_sop true;;
  Hou.setRenderFlag mat_sop true;;
  Hou.layoutChildren geo.

End Ship.
End GenerateInterstellarShip.

(** ** What a call leaves untouched *)

(** Only the scene may differ: nothing was printed, sent or written. *)
Definition scene_only : relation State :=
  λ s s', files s' = files s ∧ dirs s' = dirs s
          ∧ sent s' = sent s ∧ stdout s' = stdout s.

(** Only the scene and the printed lines may differ. *)
Definition offline : relation State :=
  λ s s', files s' = files s ∧ dirs s' = dirs s ∧ sent s' = sent s.

(** The texture call answers [True] exactly when it has written the
    output file; otherwise the files are as they were. *)
Definition writes_when_true (out : path) (m : M bool) : Prop :=
  ∀ s,
    match (m s).1 with
    | Ok true => ∃ png, files (m s).2 = <[out := png]> (files s)
    | _ => files (m s).2 = files s
    end.

(** One round of the loop of [clear_file_nodes]. *)
Definition clear_one (c : string) : M unit :=
  try_except
    (ty ← Hou.type_name c;
     if decide (ty = "file") then Hou.destroy c else mret ())
    (λ _, mret ()).

(** The files are as they were. *)
Definition same_files : relation State := λ s s', files s' = files s.

(** The render node type [_render_viewport_snapshot] settles on. *)
Definition snapshot_rop_type (E : Env) : option string :=
  if bool_decide (is_Some (catalog E !! "opengl")) then Some "opengl"
  else if bool_decide (is_Some (catalog E !! "ogl")) then Some "ogl"
  else None.

(** The node after [if node.parm(name): node.parm(name).set(v)] on a node
    whose type has the parameters [ps]. *)
Definition stored_if (ps : gset string) (name : string) (v : pval) (n : Node)
    : Node :=
  if bool_decide (name ∈ ps) then Hou.store_parm name v n else n.

(** The shader type the scripts settle on. *)
Definition shader_type (E : Env) : string :=
  if bool_decide (is_Some (catalog E !! "principledshader::2.0"))
  then "principledshader::2.0" else "principledshader".

(** What a shader with the parameters [ps] holds at [name] once the
    texture file has been attached. *)
Definition texture_parm (ps : gset string) (texture name : string)
    : option pval :=
  if bool_decide (name ∈ ps) then
    if bool_decide (name ∈ ["basecolor_useTexture"; "basecolortex_useTexture"])
    then Some (VInt 1)
    else if bool_decide (name ∈ ["basecolor_texture"; "basecolortex_texture"])
    then Some (VStr texture)
    else None
  else None.

(** The state after the lines have been printed, first to last. *)
Definition printed (lines : list string) (s : State) : State :=
  foldl (λ s line, add_stdout line s) s lines.

(** The warnings of [_check_versions]. *)
Definition python_warning (E : Env) : list string :=
  if bool_decide (python_version E = (3, 9)) then []
  else ["[Interstellar] Warning: Python " +:+ pretty (python_version E).1
        +:+ "." +:+ pretty (python_version E).2
        +:+ " detected; recommended 3.9"].

Definition houdini_warning (E : Env) : list string :=
  match application_version E with
  | major :: _ =>
      if Nat.ltb major 20
      then ["[Interstellar] Warning: Houdini "
            +:+ application_version_string E +:+ " detected; recommended 20+"]
      else []
  | [] => []
  end.

(** ** Concrete environments and scenes *)

Module Examples.

(** A host with every node type and parameter the scripts use. *)
Definition full_catalog : gmap string (gset string) :=
  list_to_map [
    ("geo", ∅);
    ("tube", list_to_set ["type"; "orient"; "height"; "rad1"; "rad2"; "cap"]);
    ("cone", list_to_set ["type"; "height"; "rad"; "t"; "r"]);
    ("sphere", list_to_set ["type"; "radx"; "rady"; "radz"; "t"]);
    ("torus", list_to_set ["type"; "rad1"; "rad2"; "t"]);
    ("merge", ∅);
    ("polyreduce::2.0", list_to_set ["percentage"]);
    ("uvflatten::2.0", ∅);
    ("material", list_to_set ["num_materials"; "group1"; "shop_materialpath1"]);
    ("scatter", list_to_set ["npts"; "relax"]);
    ("circle", list_to_set ["type"; "radx"; "rady"]);
    ("copytopoints", ∅);
    ("curve", list_to_set ["type"; "coords"]);
    ("polywire", list_to_set ["radius"]);
    ("grid", list_to_set ["sizex"; "sizey"; "t"; "r"]);
    ("cam", list_to_set ["t"; "r"]);
    ("attribcreate", list_to_set ["name"; "class"; "type"; "value1"]);
    ("hlight", list_to_set ["t"]);
    ("topnet", ∅);
    ("localscheduler", ∅);
    ("top_stable_diffusion", list_to_set ["api_url"; "prompt"]);
    ("opengl", list_to_set ["camera"; "vm_picture"; "trange"; "res1"; "res2"]);
    ("matnet", ∅);
    ("principledshader::2.0",
     list_to_set ["basecolor_useTexture"; "basecolor_texture"])
  ].

Definition unreachable : exn :=
  Exn ConnectionError "Connection refused".

(** Houdini 20 with nothing listening on the API port. *)
Definition studio : Env := {|
  hou_importable := true;
  python_version := (3, 9);
  application_version := [20; 0; 547];
  application_version_string := "20.0.547";
  catalog := full_catalog;
  hip := "/proj";
  cwd := ["proj"];
  rop_render := λ _, RenderDone None;
  requests_importable := true;
  http_post := λ _ _ _, HttpRaises unreachable;
  b64encode := λ _, "";
  b64decode := λ _, None;
  unreadable := ∅;
  unwritable := ∅;
|}.

(** The eight bytes every PNG file starts with, and their base64 text.
    The example codec knows this one value. *)
Definition png_magic : list Byte.byte :=
  [x89; x50; x4e; x47; x0d; x0a; x1a; x0a]%byte.

Definition png_magic_b64 : string := "iVBORw0KGgo=".

Local Instance byte_eq_dec : EqDecision Byte.byte := Byte.byte_eq_dec.

Definition encode_magic (data : list Byte.byte) : string :=
  if decide (data = png_magic) then png_magic_b64 else "".

Definition decode_magic (text : string) : option (list Byte.byte) :=
  if decide (text = png_magic_b64) then Some png_magic else None.

Definition with_server (post : string → json → nat → http_outcome)
    (E : Env) : Env := {|
  hou_importable := hou_importable E;
  python_version := python_version E;
  application_version := application_version E;
  application_version_string := application_version_string E;
  catalog := catalog E;
  hip := hip E;
  cwd := cwd E;
  rop_render := rop_render E;
  requests_importable := requests_importable E;
  http_post := post;
  b64encode := encode_magic;
  b64decode := decode_magic;
  unreadable := unreadable E;
  unwritable := unwritable E;
|}.

(** A server that answers every request with one image. *)
Definition gallery : Env :=
  with_server
    (λ _ _ _, HttpResponse 200
                (Some (JObj [("images", JList [JStr png_magic_b64]);
                             ("info", JStr "")])))
    studio.

(** A server that answers with an empty image list. *)
Definition empty_gallery : Env :=
  with_server (λ _ _ _, HttpResponse 200 (Some (JObj [("images", JList [])])))
    studio.

Definition generated : path := ["proj"; "ai_tools"; "generated"].
Definition ship_view : path := generated ++ ["ship_view.png"].
Definition ship_texture : path := generated ++ ["ship_texture.png"].

(** The renderer writes the snapshot, and the snapshot cannot be read
    back (its permissions deny it). *)
Definition locked : Env := {|
  hou_importable := true;
  python_version := (3, 9);
  application_version := [20; 0; 547];
  application_version_string := "20.0.547";
  catalog := full_catalog;
  hip := "/proj";
  cwd := ["proj"];
  rop_render := λ _, RenderDone (Some png_magic);
  requests_importable := true;
  http_post := λ _ _ _, HttpRaises unreachable;
  b64encode := encode_magic;
  b64decode := decode_magic;
  unreadable := {[ship_view]};
  unwritable := ∅;
|}.

(** A host that has neither version of the polyreduce node. *)
Definition no_polyreduce : Env := {|
  hou_importable := true;
  python_version := (3, 9);
  application_version := [20; 0; 547];
  application_version_string := "20.0.547";
  catalog := delete "polyreduce::2.0" full_catalog;
  hip := "/proj";
  cwd := ["proj"];
  rop_render := λ _, RenderDone None;
  requests_importable := true;
  http_post := λ _ _ _, HttpRaises unreachable;
  b64encode := encode_magic;
  b64decode := decode_magic;
  unreadable := ∅;
  unwritable := ∅;
|}.

Definition manager (type_name : string) : Node := new_node type_name.

(** A new scene: the root and its managers. *)
Definition new_scene : gmap string Node :=
  list_to_map [
    ("/", manager "root"); ("/obj", manager "obj");
    ("/out", manager "out"); ("/mat", manager "mat")
  ].

Definition start (sc : gmap string Node) : State :=
  {| scene := sc; files := ∅; dirs := ∅; sent := []; stdout := [] |}.

(** A geometry container holding the end of the base chain. *)
Definition ship_scene : gmap string Node :=
  <["/obj/interstellar_ship/uvs" := new_node "uvflatten::2.0"]>
    (<["/obj/interstellar_ship" := new_node "geo"]> new_scene).

Definition ship : string := "/obj/interstellar_ship".
Definition uvs : string := "/obj/interstellar_ship/uvs".
Definition rivets_copy : string := "/obj/interstellar_ship/rivets_copy".

(** The scene after [_connect_merge] has attached the rivets once. *)
Definition wired_once : State :=
  (SetupHoudiniAi._connect_merge studio ship uvs rivets_copy "merge_rivets"
     (start ship_scene)).2.

(** A disk that holds the snapshot. *)
Definition with_snapshot : State :=
  {| scene := new_scene; files := {[ship_view := png_magic]};
     dirs := list_to_set (Pathlib.ancestors generated);
     sent := []; stdout := [] |}.

(** *** The scenes a run goes through on a new scene of a full host *)

(** A tweak prompt for each combination of the two keyword groups. *)
Definition tweak_prompt (rivet conduit : bool) : option string :=
  Some (if rivet then (if conduit then "rivets, glow" else "rivets")
        else (if conduit then "glow" else "plain")).

(** After [_create_spaceship_blockout]. *)
Definition built (rivet conduit : bool) : gmap string Node :=
  scene (SetupHoudiniAi._create_spaceship_blockout studio
           (tweak_prompt rivet conduit) (start new_scene)).2.

(** After [_add_cockpit], when a cockpit is asked for. *)
Definition furnished (rivet conduit cockpit : bool) : gmap string Node :=
  if cockpit
  then scene (SetupHoudiniAi._add_cockpit studio "/obj" None
                (start (built rivet conduit))).2
  else built rivet conduit.

(** After [_create_camera_and_lights]. *)
Definition lit (rivet conduit cockpit : bool) : gmap string Node :=
  scene (SetupHoudiniAi._create_camera_and_lights studio
           (start (furnished rivet conduit cockpit))).2.

Definition snapshot_rop : string := "/out/interstellar_snapshot".
Definition assign_material : string := "/obj/interstellar_ship/assign_material".
Definition cockpit : string := "/obj/interstellar_cockpit".

(** After the snapshots, with [rop] the render node as it then is. *)
Definition shot (rivet conduit cockpit : bool) (rop : Node)
    : gmap string Node :=
  <[snapshot_rop := rop]> (lit rivet conduit cockpit).

(** After [_try_stablehoudini_pdg]. *)
Definition piped (rivet conduit : bool) (rop : Node) : gmap string Node :=
  scene (SetupHoudiniAi._try_stablehoudini_pdg studio cockpit
           (start (shot rivet conduit true rop))).2.

(** *** More hosts and scenes *)

Definition with_catalog (types : gmap string (gset string)) (E : Env) : Env := {|
  hou_importable := hou_importable E;
  python_version := python_version E;
  application_version := application_version E;
  application_version_string := application_version_string E;
  catalog := types;
  hip := hip E;
  cwd := cwd E;
  rop_render := rop_render E;
  requests_importable := requests_importable E;
  http_post := http_post E;
  b64encode := b64encode E;
  b64decode := b64decode E;
  unreadable := unreadable E;
  unwritable := unwritable E;
|}.

(** A host that can make no node at all. *)
Definition bare : Env := with_catalog ∅ studio.

(** A host without the StableHoudini HDA. *)
Definition no_stablehoudini : Env :=
  with_catalog (delete "top_stable_diffusion" full_catalog) studio.

(** A plain Python, outside Houdini. *)
Definition outside : Env := {|
  hou_importable := false;
  python_version := (3, 11);
  application_version := [];
  application_version_string := "";
  catalog := ∅;
  hip := "";
  cwd := ["proj"];
  rop_render := λ _, RenderDone None;
  requests_importable := true;
  http_post := λ _ _ _, HttpRaises unreachable;
  b64encode := encode_magic;
  b64decode := decode_magic;
  unreadable := ∅;
  unwritable := ∅;
|}.

(** Houdini 19.5 with its Python 3.7. *)
Definition legacy : Env := {|
  hou_importable := true;
  python_version := (3, 7);
  application_version := [19; 5; 303];
  application_version_string := "19.5.303";
  catalog := full_catalog;
  hip := "/proj";
  cwd := ["proj"];
  rop_render := λ _, RenderDone None;
  requests_importable := false;
  http_post := λ _ _ _, HttpRaises unreachable;
  b64encode := encode_magic;
  b64decode := decode_magic;
  unreadable := ∅;
  unwritable := ∅;
|}.

(** A server whose image is not base64 text. *)
Definition noisy_gallery : Env :=
  with_server
    (λ _ _ _, HttpResponse 200
                (Some (JObj [("images", JList [JStr "not an image"])])))
    studio.

(** A new geometry container, with the file node the host puts in it. *)
Definition fresh_geo : gmap string Node :=
  <["/obj/interstellar_ship/file1" := new_node "file"]>
    (<["/obj/interstellar_ship" := new_node "geo"]> new_scene).

(** A material SOP and nothing else in the ship container. *)
Definition sop_scene : gmap string Node :=
  <[assign_material := new_node "material"]>
    (<["/obj/interstellar_ship" := new_node "geo"]> new_scene).

(** *** The scenes [build_ship] goes through on a new scene *)

(** After the ship network has been built. *)
Definition networked : gmap string Node :=
  scene (GenerateInterstellarShip.ship_network studio (start new_scene)).2.

(** After the shader has been made. *)
Definition shaded : gmap string Node :=
  scene (GenerateInterstellarShip.ship_shader studio (start networked)).2.

Definition ship_merge : string := "/obj/interstellar_ship/ship_merge".
Definition ship_mat : string := "/mat/ship_mat".

(** The ten parts of the ship, in the order of the merge. *)
Definition ship_parts : list string :=
  Hou.child_path ship <$>
    ["hull_core"; "hull_shield_1"; "hull_shield_2"; "hull_shield_3";
     "engine_nozzle_L"; "engine_nozzle_R"; "engine_plasma_L";
     "engine_plasma_R"; "bussard_ring"; "bussard_cone"].

End Examples.
(** * Properties *)

(** ** The bounded search *)

Section first_free.
Context `{Countable K} {V : Type} (f : nat → K) `{!Inj (=) (=) f}.

Lemma first_free_ext (m m' : gmap K V) fuel k :
  (∀ i, k ≤ i → m !! f i = None ↔ m' !! f i = None) →
  first_free f m fuel k = first_free f m' fuel k.
Proof.
  revert k. induction fuel as [|fuel IH]; intros k Hext; simpl; [done|].
  pose proof (Hext k (le_n k)) as Hk.
  destruct (m !! f k) eqn:Hm, (m' !! f k) eqn:Hm'; try done.
  - apply IH. intros i Hi. apply Hext. lia.
  - destruct Hk as [_ Hk]. by specialize (Hk eq_refl).
  - destruct Hk as [Hk _]. by specialize (Hk eq_refl).
Qed.

(** With [size m] rounds the search ends on a free index, and every index
    it passed is bound. *)
Lemma first_free_spec (m : gmap K V) fuel k :
  size m ≤ fuel →
  m !! f (first_free f m fuel k) = None
  ∧ k ≤ first_free f m fuel k
  ∧ ∀ i, k ≤ i < first_free f m fuel k → is_Some (m !! f i).
Proof.
  revert m k. induction fuel as [|fuel IH]; intros m k Hsz; simpl.
  - assert (m = ∅) as -> by (apply map_size_empty_inv; lia).
    rewrite lookup_empty. repeat split; [lia|]. intros i Hi. lia.
  - destruct (m !! f k) as [v|] eqn:Hk.
    + assert (first_free f m fuel (S k)
              = first_free f (delete (f k) m) fuel (S k)) as Heq.
      { apply first_free_ext. intros i Hi.
        rewrite lookup_delete_ne; [done|].
        intros Hf. apply (inj f) in Hf. lia. }
      rewrite Heq.
      destruct (IH (delete (f k) m) (S k)) as (Hfree & Hle & Hbound).
      { rewrite map_size_delete_Some by eauto. lia. }
      repeat split.
      * rewrite lookup_delete_ne in Hfree; [done|].
        intros Hf. apply (inj f) in Hf. lia.
      * lia.
      * intros i Hi. destruct (decide (i = k)) as [->|Hne]; [eauto|].
        specialize (Hbound i). rewrite lookup_delete_ne in Hbound.
        -- apply Hbound. lia.
        -- intros Hf. apply (inj f) in Hf. lia.
    + repeat split; [done|lia|]. intros i Hi. lia.
Qed.
End first_free.

(** ** The host model *)

Section hou_facts.
Context (E : Env).

Lemma child_path_inj parent : Inj (=) (=) (Hou.child_path parent).
Proof. intros n1 n2 Heq. unfold Hou.child_path in Heq. by simplify_eq. Qed.

Lemma numbered_inj parent name :
  Inj (=) (=) (λ k : nat, Hou.child_path parent (name +:+ pretty k)).
Proof.
  intros k1 k2 Heq. apply child_path_inj in Heq.
  apply (inj (String.app name)) in Heq. by apply (inj pretty) in Heq.
Qed.

(** The host never gives a new node the path of an existing one. *)
Lemma unique_path_fresh (sc : gmap string Node) parent name :
  sc !! Hou.unique_path sc parent name = None.
Proof.
  unfold Hou.unique_path.
  destruct (sc !! Hou.child_path parent name) eqn:Hc; [|done].
  pose proof (numbered_inj parent name) as Hinj.
  by destruct (first_free_spec _ sc (size sc) 1 (le_n _)) as [Hfree _].
Qed.

Lemma unique_path_free (sc : gmap string Node) parent name :
  sc !! Hou.child_path parent name = None →
  Hou.unique_path sc parent name = Hou.child_path parent name.
Proof. intros Hc. unfold Hou.unique_path. by rewrite Hc. Qed.

End hou_facts.

Ltac unfold_monad :=
  unfold mbind, M_bind, mret, M_ret, raise, try_except, Hou.deleted in *.

(** ** [_get_or_create] *)

Section get_or_create.
Context (E : Env).
Import SetupHoudiniAi.

Lemma get_or_create_found parent ty name s :
  is_Some (scene s !! parent) →
  is_Some (scene s !! Hou.child_path parent name) →
  _get_or_create E parent ty name s = (Ok (Hou.child_path parent name), s).
Proof.
  intros [p Hp] [c Hc]. unfold _get_or_create, Hou.node, Hou.node_at.
  unfold_monad. by rewrite Hp, Hc.
Qed.

Lemma get_or_create_new parent ty name s p ps :
  scene s !! parent = Some p →
  scene s !! Hou.child_path parent name = None →
  catalog E !! ty = Some ps →
  _get_or_create E parent ty name s
  = (Ok (Hou.child_path parent name),
     set_scene (<[Hou.child_path parent name := new_node ty]> (scene s)) s).
Proof.
  intros Hp Hc Hty. unfold _get_or_create, Hou.node, Hou.node_at, Hou.createNode.
  unfold_monad. rewrite Hp, Hc, Hp, Hty. by rewrite unique_path_free.
Qed.

Lemma get_or_create_same_script parent ty name s :
  GenerateInterstellarShip.get_or_create E parent ty name s
  = _get_or_create E parent ty name s.
Proof. reflexivity. Qed.

(** C10.  [_get_or_create], and [get_or_create] of the other script, run
    twice with the same arguments: the second call returns what the first
    returned and changes nothing, the two calls together add at most one
    node, and a child that already exists is returned with the scene
    unchanged. *)
Theorem get_or_create_idempotent parent ty name s :
  ∃ r s1,
    _get_or_create E parent ty name s = (r, s1)
    ∧ GenerateInterstellarShip.get_or_create E parent ty name s = (r, s1)
    ∧ _get_or_create E parent ty name s1 = (r, s1)
    ∧ GenerateInterstellarShip.get_or_create E parent ty name s1 = (r, s1)
    ∧ size (scene s1) ≤ S (size (scene s))
    ∧ (is_Some (scene s !! parent) →
       is_Some (scene s !! Hou.child_path parent name) →
       r = Ok (Hou.child_path parent name) ∧ s1 = s).
Proof.
  change (GenerateInterstellarShip.get_or_create E) with (_get_or_create E).
  destruct (scene s !! parent) as [p|] eqn:Hp.
  - destruct (scene s !! Hou.child_path parent name) as [c|] eqn:Hc.
    + exists (Ok (Hou.child_path parent name)), s.
      rewrite !get_or_create_found by eauto.
      repeat split; try done. lia.
    + destruct (catalog E !! ty) as [ps|] eqn:Hty.
      * eexists _, _. rewrite (get_or_create_new _ _ _ _ _ _ Hp Hc Hty).
        split_and!; try done.
        -- apply get_or_create_found; simpl.
           ++ rewrite lookup_insert_ne; [eauto|].
              intros Heq. rewrite Heq in Hc. congruence.
           ++ rewrite lookup_insert_eq. eauto.
        -- apply get_or_create_found; simpl.
           ++ rewrite lookup_insert_ne; [eauto|].
              intros Heq. rewrite Heq in Hc. congruence.
           ++ rewrite lookup_insert_eq. eauto.
        -- simpl. by rewrite map_size_insert_None.
      * exists (Raise (Exn OperationFailed ("Invalid node type name: " +:+ ty))), s.
        unfold _get_or_create, Hou.node, Hou.node_at, Hou.createNode.
        unfold_monad. rewrite Hp, Hc, Hp, Hty.
        split_and!; try done. lia.
  - eexists _, s. unfold _get_or_create, Hou.node. unfold_monad. rewrite Hp.
    split_and!; try done. lia.
Qed.

End get_or_create.

(** ** [_connect_merge] *)

Section connect_merge.
Context (E : Env).
Import SetupHoudiniAi.

(** The [while] loop stops on the first unconnected input from 1 on. *)
Lemma next_free_input_spec (ins : gmap nat string) :
  ins !! next_free_input ins = None
  ∧ 1 ≤ next_free_input ins
  ∧ ∀ i, 1 ≤ i < next_free_input ins → is_Some (ins !! i).
Proof. apply (first_free_spec id ins (size ins) 1). lia. Qed.

Lemma set_inputs_same n : Hou.set_inputs (ninputs n) n = n.
Proof. by destruct n. Qed.

Lemma set_inputs_twice ins1 ins2 n :
  Hou.set_inputs ins2 (Hou.set_inputs ins1 n) = Hou.set_inputs ins2 n.
Proof. done. Qed.

(** An existing merge node of that name is the one worked on. *)
Lemma merge_node_found parent name s n :
  is_Some (scene s !! parent) →
  scene s !! Hou.child_path parent name = Some n →
  ntype n = "merge" →
  merge_node E parent name s = (Ok (Hou.child_path parent name), s).
Proof.
  intros [p Hp] Hn Hty. unfold merge_node, Hou.node, Hou.node_at, Hou.type_name.
  unfold_monad. rewrite Hp, Hn, Hn, Hty. by rewrite decide_False by naive_solver.
Qed.

(** In every case the node worked on is a merge node of the scene, and
    preparing it leaves the rest of the scene alone. *)
Lemma merge_node_spec parent name s :
  is_Some (scene s !! parent) →
  is_Some (catalog E !! "merge") →
  ∃ m n0 s0,
    merge_node E parent name s = (Ok m, s0)
    ∧ scene s0 !! m = Some n0
    ∧ ntype n0 = "merge"
    ∧ ((s0 = s ∧ m = Hou.child_path parent name)
       ∨ (scene s !! m = None ∧ n0 = new_node "merge"
          ∧ s0 = set_scene (<[m := n0]> (scene s)) s)).
Proof.
  intros [p Hp] [ps Hps].
  unfold merge_node, Hou.node, Hou.node_at, Hou.type_name, Hou.createNode.
  unfold_monad. rewrite Hp.
  destruct (scene s !! Hou.child_path parent name) as [n|] eqn:Hn.
  - rewrite Hn. case_decide as Hty.
    + rewrite Hp, Hps. eexists _, _, _. split; [done|]. simpl.
      rewrite lookup_insert_eq. split_and!; try done.
      right. split_and!; try done. apply unique_path_fresh.
    + exists (Hou.child_path parent name), n, s. split_and!; try done.
      by left.
  - rewrite Hp, Hps. eexists _, _, _. split; [done|]. simpl.
    rewrite lookup_insert_eq. split_and!; try done.
    right. split_and!; try done. apply unique_path_fresh.
Qed.

(** The wiring step on a node [m] of the scene with inputs [ninputs n0]. *)
Lemma connect_merge_from parent a b name s m n0 s0 :
  merge_node E parent name s = (Ok m, s0) →
  scene s0 !! m = Some n0 →
  let ins := ninputs n0 in
  let ins' :=
    match ins !! 0 with
    | None => <[1 := b]> (<[0 := a]> ins)
    | Some x =>
        if decide (x = a) then <[next_free_input ins := b]> ins
        else <[0 := a]> (<[next_free_input ins := b]> ins)
    end in
  _connect_merge E parent a b name s
  = (Ok m, set_scene (<[m := Hou.set_inputs ins' n0]> (scene s0)) s0).
Proof.
  intros Hm Hn0 ins ins'. subst ins ins'.
  pose proof (next_free_input_spec (ninputs n0)) as (_ & Hge & _).
  unfold _connect_merge, Hou.input, Hou.inputs, Hou.setInput, Hou.update_node.
  unfold_monad. rewrite Hm, Hn0.
  destruct (ninputs n0 !! 0) as [x|] eqn:Hx; simpl.
  - repeat (rewrite ?Hn0, ?lookup_insert_eq; simpl).
    rewrite lookup_insert_ne by lia. rewrite Hx.
    destruct (decide (x = a)) as [->|Hxa].
    + by rewrite decide_False by naive_solver.
    + rewrite decide_True by congruence.
      repeat (rewrite ?lookup_insert_eq; simpl). by rewrite insert_insert_eq.
  - repeat (rewrite ?Hn0, ?lookup_insert_eq; simpl).
    by rewrite insert_insert_eq.
Qed.

(** C2.  On an existing parent and a host that has the merge type,
    [_connect_merge] returns the merge node [m] it worked on (the child of
    that name when it is a merge, a new merge node otherwise) and changes
    only the inputs of [m]: with input 0 unconnected, [a] becomes input 0
    and [b] input 1; otherwise [b] is wired at the first unconnected index
    from 1 on, and input 0 is re-wired to [a] when it was another node. *)
Theorem connect_merge_wiring parent a b name s :
  is_Some (scene s !! parent) →
  is_Some (catalog E !! "merge") →
  ∃ m n0 s0 ins',
    merge_node E parent name s = (Ok m, s0)
    ∧ scene s0 !! m = Some n0
    ∧ ntype n0 = "merge"
    ∧ ((s0 = s ∧ m = Hou.child_path parent name)
       ∨ (scene s !! m = None ∧ n0 = new_node "merge"
          ∧ s0 = set_scene (<[m := n0]> (scene s)) s))
    ∧ _connect_merge E parent a b name s
      = (Ok m, set_scene (<[m := Hou.set_inputs ins' n0]> (scene s0)) s0)
    ∧ match ninputs n0 !! 0 with
      | None => ins' = <[1 := b]> (<[0 := a]> (ninputs n0))
      | Some x =>
          ∃ idx,
            1 ≤ idx
            ∧ ninputs n0 !! idx = None
            ∧ (∀ i, 1 ≤ i < idx → is_Some (ninputs n0 !! i))
            ∧ ins' = if decide (x = a) then <[idx := b]> (ninputs n0)
                     else <[0 := a]> (<[idx := b]> (ninputs n0))
      end.
Proof.
  intros Hp Hcat.
  destruct (merge_node_spec parent name s Hp Hcat)
    as (m & n0 & s0 & Hm & Hn0 & Hty & Hcase).
  pose proof (connect_merge_from parent a b name s m n0 s0 Hm Hn0) as Hrun.
  eexists m, n0, s0, _. split_and!; [done..|exact Hrun|].
  destruct (ninputs n0 !! 0) as [x|] eqn:Hx; [|done].
  exists (next_free_input (ninputs n0)).
  destruct (next_free_input_spec (ninputs n0)) as (Hfree & Hge & Hbound).
  by split_and!.
Qed.

(** C3, as the code has it.  On a merge node [m] that has base [a] at
    input 0 (and [b] at some input), another call with the same base and
    branch keeps every connected input as it was, input 0 included, and
    connects [b] at one more input, the first unconnected index from 1
    on. *)
Theorem connect_merge_again parent a b name s n :
  is_Some (scene s !! parent) →
  scene s !! Hou.child_path parent name = Some n →
  ntype n = "merge" →
  ninputs n !! 0 = Some a →
  (∃ i, ninputs n !! i = Some b) →
  ∃ idx,
    1 ≤ idx
    ∧ ninputs n !! idx = None
    ∧ (∀ i, 1 ≤ i < idx → is_Some (ninputs n !! i))
    ∧ _connect_merge E parent a b name s
      = (Ok (Hou.child_path parent name),
         set_scene
           (<[Hou.child_path parent name
              := Hou.set_inputs (<[idx := b]> (ninputs n)) n]> (scene s)) s)
    ∧ <[idx := b]> (ninputs n) !! 0 = Some a
    ∧ <[idx := b]> (ninputs n) !! idx = Some b
    ∧ (∀ i x, ninputs n !! i = Some x → <[idx := b]> (ninputs n) !! i = Some x)
    ∧ size (<[idx := b]> (ninputs n)) = S (size (ninputs n)).
Proof.
  intros Hp Hn Hty H0 _.
  pose proof (merge_node_found parent name s n Hp Hn Hty) as Hm.
  pose proof (connect_merge_from parent a b name s _ n s Hm Hn) as Hrun.
  simpl in Hrun. rewrite H0, decide_True in Hrun by done.
  destruct (next_free_input_spec (ninputs n)) as (Hfree & Hge & Hbound).
  exists (next_free_input (ninputs n)). split_and!; try done.
  - rewrite lookup_insert_ne by lia. done.
  - by rewrite lookup_insert_eq.
  - intros i x Hi. rewrite lookup_insert_ne; [done|]. intros <-. congruence.
  - by rewrite map_size_insert_None.
Qed.

End connect_merge.

(** ** Running the scripts step by step *)

Section run.
Context (E : Env).
Import SetupHoudiniAi.

Lemma bind_ok {A B} (m : M A) (f : A → M B) s a s' :
  m s = (Ok a, s') → (m ≫= f) s = f a s'.
Proof. intros Hm. unfold_monad. by rewrite Hm. Qed.

Lemma bind_raise {A B} (m : M A) (f : A → M B) s e s' :
  m s = (Raise e, s') → (m ≫= f) s = (Raise e, s').
Proof. intros Hm. unfold_monad. by rewrite Hm. Qed.

Lemma ret_ok {A} (a : A) s : mret (M := M) a s = (Ok a, s).
Proof. done. Qed.

Lemma import_hou_ok s :
  hou_importable E = true → import_hou E s = (Ok (), s).
Proof. intros Hhou. unfold import_hou. by rewrite Hhou. Qed.

Lemma setInput_ok h idx x s n :
  scene s !! h = Some n →
  Hou.setInput h idx x s
  = (Ok (), set_scene
              (<[h := Hou.set_inputs (<[idx := x]> (ninputs n)) n]> (scene s)) s).
Proof. intros Hn. unfold Hou.setInput, Hou.update_node. by rewrite Hn. Qed.

Lemma set_parm_ok h name v s n ps :
  scene s !! h = Some n →
  catalog E !! ntype n = Some ps →
  name ∈ ps →
  set_parm E h name v s
  = (Ok (), set_scene (<[h := Hou.store_parm name v n]> (scene s)) s).
Proof.
  intros Hn Hps Hin. unfold set_parm, Hou.parm, Hou.parm_set, Hou.update_node.
  unfold_monad. rewrite Hn. unfold Hou.has_parm. rewrite Hps.
  rewrite bool_decide_eq_true_2 by done. by rewrite Hn.
Qed.

Lemma set_parm_missing h name v s n :
  scene s !! h = Some n →
  Hou.has_parm E n name = false →
  set_parm E h name v s
  = (Raise (Exn AttributeError "'NoneType' object has no attribute 'set'"), s).
Proof.
  intros Hn Hno. unfold set_parm, Hou.parm, Hou.parm_set.
  unfold_monad. by rewrite Hn, Hno.
Qed.

Lemma set_scene_twice sc1 sc2 s :
  set_scene sc2 (set_scene sc1 s) = set_scene sc2 s.
Proof. done. Qed.

(** On a free name [_connect_merge] makes the merge node and wires [a]
    and [b] as its inputs 0 and 1. *)
Lemma connect_merge_new parent a b name s p ps :
  scene s !! parent = Some p →
  scene s !! Hou.child_path parent name = None →
  catalog E !! "merge" = Some ps →
  _connect_merge E parent a b name s
  = (Ok (Hou.child_path parent name),
     set_scene
       (<[Hou.child_path parent name
          := Hou.set_inputs (<[1 := b]> (<[0 := a]> ∅)) (new_node "merge")]>
          (scene s)) s).
Proof.
  intros Hp Hc Hps.
  assert (merge_node E parent name s
          = (Ok (Hou.child_path parent name),
             set_scene (<[Hou.child_path parent name := new_node "merge"]>
                          (scene s)) s)) as Hm.
  { unfold merge_node, Hou.node, Hou.node_at, Hou.createNode. unfold_monad.
    rewrite Hp, Hc, Hp, Hps. by rewrite unique_path_free. }
  rewrite (connect_merge_from E parent a b name s _ (new_node "merge") _ Hm)
    by (simpl; apply lookup_insert_eq).
  simpl. by rewrite insert_insert_eq.
Qed.

End run.

Lemma child_path_ne parent n1 n2 :
  n1 ≠ n2 → Hou.child_path parent n1 ≠ Hou.child_path parent n2.
Proof. intros Hne Heq. by apply child_path_inj in Heq. Qed.

Lemma scene_set_scene sc s : scene (set_scene sc s) = sc.
Proof. done. Qed.

Ltac tidy := rewrite ?set_scene_twice, ?scene_set_scene.

Ltac solve_ne :=
  first [ assumption
        | apply not_eq_sym; assumption
        | apply child_path_ne; discriminate ].

(** Read a path through the inserts made so far. *)
Ltac look :=
  cbn [scene set_scene];
  repeat (rewrite lookup_insert_ne by solve_ne);
  first [ apply lookup_insert_eq | eassumption ].

(** Run the first call of a sequence with the lemma that describes it. *)
Ltac step lem :=
  erewrite bind_ok; [| eapply lem; try look ]; tidy.

Ltac step_parm Hc Hp :=
  erewrite bind_ok;
  [| eapply set_parm_ok; [look | cbn; exact Hc | apply Hp; set_solver] ]; tidy.

(** ** [_apply_prompt_tweaks] *)

Section tweaks.
Context (E : Env).
Import SetupHoudiniAi.

Lemma tweak_names_nodup : NoDup tweak_names.
Proof. by apply (bool_decide_unpack _). Qed.

Lemma add_rivets_ok geo base s g :
  scene s !! geo = Some g →
  (∀ k, k ∈ rivet_paths geo → scene s !! k = None) →
  provides E "scatter" ["npts"] →
  provides E "circle" ["type"; "radx"; "rady"] →
  provides E "copytopoints" [] →
  provides E "merge" [] →
  ∃ sc',
    add_rivets E geo base s
    = (Ok (Hou.child_path geo "merge_rivets"), set_scene sc' s)
    ∧ rivet_branch sc' geo base (Hou.child_path geo "merge_rivets")
    ∧ (∀ k, k ∉ rivet_paths geo → sc' !! k = scene s !! k).
Proof.
  intros Hg Hfree (ps1 & Hc1 & Hp1) (ps2 & Hc2 & Hp2) (ps3 & Hc3 & _)
    (ps4 & Hc4 & _).
  assert (∀ k, k ∈ rivet_paths geo → k ≠ geo) as Hne.
  { intros k Hin ->. specialize (Hfree geo Hin). congruence. }
  pose proof (Hfree (Hou.child_path geo "rivets_scatter") ltac:(by apply list_elem_of_fmap_2, (bool_decide_unpack _))) as F1.
  pose proof (Hfree (Hou.child_path geo "rivet_circle") ltac:(by apply list_elem_of_fmap_2, (bool_decide_unpack _))) as F2.
  pose proof (Hfree (Hou.child_path geo "rivets_copy") ltac:(by apply list_elem_of_fmap_2, (bool_decide_unpack _))) as F3.
  pose proof (Hfree (Hou.child_path geo "merge_rivets") ltac:(by apply list_elem_of_fmap_2, (bool_decide_unpack _))) as F4.
  pose proof (Hne (Hou.child_path geo "rivets_scatter") ltac:(by apply list_elem_of_fmap_2, (bool_decide_unpack _))) as N1.
  pose proof (Hne (Hou.child_path geo "rivet_circle") ltac:(by apply list_elem_of_fmap_2, (bool_decide_unpack _))) as N2.
  pose proof (Hne (Hou.child_path geo "rivets_copy") ltac:(by apply list_elem_of_fmap_2, (bool_decide_unpack _))) as N3.
  pose proof (Hne (Hou.child_path geo "merge_rivets") ltac:(by apply list_elem_of_fmap_2, (bool_decide_unpack _))) as N4.
  eexists. split.
  - unfold add_rivets.
    step get_or_create_new.
    step setInput_ok.
    step_parm Hc1 Hp1.
    step get_or_create_new.
    step_parm Hc2 Hp2. step_parm Hc2 Hp2. step_parm Hc2 Hp2.
    step get_or_create_new.
    step setInput_ok. step setInput_ok.
    erewrite connect_merge_new; [tidy; reflexivity|look..].
  - split.
    + unfold rivet_branch, has_type, wired.
      split_and!; (eexists; split; [look|done]).
    + intros k Hk.
      repeat rewrite lookup_insert_ne by (intros <-; apply Hk; set_solver).
      done.
Qed.

Lemma add_conduit_ok geo base s g :
  scene s !! geo = Some g →
  (∀ k, k ∈ conduit_paths geo → scene s !! k = None) →
  provides E "curve" ["type"; "coords"] →
  provides E "polywire" ["radius"] →
  provides E "merge" [] →
  ∃ sc',
    add_conduit E geo base s
    = (Ok (Hou.child_path geo "merge_conduit"), set_scene sc' s)
    ∧ conduit_branch sc' geo base (Hou.child_path geo "merge_conduit")
    ∧ (∀ k, k ∉ conduit_paths geo → sc' !! k = scene s !! k).
Proof.
  intros Hg Hfree (ps1 & Hc1 & Hp1) (ps2 & Hc2 & Hp2) (ps3 & Hc3 & _).
  assert (∀ k, k ∈ conduit_paths geo → k ≠ geo) as Hne.
  { intros k Hin ->. specialize (Hfree geo Hin). congruence. }
  pose proof (Hfree (Hou.child_path geo "conduit_curve") ltac:(by apply list_elem_of_fmap_2, (bool_decide_unpack _))) as F1.
  pose proof (Hfree (Hou.child_path geo "conduit_wire") ltac:(by apply list_elem_of_fmap_2, (bool_decide_unpack _))) as F2.
  pose proof (Hfree (Hou.child_path geo "merge_conduit") ltac:(by apply list_elem_of_fmap_2, (bool_decide_unpack _))) as F3.
  pose proof (Hne (Hou.child_path geo "conduit_curve") ltac:(by apply list_elem_of_fmap_2, (bool_decide_unpack _))) as N1.
  pose proof (Hne (Hou.child_path geo "conduit_wire") ltac:(by apply list_elem_of_fmap_2, (bool_decide_unpack _))) as N2.
  pose proof (Hne (Hou.child_path geo "merge_conduit") ltac:(by apply list_elem_of_fmap_2, (bool_decide_unpack _))) as N3.
  eexists. split.
  - unfold add_conduit.
    step get_or_create_new.
    step_parm Hc1 Hp1. step_parm Hc1 Hp1.
    step get_or_create_new.
    step setInput_ok.
    step_parm Hc2 Hp2.
    erewrite connect_merge_new; [tidy; reflexivity|look..].
  - split.
    + unfold conduit_branch, has_type, wired.
      split_and!; (eexists; split; [look|done]).
    + intros k Hk.
      repeat rewrite lookup_insert_ne by (intros <-; apply Hk; set_solver).
      done.
Qed.

Lemma no_rivet_branch sc geo base out :
  sc !! Hou.child_path geo "rivets_scatter" = None →
  ¬ rivet_branch sc geo base out.
Proof. intros Hnone ((n & Hn & _) & _). congruence. Qed.

Lemma no_conduit_branch sc geo base out :
  sc !! Hou.child_path geo "conduit_curve" = None →
  ¬ conduit_branch sc geo base out.
Proof. intros Hnone ((n & Hn & _) & _). congruence. Qed.

Lemma rivet_branch_ext sc sc' geo base :
  (∀ k, k ∈ rivet_paths geo → sc' !! k = sc !! k) →
  rivet_branch sc geo base (Hou.child_path geo "merge_rivets") →
  rivet_branch sc' geo base (Hou.child_path geo "merge_rivets").
Proof.
  intros Hext. unfold rivet_branch, has_type, wired, rivet_paths in *.
  rewrite !Hext by set_solver. done.
Qed.

(** C1.  In a geometry container without tweak nodes, for every prompt:
    the call returns, the scene then holds the rivet branch (scatter,
    circle and copytopoints merged with the base) exactly when the
    lower-cased prompt contains "rivet", and the conduit branch (curve and
    polywire merged with what came before) exactly when it contains "glow"
    or "conduit"; with both, the conduit merge takes the rivet merge as
    its base, and the node returned is the last merge made. *)
Theorem apply_prompt_tweaks_branches geo base prompt s :
  tweak_ready E geo s →
  let text := Py.lower prompt in
  let rivet := Py.contains "rivet" text in
  let conduit := Py.contains "glow" text || Py.contains "conduit" text in
  let merge_rivets := Hou.child_path geo "merge_rivets" in
  let merge_conduit := Hou.child_path geo "merge_conduit" in
  ∃ s',
    _apply_prompt_tweaks E geo base prompt s
    = (Ok (if conduit then merge_conduit
           else if rivet then merge_rivets else base), s')
    ∧ (rivet_branch (scene s') geo base merge_rivets ↔ rivet = true)
    ∧ (conduit_branch (scene s') geo
         (if rivet then merge_rivets else base) merge_conduit
       ↔ conduit = true).
Proof.
  intros (Hhou & [g Hg] & Hfree & Hsc & Hci & Hcp & Hme & Hcu & Hpw).
  intros text rivet conduit merge_rivets merge_conduit.
  assert (∀ k, k ∈ rivet_paths geo → scene s !! k = None) as Hfr.
  { intros k Hk. apply list_elem_of_fmap in Hk as (name & -> & Hin).
    apply Hfree, elem_of_app. by left. }
  assert (∀ k, k ∈ conduit_paths geo → scene s !! k = None) as Hfc.
  { intros k Hk. apply list_elem_of_fmap in Hk as (name & -> & Hin).
    apply Hfree, elem_of_app. by right. }
  assert (∀ k, k ∈ conduit_paths geo → k ∉ rivet_paths geo) as Hdisj.
  { intros k Hk Hk'.
    apply list_elem_of_fmap in Hk as (n1 & -> & Hin1).
    apply list_elem_of_fmap in Hk' as (n2 & Heq & Hin2).
    apply child_path_inj in Heq. subst n2.
    pose proof tweak_names_nodup as Hnd.
    apply NoDup_app in Hnd as (_ & Hnd & _). by apply (Hnd n1). }
  unfold _apply_prompt_tweaks.
  erewrite bind_ok by (by apply import_hou_ok).
  fold text. fold rivet. fold conduit.
  destruct rivet eqn:Hr, conduit eqn:Hc.
  - (* both keyword groups *)
    destruct (add_rivets_ok geo base s g Hg Hfr Hsc Hci Hcp Hme)
      as (sc1 & Hrun1 & Hbr1 & Hframe1).
    destruct (add_conduit_ok geo merge_rivets (set_scene sc1 s) g)
      as (sc2 & Hrun2 & Hbr2 & Hframe2); try done.
    { cbn [scene set_scene]. rewrite Hframe1; [done|].
      intros Hin. specialize (Hfr geo Hin). congruence. }
    { intros k Hk. cbn [scene set_scene]. rewrite Hframe1 by auto. auto. }
    exists (set_scene sc2 s).
    erewrite bind_ok by exact Hrun1. erewrite bind_ok by exact Hrun2.
    split_and!; [done| |done].
    split; [done|]. intros _. cbn [scene set_scene].
    apply (rivet_branch_ext sc1); [|done].
    intros k Hk. apply Hframe2. intros Hk'. by apply (Hdisj k).
  - (* rivets only *)
    destruct (add_rivets_ok geo base s g Hg Hfr Hsc Hci Hcp Hme)
      as (sc1 & Hrun1 & Hbr1 & Hframe1).
    exists (set_scene sc1 s). erewrite bind_ok by exact Hrun1.
    split_and!; [done|done|].
    split; [|done]. intros Hbr. exfalso. revert Hbr.
    apply no_conduit_branch. cbn [scene set_scene].
    rewrite Hframe1.
    + apply Hfc. by apply list_elem_of_fmap_2, (bool_decide_unpack _).
    + apply Hdisj. by apply list_elem_of_fmap_2, (bool_decide_unpack _).
  - (* conduit only *)
    destruct (add_conduit_ok geo base s g Hg Hfc Hcu Hpw Hme)
      as (sc2 & Hrun2 & Hbr2 & Hframe2).
    exists (set_scene sc2 s).
    erewrite bind_ok by reflexivity. erewrite bind_ok by exact Hrun2.
    split_and!; [done| |done].
    split; [|done]. intros Hbr. exfalso. revert Hbr.
    apply no_rivet_branch. cbn [scene set_scene].
    rewrite Hframe2.
    + apply Hfr. by apply list_elem_of_fmap_2, (bool_decide_unpack _).
    + intros Hin. apply (Hdisj _ Hin). by apply list_elem_of_fmap_2, (bool_decide_unpack _).
  - (* neither *)
    exists s. split_and!; [done| |].
    + split; [|done]. intros Hbr. exfalso. revert Hbr.
      apply no_rivet_branch. apply Hfr. by apply list_elem_of_fmap_2, (bool_decide_unpack _).
    + split; [|done]. intros Hbr. exfalso. revert Hbr.
      apply no_conduit_branch. apply Hfc. by apply list_elem_of_fmap_2, (bool_decide_unpack _).
Qed.

End tweaks.

(** ** The file system *)

Section fs.
Context (E : Env).
Import SetupHoudiniAi.

Lemma find_none_forallb {A} (f : A → bool) l :
  forallb (λ x, negb (f x)) l = true → List.find f l = None.
Proof.
  induction l as [|x l IH]; simpl; [done|].
  intros [Hx Hl]%andb_true_iff. apply negb_true_iff in Hx. rewrite Hx. auto.
Qed.

Lemma forallb_weaken {A} (f g : A → bool) l :
  (∀ x, f x = true → g x = true) → forallb f l = true → forallb g l = true.
Proof.
  intros Hfg. induction l as [|x l IH]; simpl; [done|].
  intros [Hx Hl]%andb_true_iff. rewrite Hfg by done. auto.
Qed.

Lemma ancestors_length p d : d ∈ Pathlib.ancestors p → length d ≤ length p.
Proof.
  unfold Pathlib.ancestors. intros (n & -> & Hn)%list_elem_of_fmap.
  rewrite length_take. lia.
Qed.

Lemma ancestors_self p : p ≠ [] → p ∈ Pathlib.ancestors p.
Proof.
  intros Hp. unfold Pathlib.ancestors. apply list_elem_of_fmap.
  exists (length p). split; [by rewrite firstn_all|].
  apply elem_of_seq. destruct p; [done|]. simpl. lia.
Qed.

Lemma parent_length p : p ≠ [] → length (Pathlib.parent p) < length p.
Proof.
  intros Hp. unfold Pathlib.parent.
  destruct (exists_last Hp) as (l & x & ->).
  rewrite removelast_last, length_app. simpl. lia.
Qed.

Lemma can_write_nonempty s p : can_write E s p = true → p ≠ [].
Proof.
  unfold can_write. intros [[_ Hnd]%andb_true_iff _]%andb_true_iff.
  apply negb_true_iff in Hnd.
  intros ->. unfold Pathlib.is_dir in Hnd.
  by rewrite bool_decide_eq_true_2 in Hnd.
Qed.

Lemma mkdir_parent_ok p s :
  can_write E s p = true →
  Pathlib.mkdir_parents E (Pathlib.parent p) s
  = (Ok (),
     set_dirs (dirs s ∪ list_to_set (Pathlib.ancestors (Pathlib.parent p))) s).
Proof.
  unfold can_write. intros [[Hanc _]%andb_true_iff _]%andb_true_iff.
  unfold Pathlib.mkdir_parents.
  rewrite find_none_forallb; cycle 1.
  { revert Hanc. apply forallb_weaken. by intros x [? _]%andb_true_iff. }
  rewrite find_none_forallb; [reflexivity|].
  revert Hanc. apply forallb_weaken. intros x [_ Hx]%andb_true_iff.
  by rewrite negb_andb, negb_involutive.
Qed.

Lemma write_after_mkdir_ok p data s :
  can_write E s p = true →
  Pathlib.write_bytes E p data
    (set_dirs (dirs s ∪ list_to_set (Pathlib.ancestors (Pathlib.parent p))) s)
  = (Ok (),
     set_files (<[p := data]> (files s))
       (set_dirs (dirs s ∪ list_to_set (Pathlib.ancestors (Pathlib.parent p))) s)).
Proof.
  intros Hcan. pose proof (can_write_nonempty s p Hcan) as Hp.
  unfold can_write in Hcan.
  apply andb_true_iff in Hcan as [[_ Hnd]%andb_true_iff Hw].
  apply negb_true_iff in Hnd. apply negb_true_iff, bool_decide_eq_false in Hw.
  unfold Pathlib.write_bytes.
  assert (Pathlib.is_dir
            (set_dirs (dirs s ∪ list_to_set (Pathlib.ancestors (Pathlib.parent p))) s) p
          = false) as ->.
  { unfold Pathlib.is_dir in *. apply orb_false_iff in Hnd as [_ Hd].
    apply bool_decide_eq_false in Hd.
    rewrite bool_decide_eq_false_2 by done. simpl.
    apply bool_decide_eq_false.
    intros [?|Hin%elem_of_list_to_set]%elem_of_union; [done|].
    apply ancestors_length in Hin. pose proof (parent_length p Hp). lia. }
  assert (Pathlib.is_dir
            (set_dirs (dirs s ∪ list_to_set (Pathlib.ancestors (Pathlib.parent p))) s)
            (Pathlib.parent p) = true) as ->.
  { unfold Pathlib.is_dir. simpl.
    destruct (decide (Pathlib.parent p = [])) as [->|Hne]; [done|].
    apply orb_true_iff. right. apply bool_decide_eq_true.
    apply elem_of_union. right. apply elem_of_list_to_set.
    by apply ancestors_self. }
  simpl. by rewrite bool_decide_eq_false_2.
Qed.

End fs.

(** ** What the guarded steps leave behind *)

Section calm.
Context (E : Env).
Import SetupHoudiniAi.

Global Instance calm_preorder made : PreOrder (calm made).
Proof.
  split.
  - intros s. split; [done|]. apply union_subseteq_l.
  - intros s1 s2 s3 [Hs1 Hd1] [Hs2 Hd2]. split; [congruence|].
    etransitivity; [exact Hd2|].
    apply union_least; [exact Hd1|apply union_subseteq_r].
Qed.

Lemma keeps_bind {A B} R `{!PreOrder R} (m : M A) (f : A → M B) :
  keeps R m → (∀ a, keeps R (f a)) → keeps R (m ≫= f).
Proof.
  intros Hm Hf s. unfold mbind, M_bind.
  specialize (Hm s). destruct (m s) as [[a|e] s1]; simpl in *; [|done].
  specialize (Hf a s1). destruct (f a s1) as [r s2]; simpl in *.
  by etransitivity.
Qed.

Lemma keeps_ret {A} R `{!Reflexive R} (a : A) : keeps R (mret a).
Proof. intros s. simpl. reflexivity. Qed.

Lemma keeps_raise {A} R `{!Reflexive R} e : keeps R (raise (A := A) e).
Proof. intros s. simpl. reflexivity. Qed.

Lemma keeps_try {A} R `{!PreOrder R} (body : M A) handler :
  keeps R body → (∀ e, keeps R (handler e)) → keeps R (try_except body handler).
Proof.
  intros Hb Hh s. unfold try_except.
  specialize (Hb s). destruct (body s) as [[a|e] s1]; simpl in *; [done|].
  specialize (Hh e s1). destruct (handler e s1) as [r s2]; simpl in *.
  by etransitivity.
Qed.

Lemma calm_print made line : keeps (calm made) (print line).
Proof. intros s. split; [done|]. apply union_subseteq_l. Qed.

Lemma calm_same made {A} (m : M A) :
  (∀ s, scene (m s).2 = scene s ∧ dirs (m s).2 = dirs s) → keeps (calm made) m.
Proof.
  intros Hm s. destruct (Hm s) as [Hs Hd]. split; [done|].
  rewrite Hd. apply union_subseteq_l.
Qed.

Lemma calm_post made url body t : keeps (calm made) (Requests.post E url body t).
Proof. apply calm_same. intros s. unfold Requests.post. by case_match. Qed.

Lemma calm_raise_for_status made resp :
  keeps (calm made) (Requests.raise_for_status resp).
Proof.
  unfold Requests.raise_for_status.
  case_match; [apply keeps_raise|apply keeps_ret]; apply _.
Qed.

Lemma calm_json_of made resp : keeps (calm made) (Requests.json_of resp).
Proof.
  unfold Requests.json_of. case_match; [apply keeps_ret|apply keeps_raise]; apply _.
Qed.

Lemma calm_get made data key : keeps (calm made) (Json.get data key).
Proof. destruct data; first [apply keeps_ret|apply keeps_raise]; apply _. Qed.

Lemma calm_first made x : keeps (calm made) (Json.first x).
Proof.
  destruct x as [| | | |[|??]|[|??]|];
    first [apply keeps_ret|apply keeps_raise]; apply _.
Qed.

Lemma calm_b64decode made x : keeps (calm made) (Requests.b64decode_json E x).
Proof.
  unfold Requests.b64decode_json.
  repeat case_match; first [apply keeps_ret|apply keeps_raise]; apply _.
Qed.

Lemma calm_mkdir p :
  keeps (calm (list_to_set (Pathlib.ancestors p))) (Pathlib.mkdir_parents E p).
Proof.
  intros s. unfold Pathlib.mkdir_parents.
  repeat case_match; simpl; (split; [done|]);
    first [reflexivity|apply union_subseteq_l].
Qed.

Lemma calm_write made p data : keeps (calm made) (Pathlib.write_bytes E p data).
Proof.
  apply calm_same. intros s. unfold Pathlib.write_bytes. by repeat case_match.
Qed.

Lemma calm_exists made p : keeps (calm made) (Pathlib.path_exists p).
Proof. by apply calm_same. Qed.

Lemma calm_read made p : keeps (calm made) (Pathlib.read_bytes E p).
Proof.
  apply calm_same. intros s. unfold Pathlib.read_bytes. by repeat case_match.
Qed.

Lemma calm_render rop p :
  keeps (calm (list_to_set (Pathlib.ancestors (Pathlib.parent p))))
    (Pathlib.render E rop p).
Proof.
  intros s. unfold Pathlib.render.
  repeat case_match; simpl; (split; [done|]);
    first [reflexivity|apply union_subseteq_l].
Qed.
End calm.

(** ** [_call_stable_diffusion] *)

Section texture.
Context (E : Env).
Import SetupHoudiniAi.

Lemma try_ok {A} (body : M A) handler s a s' :
  body s = (Ok a, s') → try_except body handler s = (Ok a, s').
Proof. intros Hb. unfold try_except. by rewrite Hb. Qed.

Lemma try_raise {A} (body : M A) handler s e s' :
  body s = (Raise e, s') → try_except body handler s = handler e s'.
Proof. intros Hb. unfold try_except. by rewrite Hb. Qed.

(** C5.  Without an API URL ([None] or the empty string) the call prints
    the skip line and returns [False]; no request is sent and the file
    system is left as it was. *)
Theorem call_sd_skips_without_url init_image prompt output_image api_url s :
  api_url = None ∨ api_url = Some "" →
  ∃ s',
    _call_stable_diffusion E init_image prompt output_image api_url s
    = (Ok false, s')
    ∧ stdout s'
      = stdout s ++ ["[Interstellar] No Stable Diffusion API URL provided; skipping."]
    ∧ sent s' = sent s
    ∧ files s' = files s
    ∧ dirs s' = dirs s
    ∧ scene s' = scene s.
Proof.
  intros [-> | ->]; eexists; (split; [reflexivity|done]).
Qed.

Lemma quiet_bind {A B} (m : M A) (f : A → M B) :
  quiet m → (∀ a, quiet (f a)) → quiet (m ≫= f).
Proof.
  intros Hm Hf s. unfold mbind, M_bind.
  specialize (Hm s). destruct (m s) as [[a|e] s1]; simpl in *; [|done].
  specialize (Hf a s1). destruct (f a s1) as [r s2]; simpl in *.
  destruct Hm as [Hm1 Hm2], Hf as [Hf1 Hf2]. rewrite app_nil_r in *.
  split; congruence.
Qed.

Lemma quiet_ret {A} (a : A) : quiet (mret a).
Proof. intros s. simpl. by rewrite app_nil_r. Qed.

Lemma quiet_raise {A} e : quiet (raise (A := A) e).
Proof. intros s. simpl. by rewrite app_nil_r. Qed.

Lemma quiet_print line : quiet (print line).
Proof. intros s. simpl. by rewrite app_nil_r. Qed.

Lemma quiet_raise_for_status resp : quiet (Requests.raise_for_status resp).
Proof.
  unfold Requests.raise_for_status.
  case_match; [apply quiet_raise|apply quiet_ret].
Qed.

Lemma quiet_json_of resp : quiet (Requests.json_of resp).
Proof.
  unfold Requests.json_of. case_match; [apply quiet_ret|apply quiet_raise].
Qed.

Lemma quiet_get data key : quiet (Json.get data key).
Proof. destruct data; first [apply quiet_ret|apply quiet_raise]. Qed.

Lemma quiet_first x : quiet (Json.first x).
Proof.
  destruct x as [| | | |[|??]|[|??]|]; first [apply quiet_ret|apply quiet_raise].
Qed.

Lemma quiet_b64decode x : quiet (Requests.b64decode_json E x).
Proof.
  unfold Requests.b64decode_json.
  repeat case_match; first [apply quiet_ret|apply quiet_raise].
Qed.

Lemma quiet_mkdir p : quiet (Pathlib.mkdir_parents E p).
Proof.
  intros s. unfold Pathlib.mkdir_parents.
  repeat case_match; simpl; by rewrite app_nil_r.
Qed.

Lemma quiet_write p data : quiet (Pathlib.write_bytes E p data).
Proof.
  intros s. unfold Pathlib.write_bytes.
  repeat case_match; simpl; by rewrite app_nil_r.
Qed.

Lemma quiet_exists p : quiet (Pathlib.path_exists p).
Proof. intros s. simpl. by rewrite app_nil_r. Qed.

(** A request is sent, and [k] goes on quietly with the response. *)
Lemma sends_post {A} url body timeout (k : nat * option json → M A) :
  (∀ resp, quiet (k resp)) →
  sends (Requests.post E url body timeout ≫= k) [(url, body, timeout)].
Proof.
  intros Hk s. unfold mbind, M_bind, Requests.post.
  destruct (http_post E url body timeout) as [e|status content]; [done|].
  specialize (Hk (status, content) (add_sent (url, body, timeout) s)).
  destruct (k _ _) as [r s2]; simpl in *.
  destruct Hk as [Hk1 Hk2]. rewrite app_nil_r in Hk2. by rewrite Hk1, Hk2.
Qed.

(** A handler that prints and answers turns every outcome of the body
    into a normal return. *)
Lemma try_except_print {A} (body : M A) (line : exn → string) (a0 : A) reqs s :
  sends body reqs →
  ∃ a s',
    try_except body (λ exc, print (line exc) ≫= λ _, mret a0) s = (Ok a, s')
    ∧ sent s' = sent s ++ reqs
    ∧ scene s' = scene s.
Proof.
  intros Hb. specialize (Hb s). unfold try_except.
  destruct (body s) as [[a|e] s1]; simpl in *; destruct Hb as [Hsc Hse].
  - by eexists _, _.
  - eexists _, _. split; [reflexivity|]. by simpl.
Qed.

(** The round trip never raises: it sends one request and answers
    [True] or [False]; the scene is not touched. *)
Lemma sd_round_trip_spec url endpoint payload out s :
  ∃ b s',
    sd_round_trip E url endpoint payload out s = (Ok b, s')
    ∧ sent s' = sent s ++ [(Py.rstrip_slash url +:+ endpoint, JObj payload, 120)]
    ∧ scene s' = scene s.
Proof.
  unfold sd_round_trip. apply try_except_print, sends_post. intros resp.
  apply quiet_bind; [apply quiet_raise_for_status|intros _].
  apply quiet_bind; [apply quiet_json_of|intros data].
  apply quiet_bind; [apply quiet_get|intros images]. simpl.
  case_match.
  - apply quiet_bind; [apply quiet_print|intros _]. apply quiet_ret.
  - apply quiet_bind; [apply quiet_first|intros img].
    apply quiet_bind; [apply quiet_b64decode|intros png].
    apply quiet_bind; [apply quiet_mkdir|intros _].
    apply quiet_bind; [apply quiet_write|intros _]. apply quiet_ret.
Qed.

Lemma sd_request_plain init_image prompt s :
  snapshot_on_disk s init_image = false →
  sd_request E init_image prompt s
  = (Ok ("/sdapi/v1/txt2img", base_payload prompt), s).
Proof.
  intros Hno. unfold sd_request, Pathlib.path_exists. unfold_monad.
  destruct init_image as [p|]; [|done]. simpl in Hno. by rewrite Hno.
Qed.

Lemma sd_request_attached p data prompt s :
  files s !! p = Some data →
  p ∉ unreadable E →
  sd_request E (Some p) prompt s
  = (Ok ("/sdapi/v1/img2img",
         base_payload prompt
         ++ [("init_images", JList [JStr (b64encode E data)]);
             ("denoising_strength", JFloat 0.6)]), s).
Proof.
  intros Hf Hr. unfold sd_request, Pathlib.path_exists, Pathlib.read_bytes.
  unfold_monad. unfold Pathlib.is_file. rewrite Hf.
  rewrite ?(bool_decide_eq_true_2 (is_Some (Some data))) by eauto.
  rewrite orb_true_r, Hf. by rewrite bool_decide_eq_false_2.
Qed.

(** A snapshot that is on disk and cannot be read: the error leaves
    [sd_request], which no [try] block surrounds. *)
Lemma sd_request_unreadable p prompt s :
  snapshot_on_disk s (Some p) = true →
  snapshot_readable E s (Some p) = false →
  ∃ e, sd_request E (Some p) prompt s = (Raise e, s) ∧ ekind e = OSError.
Proof.
  unfold snapshot_on_disk, snapshot_readable. intros Hon Hno.
  rewrite Hon in Hno. simpl in Hno.
  unfold sd_request, Pathlib.path_exists, Pathlib.read_bytes, Pathlib.os_error.
  unfold_monad. rewrite Hon.
  unfold Pathlib.is_file in *.
  destruct (files s !! p) as [data|] eqn:Hf.
  - rewrite bool_decide_eq_true_2 in Hno by eauto. simpl in Hno.
    apply negb_false_iff in Hno. rewrite Hno. eauto.
  - rewrite bool_decide_eq_false_2 in Hon by (by intros [? ?]).
    rewrite orb_false_r in Hon. rewrite Hon. eauto.
Qed.

Lemma readable_on_disk s p :
  snapshot_on_disk s (Some p) = true →
  snapshot_readable E s (Some p) = true →
  ∃ data, files s !! p = Some data ∧ p ∉ unreadable E.
Proof.
  unfold snapshot_on_disk, snapshot_readable. intros Hon Hre.
  rewrite Hon in Hre. simpl in Hre.
  apply andb_true_iff in Hre as [Hfile Hnot].
  apply bool_decide_eq_true in Hfile as [data Hdata].
  apply negb_true_iff, bool_decide_eq_false in Hnot. eauto.
Qed.

Lemma truthy_url url : url ≠ "" → Py.truthy (Some url) = true.
Proof. by destruct url. Qed.

(** With a URL, a client and a request, the call is the round trip. *)
Lemma call_sd_with_request init_image prompt out url s endpoint payload :
  url ≠ "" →
  requests_importable E = true →
  sd_request E init_image prompt s = (Ok (endpoint, payload), s) →
  _call_stable_diffusion E init_image prompt out (Some url) s
  = sd_round_trip E url endpoint payload out s.
Proof.
  intros Hurl Hreq Hrq. unfold _call_stable_diffusion.
  rewrite truthy_url, Hreq by done. simpl.
  by erewrite bind_ok by exact Hrq.
Qed.

(** C8.  With a configured URL the call sends at most one request, and
    none only when [requests] is missing or the snapshot on disk cannot be
    read.  The request goes to the URL without trailing slashes plus the
    endpoint; its body has the prompt, steps 20, cfg_scale 7.0, sampler
    "Euler a", width and height 1024.  When an init image is given and
    exists on disk the endpoint is img2img and the body also has
    denoising_strength 0.6 and the base64 text of the file as the only
    init image; otherwise the endpoint is txt2img and the body has neither
    field. *)
Theorem call_sd_request init_image prompt output_image url s :
  url ≠ "" →
  ∃ r s' new,
    _call_stable_diffusion E init_image prompt output_image (Some url) s
    = (r, s')
    ∧ sent s' = sent s ++ new
    ∧ (new = [] ↔ requests_importable E = false
                   ∨ snapshot_readable E s init_image = false)
    ∧ ∀ req, req ∈ new →
        new = [req]
        ∧ ∃ endpoint body,
            req = (Py.rstrip_slash url +:+ endpoint, JObj body, 120)
            ∧ Json.lookup_key "prompt" body = Some (JStr prompt)
            ∧ Json.lookup_key "steps" body = Some (JInt 20)
            ∧ Json.lookup_key "cfg_scale" body = Some (JFloat 7.0)
            ∧ Json.lookup_key "sampler_name" body = Some (JStr "Euler a")
            ∧ Json.lookup_key "width" body = Some (JInt 1024)
            ∧ Json.lookup_key "height" body = Some (JInt 1024)
            ∧ if snapshot_on_disk s init_image then
                endpoint = "/sdapi/v1/img2img"
                ∧ Json.lookup_key "denoising_strength" body
                  = Some (JFloat 0.6)
                ∧ ∃ p data,
                    init_image = Some p
                    ∧ files s !! p = Some data
                    ∧ Json.lookup_key "init_images" body
                      = Some (JList [JStr (b64encode E data)])
              else
                endpoint = "/sdapi/v1/txt2img"
                ∧ Json.lookup_key "denoising_strength" body = None
                ∧ Json.lookup_key "init_images" body = None.
Proof.
  intros Hurl.
  destruct (requests_importable E) eqn:Hreq.
  - destruct (snapshot_on_disk s init_image) eqn:Hon.
    + destruct init_image as [p|]; [|done].
      destruct (snapshot_readable E s (Some p)) eqn:Hre.
      * destruct (readable_on_disk s p Hon Hre) as (data & Hdata & Hnot).
        pose proof (sd_request_attached p data prompt s Hdata Hnot) as Hrq.
        rewrite (call_sd_with_request _ _ _ _ _ _ _ Hurl Hreq Hrq).
        destruct (sd_round_trip_spec url "/sdapi/v1/img2img"
                    (base_payload prompt
                     ++ [("init_images", JList [JStr (b64encode E data)]);
                         ("denoising_strength", JFloat 0.6)])
                    output_image s) as (b & s' & Hrun & Hsent & _).
        eexists _, _, _. split_and!; [exact Hrun|exact Hsent| |].
        -- split; [done|]. by intros [?|?].
        -- intros req ->%list_elem_of_singleton. split; [done|].
           eexists _, _. split_and!; try done. eauto.
      * destruct (sd_request_unreadable p prompt s Hon Hre) as (e & Hrq & _).
        exists (Raise e), s, []. split_and!.
        -- unfold _call_stable_diffusion. rewrite truthy_url, Hreq by done.
           simpl. by erewrite bind_raise by exact Hrq.
        -- by rewrite app_nil_r.
        -- split; [by right|done].
        -- by intros req ?%elem_of_nil.
    + pose proof (sd_request_plain init_image prompt s Hon) as Hrq.
      rewrite (call_sd_with_request _ _ _ _ _ _ _ Hurl Hreq Hrq).
      destruct (sd_round_trip_spec url "/sdapi/v1/txt2img"
                  (base_payload prompt) output_image s)
        as (b & s' & Hrun & Hsent & _).
      eexists _, _, _. split_and!; [exact Hrun|exact Hsent| |].
      * split; [done|]. intros [?|Hre]; [done|].
        destruct init_image as [p|]; [|done].
        unfold snapshot_on_disk, snapshot_readable in *.
        by rewrite Hon in Hre.
      * intros req ->%list_elem_of_singleton. split; [done|].
        eexists _, _. by split_and!.
  - eexists _, _, []. split_and!.
    + unfold _call_stable_diffusion. rewrite truthy_url, Hreq by done.
      reflexivity.
    + by rewrite app_nil_r.
    + split; [by left|done].
    + by intros req ?%elem_of_nil.
Qed.

Lemma status_ok_passes status content s :
  status_ok status = true →
  Requests.raise_for_status (status, content) s = (Ok (), s).
Proof.
  unfold status_ok, Requests.raise_for_status. intros Hok%negb_true_iff.
  cbn [fst snd]. by rewrite Hok.
Qed.

(** C6.  With a URL, a client and a request built, a response with status
    below 400 whose [images] list starts with text that decodes, and an
    output path that can be written: the call decodes that first image,
    makes the parent directory, writes the bytes at the output path and
    nowhere else, and returns [True]. *)
Theorem call_sd_writes_first_image init_image prompt out url s
    endpoint payload img png :
  url ≠ "" →
  requests_importable E = true →
  sd_request E init_image prompt s = (Ok (endpoint, payload), s) →
  images_present
    (http_post E (Py.rstrip_slash url +:+ endpoint) (JObj payload) 120) img →
  b64decode E img = Some png →
  can_write E s out = true →
  ∃ s',
    _call_stable_diffusion E init_image prompt out (Some url) s = (Ok true, s')
    ∧ files s' = <[out := png]> (files s)
    ∧ Pathlib.is_dir s' (Pathlib.parent out) = true
    ∧ dirs s' = dirs s ∪ list_to_set (Pathlib.ancestors (Pathlib.parent out))
    ∧ sent s'
      = sent s ++ [(Py.rstrip_slash url +:+ endpoint, JObj payload, 120)]
    ∧ stdout s' = stdout s
    ∧ scene s' = scene s.
Proof.
  intros Hurl Hreq Hrq (status & kvs & rest & Hhttp & Hst & Himg) Hdec Hcan.
  rewrite (call_sd_with_request _ _ _ _ _ _ _ Hurl Hreq Hrq).
  set (req := (Py.rstrip_slash url +:+ endpoint, JObj payload, 120)).
  exists (set_files (<[out := png]> (files s))
            (set_dirs (dirs s ∪ list_to_set (Pathlib.ancestors (Pathlib.parent out)))
               (add_sent req s))).
  split.
  - unfold sd_round_trip. apply try_ok.
    erewrite bind_ok by (unfold Requests.post; by rewrite Hhttp).
    erewrite bind_ok by (by apply status_ok_passes).
    erewrite bind_ok by reflexivity.
    erewrite bind_ok by (simpl; rewrite Himg; reflexivity).
    simpl.
    erewrite bind_ok by reflexivity.
    erewrite bind_ok by (simpl; rewrite Hdec; reflexivity).
    erewrite bind_ok by (by apply mkdir_parent_ok).
    erewrite bind_ok by (by apply (write_after_mkdir_ok E out png (add_sent req s))).
    reflexivity.
  - split_and!; try done. simpl. unfold Pathlib.is_dir. simpl.
    destruct (decide (Pathlib.parent out = [])) as [->|Hne]; [done|].
    apply orb_true_iff. right. apply bool_decide_eq_true.
    apply elem_of_union. right. apply elem_of_list_to_set.
    by apply ancestors_self.
Qed.

(** C7.  With a URL, a client and a request built, a well-formed response
    whose [images] list is empty or missing ends the call exactly as a
    network failure does: [False] is returned and the state differs from
    the one before only by the request sent and one printed line; no file
    or directory is made.  [call_sd_txt2img] of the other script does the
    same. *)
Theorem call_sd_no_images init_image prompt out url s endpoint payload :
  url ≠ "" →
  requests_importable E = true →
  (sd_request E init_image prompt s = (Ok (endpoint, payload), s) →
   let req := (Py.rstrip_slash url +:+ endpoint, JObj payload, 120) in
   images_absent (http_post E req.1.1 req.1.2 req.2)
   ∨ network_failure (http_post E req.1.1 req.1.2 req.2) →
   ∃ line,
     _call_stable_diffusion E init_image prompt out (Some url) s
     = (Ok false, add_stdout line (add_sent req s)))
  ∧ (∀ body,
       body = JObj (base_payload prompt) →
       let req := (Py.rstrip_slash url +:+ "/sdapi/v1/txt2img", body, 180) in
       images_absent (http_post E req.1.1 req.1.2 req.2)
       ∨ network_failure (http_post E req.1.1 req.1.2 req.2) →
       ∃ line,
         GenerateInterstellarShip.call_sd_txt2img E prompt out url s
         = (Ok false, add_stdout line (add_sent req s))).
Proof.
  intros Hurl Hreq. split.
  - intros Hrq req Hcase.
    rewrite (call_sd_with_request _ _ _ _ _ _ _ Hurl Hreq Hrq).
    unfold sd_round_trip. simpl in Hcase.
    destruct Hcase as [(status & kvs & Hhttp & Hst & Himg) | (e & Hhttp)].
    + eexists. apply try_ok.
      erewrite bind_ok by (unfold Requests.post; by rewrite Hhttp).
      erewrite bind_ok by (by apply status_ok_passes).
      erewrite bind_ok by reflexivity.
      erewrite bind_ok by reflexivity.
      simpl. by destruct Himg as [-> | ->].
    + eexists. erewrite try_raise; [reflexivity|].
      apply bind_raise. unfold Requests.post. by rewrite Hhttp.
  - intros body -> req Hcase.
    unfold GenerateInterstellarShip.call_sd_txt2img,
      GenerateInterstellarShip._safe_requests.
    erewrite bind_ok by reflexivity. rewrite Hreq. simpl in Hcase.
    change (negb true) with false. cbv iota. unfold base_payload in *.
    destruct Hcase as [(status & kvs & Hhttp & Hst & Himg) | (e & Hhttp)].
    + eexists. apply try_ok.
      erewrite bind_ok by (unfold Requests.post; by rewrite Hhttp).
      erewrite bind_ok by (by apply status_ok_passes).
      erewrite bind_ok by reflexivity.
      erewrite bind_ok by reflexivity.
      simpl. by destruct Himg as [-> | ->].
    + eexists. erewrite try_raise; [reflexivity|].
      apply bind_raise. unfold Requests.post. by rewrite Hhttp.
Qed.

End texture.

(** ** The whole run *)

Section guarded.
Context (E : Env).
Import SetupHoudiniAi.

(** A [try] block whose handler returns normally always returns normally. *)
Lemma try_returns {A} R `{!PreOrder R} (body : M A) handler s :
  keeps R body →
  (∀ e s1, ∃ a s2, handler e s1 = (Ok a, s2) ∧ R s1 s2) →
  ∃ a s', try_except body handler s = (Ok a, s') ∧ R s s'.
Proof.
  intros Hb Hh. specialize (Hb s). unfold try_except.
  destruct (body s) as [[a|e] s1]; simpl in *.
  - by exists a, s1.
  - destruct (Hh e s1) as (a & s2 & -> & HR). exists a, s2.
    split; [done|]. by etransitivity.
Qed.

Lemma print_then_returns {A} made line (a : A) s1 :
  ∃ a' s2, (print line ≫= λ _, mret a) s1 = (Ok a', s2) ∧ calm made s1 s2.
Proof.
  eexists _, _. split; [reflexivity|]. split; [done|]. apply union_subseteq_l.
Qed.

Lemma check_versions_returns made s :
  hou_importable E = true →
  ∃ s', _check_versions E s = (Ok (), s') ∧ calm made s s'.
Proof.
  intros Hhou. unfold _check_versions.
  erewrite bind_ok by (by apply import_hou_ok).
  set (warn := if negb (bool_decide (python_version E = (3, 9))) then _ else _).
  assert (∃ s1, warn s = (Ok (), s1) ∧ calm made s s1) as (s1 & Hwarn & Hs1).
  { subst warn. case_match.
    - eexists. split; [reflexivity|]. split; [done|]. apply union_subseteq_l.
    - exists s. split; [done|]. reflexivity. }
  erewrite bind_ok by exact Hwarn.
  match goal with |- ∃ s', try_except ?body ?h s1 = _ ∧ _ =>
    destruct (try_returns (calm made) body h s1) as ([] & s2 & Hrun & Hs2)
  end.
  - apply keeps_bind; [apply _| |].
    + case_match; first [apply keeps_ret|apply keeps_raise]; apply _.
    + intros major. case_match; [apply calm_print|apply keeps_ret; apply _].
  - intros e s'. exists (), s'. split; [done|]. reflexivity.
  - exists s2. split; [done|]. by etransitivity.
Qed.

Lemma path_ok h s : is_Some (scene s !! h) → Hou.path h s = (Ok h, s).
Proof. intros [n Hn]. unfold Hou.path. by rewrite Hn. Qed.

Lemma node_at_ok p s n :
  scene s !! p = Some n → Hou.node_at p s = (Ok (Some p), s).
Proof. intros Hn. unfold Hou.node_at. by rewrite Hn. Qed.

End guarded.

Lemma store_parm_type name v n : ntype (Hou.store_parm name v n) = ntype n.
Proof. done. Qed.

(** Run a [set_parm] on the node last written, of a type that has [Hps]. *)
Ltac parm_step Hps :=
  erewrite bind_ok;
  [| eapply set_parm_ok;
     [cbn [scene set_scene]; first [eassumption|apply lookup_insert_eq]
     |rewrite ?store_parm_type; eassumption
     |apply Hps; by apply (bool_decide_unpack _)] ];
  rewrite ?set_scene_twice.

Section guarded_steps.
Context (E : Env).
Import SetupHoudiniAi.

(** The snapshot: when /out and the OpenGL node type are there, the render
    node is found or made and set up, and whatever [render] does the call
    returns; the scene changes at the render node only. *)
Lemma render_snapshot_returns out cam geo s o :
  hou_importable E = true →
  scene s !! "/out" = Some o →
  provides E "opengl" ["camera"; "vm_picture"; "trange"; "res1"; "res2"] →
  (scene s !! Examples.snapshot_rop = None
   ∨ ∃ n, scene s !! Examples.snapshot_rop = Some n ∧ ntype n = "opengl") →
  ∃ b s' rop,
    _render_viewport_snapshot E out cam geo s = (Ok b, s')
    ∧ scene s' = <[Examples.snapshot_rop := rop]> (scene s)
    ∧ ntype rop = "opengl"
    ∧ dirs s' ⊆ dirs s ∪ list_to_set (Pathlib.ancestors (Pathlib.parent out)).
Proof.
  intros Hhou Hout (ps & Hcat & Hps) Hrop.
  unfold _render_viewport_snapshot.
  erewrite bind_ok by (by apply import_hou_ok).
  erewrite bind_ok by (by eapply node_at_ok). cbv beta iota.
  erewrite bind_ok by reflexivity.
  rewrite Hcat. rewrite bool_decide_eq_true_2 by eauto.
  erewrite bind_ok by reflexivity. cbv beta iota.
  change (Hou.child_path "/out" "interstellar_snapshot")
    with Examples.snapshot_rop in *.
  assert (∃ n0 s0,
            _get_or_create E "/out" "opengl" "interstellar_snapshot" s
            = (Ok Examples.snapshot_rop, s0)
            ∧ scene s0 = <[Examples.snapshot_rop := n0]> (scene s)
            ∧ ntype n0 = "opengl" ∧ dirs s0 = dirs s)
    as (n0 & s0 & Hget & Hs0 & Hty & Hd0).
  { destruct Hrop as [Hnone | (n & Hn & Hty)].
    - eexists _, _. split; [by eapply get_or_create_new|]. done.
    - exists n, s. split; [apply get_or_create_found; eauto|].
      by rewrite insert_id. }
  erewrite bind_ok by exact Hget.
  assert (scene s0 !! Examples.snapshot_rop = Some n0) as Hn0
    by (rewrite Hs0; apply lookup_insert_eq).
  assert (catalog E !! ntype n0 = Some ps) as Hc0 by (by rewrite Hty).
  do 5 parm_step Hps.
  match goal with |- ∃ b s' rop, try_except ?body ?h ?s1 = _ ∧ _ =>
    destruct (try_returns
                (calm (list_to_set (Pathlib.ancestors (Pathlib.parent out))))
                body h s1) as (b & s2 & Hrun & Hs2 & Hd2)
  end.
  - apply keeps_bind; [apply _|apply calm_render|intros _; apply calm_exists].
  - intros e s1. apply print_then_returns.
  - eexists b, s2, _. split; [exact Hrun|]. split_and!.
    + rewrite Hs2. cbn [scene set_scene]. rewrite Hs0.
      rewrite !insert_insert_eq. reflexivity.
    + by rewrite !store_parm_type.
    + etransitivity; [exact Hd2|]. cbn [dirs set_scene]. by rewrite Hd0.
Qed.

(** A snapshot that is not a directory and not denied can be read when it
    is on disk. *)
Lemma readable_snapshot s p :
  p ≠ [] → p ∉ dirs s → p ∉ unreadable E →
  snapshot_readable E s (Some p) = true.
Proof.
  intros Hp Hd Hu. unfold snapshot_readable, Pathlib.is_dir.
  rewrite !bool_decide_eq_false_2 by done. simpl.
  by destruct (Pathlib.is_file s p).
Qed.

(** With a readable snapshot, or none, [_call_stable_diffusion] returns. *)
Lemma call_sd_returns init prompt out url s :
  snapshot_readable E s init = true →
  ∃ b s',
    _call_stable_diffusion E init prompt out url s = (Ok b, s')
    ∧ calm (list_to_set (Pathlib.ancestors (Pathlib.parent out))) s s'.
Proof.
  intros Hre. unfold _call_stable_diffusion.
  destruct (Py.truthy url); simpl; [|apply print_then_returns].
  destruct (requests_importable E); simpl; [|apply print_then_returns].
  assert (∃ endpoint payload,
            sd_request E init prompt s = (Ok (endpoint, payload), s))
    as (endpoint & payload & Hrq).
  { destruct (snapshot_on_disk s init) eqn:Hon.
    - destruct init as [p|]; [|done].
      destruct (readable_on_disk E s p Hon Hre) as (data & Hdata & Hnot).
      eexists _, _. by apply sd_request_attached.
    - eexists _, _. by apply sd_request_plain. }
  erewrite bind_ok by exact Hrq. cbn [fst snd].
  unfold sd_round_trip. apply try_returns; [apply _| |].
  - apply keeps_bind; [apply _|apply calm_post|intros resp].
    apply keeps_bind; [apply _|apply calm_raise_for_status|intros _].
    apply keeps_bind; [apply _|apply calm_json_of|intros data].
    apply keeps_bind; [apply _|apply calm_get|intros images]. cbv zeta.
    case_match.
    + apply keeps_bind; [apply _|apply calm_print|intros _].
      apply keeps_ret, _.
    + apply keeps_bind; [apply _|apply calm_first|intros img].
      apply keeps_bind; [apply _|apply calm_b64decode|intros png].
      apply keeps_bind; [apply _|apply calm_mkdir|intros _].
      apply keeps_bind; [apply _|apply calm_write|intros _].
      apply keeps_ret, _.
  - intros e s1. apply print_then_returns.
Qed.

(** [set_parm_if_present] never raises on a node of the scene, and touches
    that node only. *)
Lemma set_parm_if_present_returns h name v s n :
  scene s !! h = Some n →
  ∃ s' n',
    set_parm_if_present E h name v s = (Ok (), s')
    ∧ scene s' !! h = Some n'
    ∧ (∀ k, k ≠ h → scene s' !! k = scene s !! k)
    ∧ dirs s' = dirs s.
Proof.
  intros Hn. unfold set_parm_if_present, set_parm, Hou.parm, Hou.parm_set,
    Hou.update_node.
  unfold_monad. rewrite Hn.
  destruct (Hou.has_parm E n name) eqn:Hhas; [|by exists s, n].
  rewrite Hn, Hhas, Hn.
  eexists _, _. split; [reflexivity|]. cbn [scene set_scene dirs].
  split_and!; [apply lookup_insert_eq| |done].
  intros k Hk. by rewrite lookup_insert_ne.
Qed.

End guarded_steps.

Section material.
Context (E : Env).
Import SetupHoudiniAi.

Lemma for_each_parms_returns h names (v : string → pval) s n :
  scene s !! h = Some n →
  ∃ s' n',
    for_each names (λ parm_name, set_parm_if_present E h parm_name (v parm_name)) s
    = (Ok (), s')
    ∧ scene s' !! h = Some n'
    ∧ (∀ k, k ≠ h → scene s' !! k = scene s !! k)
    ∧ dirs s' = dirs s.
Proof.
  revert s n. induction names as [|name names IH]; intros s n Hn.
  - by exists s, n.
  - destruct (set_parm_if_present_returns E h name (v name) s n Hn)
      as (s1 & n1 & Hrun1 & Hn1 & Hframe1 & Hd1).
    destruct (IH s1 n1 Hn1) as (s2 & n2 & Hrun2 & Hn2 & Hframe2 & Hd2).
    exists s2, n2. cbn [for_each]. erewrite bind_ok by exact Hrun1.
    split_and!; [done|done| |congruence].
    intros k Hk. by rewrite Hframe2, Hframe1.
Qed.

(** The shader: made under /mat, textured when a texture is on disk, and
    never a reason to stop. *)
Lemma material_returns tex s m :
  hou_importable E = true →
  scene s !! "/mat" = Some m →
  scene s !! "/mat/ship_mat" = None →
  is_Some (catalog E !! "principledshader::2.0") →
  ∃ s',
    _create_or_update_material E tex s = (Ok "/mat/ship_mat", s')
    ∧ is_Some (scene s' !! "/mat/ship_mat")
    ∧ (∀ k, k ≠ "/mat/ship_mat" → scene s' !! k = scene s !! k)
    ∧ dirs s' = dirs s.
Proof.
  intros Hhou Hmat Hfree [ps Hps].
  unfold _create_or_update_material.
  erewrite bind_ok by (by apply import_hou_ok).
  erewrite bind_ok by (by eapply node_at_ok). cbv beta iota.
  erewrite bind_ok by reflexivity.
  erewrite bind_ok by reflexivity.
  rewrite Hps, bool_decide_eq_true_2 by eauto. cbv beta iota zeta.
  erewrite bind_ok by (by eapply get_or_create_new).
  change (Hou.child_path "/mat" "ship_mat") with "/mat/ship_mat".
  set (s1 := set_scene _ s).
  assert (scene s1 !! "/mat/ship_mat" = Some (new_node "principledshader::2.0"))
    as Hn1 by apply lookup_insert_eq.
  assert (∀ k, k ≠ "/mat/ship_mat" → scene s1 !! k = scene s !! k) as Hframe1.
  { intros k Hk. subst s1. cbn [scene set_scene]. by rewrite lookup_insert_ne. }
  assert (∀ blk : M (),
            (∃ s2, blk s1 = (Ok (), s2)
                   ∧ is_Some (scene s2 !! "/mat/ship_mat")
                   ∧ (∀ k, k ≠ "/mat/ship_mat" → scene s2 !! k = scene s1 !! k)
                   ∧ dirs s2 = dirs s1) →
            ∃ s', (blk ≫= λ _, mret "/mat/ship_mat") s1 = (Ok "/mat/ship_mat", s')
                  ∧ is_Some (scene s' !! "/mat/ship_mat")
                  ∧ (∀ k, k ≠ "/mat/ship_mat" → scene s' !! k = scene s !! k)
                  ∧ dirs s' = dirs s) as Hfinish.
  { intros blk (s2 & Hblk & Hn2 & Hframe2 & Hd2). exists s2.
    erewrite bind_ok by exact Hblk. split_and!; [done|done| |done].
    intros k Hk. by rewrite Hframe2, Hframe1. }
  apply Hfinish. destruct tex as [texture_path|]; [|exists s1; eauto].
  erewrite bind_ok by reflexivity.
  destruct (_ || _); [|exists s1; eauto].
  destruct (for_each_parms_returns "/mat/ship_mat"
              ["basecolor_useTexture"; "basecolortex_useTexture"]
              (λ _, VInt 1) s1 _ Hn1)
    as (s2 & n2 & Hrun2 & Hn2 & Hframe2 & Hd2).
  destruct (for_each_parms_returns "/mat/ship_mat"
              ["basecolor_texture"; "basecolortex_texture"]
              (λ _, VStr (Pathlib.str texture_path)) s2 _ Hn2)
    as (s3 & n3 & Hrun3 & Hn3 & Hframe3 & Hd3).
  exists s3. erewrite bind_ok by exact Hrun2.
  split_and!; [exact Hrun3|eauto| |congruence].
  intros k Hk. by rewrite Hframe3, Hframe2.
Qed.

(** The material SOP gets its three parameters. *)
Lemma assign_returns material_node_path ms s n :
  scene s !! ms = Some n →
  ntype n = "material" →
  provides E "material" ["num_materials"; "group1"; "shop_materialpath1"] →
  ∃ s',
    _assign_material_to_geo E material_node_path (Some ms) s = (Ok (), s')
    ∧ dirs s' = dirs s.
Proof.
  intros Hn Hty (ps & Hcat & Hps). unfold _assign_material_to_geo.
  assert (catalog E !! ntype n = Some ps) as Hc by (by rewrite Hty).
  assert (Hou.has_parm E n "shop_materialpath1" = true) as Hhas.
  { unfold Hou.has_parm. rewrite Hc. apply bool_decide_eq_true_2, Hps.
    by apply (bool_decide_unpack _). }
  erewrite bind_ok by (unfold Hou.parm; by rewrite Hn, Hhas). cbv beta iota.
  do 2 parm_step Hps.
  eexists. split.
  - eapply set_parm_ok;
      [cbn [scene set_scene]; apply lookup_insert_eq
      |rewrite ?store_parm_type; eassumption
      |apply Hps; by apply (bool_decide_unpack _)].
  - done.
Qed.

End material.

Ltac env_state E s :=
  destruct E as [hi pv av avs cat hp cw rr ri post enc dec ur uw];
  destruct s as [sc fs ds se so];
  cbn [hou_importable catalog scene] in *; subst.

(** Both sides run to the same value. *)
Ltac both_sides :=
  lazymatch goal with |- ?l = _ => vm_cast_no_check (@eq_refl _ l) end.

Section whole_run.
Import Examples SetupHoudiniAi.

Lemma blockout_new_scene E tweaks s :
  hou_importable E = true →
  catalog E = full_catalog →
  scene s = new_scene →
  _create_spaceship_blockout E tweaks s
  = ((_create_spaceship_blockout studio
        (tweak_prompt (wants_rivets tweaks) (wants_conduit tweaks))
        (start new_scene)).1,
     set_scene (built (wants_rivets tweaks) (wants_conduit tweaks)) s).
Proof.
  intros Hhou Hcat Hsc. env_state E s.
  unfold _create_spaceship_blockout at 1. unfold _apply_prompt_tweaks.
  unfold wants_rivets, wants_conduit.
  destruct (Py.truthy tweaks);
    [destruct (Py.contains "rivet" (Py.lower (default "" tweaks)));
     destruct (Py.contains "glow" (Py.lower (default "" tweaks)));
     destruct (Py.contains "conduit" (Py.lower (default "" tweaks)))|];
    both_sides.
Qed.

Lemma blockout_nodes rivet conduit :
  match (_create_spaceship_blockout studio (tweak_prompt rivet conduit)
           (start new_scene)).1 with
  | Ok nodes =>
      bo_obj nodes = "/obj" ∧ bo_geo nodes = ship
      ∧ bo_mat_sop nodes = assign_material
  | Raise _ => False
  end.
Proof. destruct rivet, conduit; vm_compute; split_and!; reflexivity. Qed.

Lemma cockpit_built E style s rivet conduit :
  hou_importable E = true →
  catalog E = full_catalog →
  scene s = built rivet conduit →
  _add_cockpit E "/obj" style s
  = (Ok {| ck_geo := cockpit; ck_camera := "/obj/cockpit_cam";
           ck_out := "/obj/interstellar_cockpit/holo_emission_hint" |},
     set_scene (furnished rivet conduit true) s).
Proof.
  intros Hhou Hcat Hsc. env_state E s. destruct rivet, conduit; both_sides.
Qed.

Lemma camera_lit E s rivet conduit ck :
  hou_importable E = true →
  catalog E = full_catalog →
  scene s = furnished rivet conduit ck →
  _create_camera_and_lights E s
  = (Ok "/obj/interstellar_cam", set_scene (lit rivet conduit ck) s).
Proof.
  intros Hhou Hcat Hsc. env_state E s. destruct rivet, conduit, ck; both_sides.
Qed.

Lemma pdg_piped E s rivet conduit rop :
  hou_importable E = true →
  catalog E = full_catalog →
  scene s = shot rivet conduit true rop →
  _try_stablehoudini_pdg E cockpit s
  = (Ok (), set_scene (piped rivet conduit rop) s).
Proof.
  intros Hhou Hcat Hsc. env_state E s. destruct rivet, conduit; both_sides.
Qed.

Lemma lit_facts rivet conduit ck :
  lit rivet conduit ck !! "/out" = Some (manager "out")
  ∧ lit rivet conduit ck !! snapshot_rop = None
  ∧ is_Some (lit rivet conduit ck !! "/obj/interstellar_cam")
  ∧ is_Some (lit rivet conduit ck !! ship).
Proof.
  destruct rivet, conduit, ck; vm_compute; split_and!; eauto.
Qed.

Lemma shot_facts rivet conduit ck rop :
  shot rivet conduit ck rop !! "/out" = Some (manager "out")
  ∧ shot rivet conduit ck rop !! snapshot_rop = Some rop
  ∧ shot rivet conduit ck rop !! "/mat" = Some (manager "mat")
  ∧ shot rivet conduit ck rop !! "/mat/ship_mat" = None
  ∧ (∃ n, shot rivet conduit ck rop !! assign_material = Some n
          ∧ ntype n = "material")
  ∧ (ck = true →
     is_Some (shot rivet conduit ck rop !! "/obj/cockpit_cam")
     ∧ is_Some (shot rivet conduit ck rop !! cockpit)).
Proof.
  destruct rivet, conduit, ck; vm_compute; split_and!; eauto; done.
Qed.

Lemma piped_facts rivet conduit rop :
  piped rivet conduit rop !! "/mat" = Some (manager "mat")
  ∧ piped rivet conduit rop !! "/mat/ship_mat" = None
  ∧ ∃ n, piped rivet conduit rop !! assign_material = Some n
         ∧ ntype n = "material".
Proof.
  destruct rivet, conduit; vm_compute; split_and!; eauto.
Qed.

Lemma full_catalog_provides E type_name parms :
  catalog E = full_catalog →
  (match full_catalog !! type_name with
   | Some ps => forallb (λ p, bool_decide (p ∈ ps)) parms
   | None => false
   end) = true →
  provides E type_name parms.
Proof.
  intros Hcat. destruct (full_catalog !! type_name) as [ps|] eqn:Hc; [|done].
  intros Hall. exists ps. split; [by rewrite Hcat|]. intros p Hp.
  rewrite forallb_forall in Hall.
  eapply bool_decide_eq_true_1, Hall. by apply list_elem_of_In.
Qed.


End whole_run.

(** ** [setup_interstellar_ai] from start to end *)

Section setup_run.
Import Examples SetupHoudiniAi.

Lemma parent_snoc (p : path) name : Pathlib.parent (p ++ [name]) = p.
Proof. unfold Pathlib.parent. apply removelast_last. Qed.

Lemma snoc_not_ancestor (p : path) name :
  p ++ [name] ∉ (list_to_set (Pathlib.ancestors p) : gset path).
Proof.
  intros Hin%elem_of_list_to_set%ancestors_length.
  rewrite length_app in Hin. simpl in Hin. lia.
Qed.

Lemma set_scene_state sc s :
  ∃ s', set_scene sc s = s' ∧ scene s' = sc ∧ dirs s' = dirs s.
Proof. by exists (set_scene sc s). Qed.

Lemma shot_again rivet conduit ck rop rop' :
  <[snapshot_rop := rop']> (shot rivet conduit ck rop)
  = shot rivet conduit ck rop'.
Proof. unfold shot. apply insert_insert_eq. Qed.

Lemma full_catalog_shader : is_Some (full_catalog !! "principledshader::2.0").
Proof. apply (bool_decide_eq_true_1 _). vm_compute. reflexivity. Qed.

(** X1.  On a host that has every node type and parameter the script
    uses, in a new scene, with snapshot paths that can be read when they
    are on disk: the run completes and reports it, for every prompt, tweak
    prompt, API URL, cockpit style and PDG flag, whatever the renderer, the
    server and the codec do and whether or not the output can be
    written. *)
Theorem setup_completes E prompt tweaks url style flag s :
  hou_importable E = true →
  catalog E = full_catalog →
  scene s = new_scene →
  snapshots_readable E s →
  let report := "[Interstellar] Setup complete." in
  ∃ s',
    setup_interstellar_ai E prompt tweaks url style flag s = (Ok (), s')
    ∧ report ∈ stdout s'.
Proof.
  intros Hhou Hcat Hsc Hread report.
  set (made := list_to_set (Pathlib.ancestors (ai_dir E)) : gset path).
  unfold setup_interstellar_ai.
  erewrite bind_ok by (unfold _ensure_houdini; by rewrite Hhou).
  destruct (check_versions_returns E made s Hhou) as (s1 & Hrun & Hs1 & Hd1).
  erewrite bind_ok by exact Hrun. clear Hrun.
  erewrite bind_ok by (by apply import_hou_ok).
  rewrite <- Hs1 in Hsc.
  pose proof (blockout_new_scene E tweaks s1 Hhou Hcat Hsc) as Hrun.
  set (rivet := wants_rivets tweaks) in *.
  set (conduit := wants_conduit tweaks) in *.
  pose proof (blockout_nodes rivet conduit) as Hnodes.
  destruct (_create_spaceship_blockout studio _ _).1 as [nodes|]; [|done].
  destruct Hnodes as (Hobj & Hgeo & Hsop).
  destruct (set_scene_state (built rivet conduit) s1) as (s2 & Heq & Hs2 & Hd2).
  rewrite Heq in Hrun. clear Heq.
  erewrite bind_ok by exact Hrun. clear Hrun.
  change ((if Py.truthy (Some (hip E)) then Pathlib.Path (hip E) else cwd E)
          ++ ["ai_tools"; "generated"]) with (ai_dir E).
  rewrite Hobj, Hgeo, Hsop. clear Hobj Hgeo Hsop nodes.
  generalize (Py.truthy style). intros ck.
  (* the cockpit, when asked for *)
  assert (∃ cockpit_nodes s3,
            (if ck
             then _add_cockpit E "/obj" style ≫= λ c, mret (Some c)
             else mret None) s2
            = (Ok cockpit_nodes, s3)
            ∧ scene s3 = furnished rivet conduit ck
            ∧ dirs s3 = dirs s2
            ∧ match cockpit_nodes with
              | Some c =>
                  ck = true ∧ ck_camera c = "/obj/cockpit_cam"
                  ∧ ck_geo c = cockpit
              | None => ck = false
              end) as (cockpit_nodes & s3 & Hrun & Hs3 & Hd3 & Hck).
  { destruct ck; cbv beta iota.
    - destruct (set_scene_state (furnished rivet conduit true) s2)
        as (s3 & Heq & Hs3 & Hd3).
      pose proof (cockpit_built E style s2 rivet conduit Hhou Hcat Hs2) as Hrun.
      rewrite Heq in Hrun.
      exists (Some {| ck_geo := cockpit; ck_camera := "/obj/cockpit_cam";
                      ck_out := "/obj/interstellar_cockpit/holo_emission_hint" |}),
        s3.
      split_and!; [|exact Hs3|exact Hd3|reflexivity..].
      erewrite bind_ok by exact Hrun. reflexivity.
    - exists None, s2. split_and!; [reflexivity|exact Hs2|reflexivity..]. }
  erewrite bind_ok by exact Hrun. clear Hrun.
  (* camera and lights *)
  destruct (set_scene_state (lit rivet conduit ck) s3) as (s4 & Heq & Hs4 & Hd4).
  pose proof (camera_lit E s3 rivet conduit ck Hhou Hcat Hs3) as Hrun.
  rewrite Heq in Hrun. clear Heq.
  erewrite bind_ok by exact Hrun. clear Hrun.
  destruct (lit_facts rivet conduit ck) as (Hout & Hnorop & Hcam & Hship).
  rewrite <- Hs4 in Hout, Hnorop, Hcam, Hship.
  erewrite bind_ok by (apply path_ok; exact Hcam).
  erewrite bind_ok by (apply path_ok; exact Hship).
  (* the ship snapshot and its texture *)
  assert (provides E "opengl" ["camera"; "vm_picture"; "trange"; "res1"; "res2"])
    as Hopengl by (apply full_catalog_provides; [exact Hcat|reflexivity]).
  destruct (render_snapshot_returns E (ai_dir E ++ ["ship_view.png"])
              "/obj/interstellar_cam" ship s4 _ Hhou Hout Hopengl
              (or_introl Hnorop))
    as (b1 & s5 & rop1 & Hrun & Hs5 & Hty1 & Hd5).
  erewrite bind_ok by exact Hrun. clear Hrun Hout Hnorop Hcam Hship.
  rewrite parent_snoc in Hd5. fold made in Hd5.
  rewrite Hs4 in Hs5. fold (shot rivet conduit ck rop1) in Hs5.
  assert (dirs s5 ⊆ dirs s ∪ made) as Hd5'.
  { etransitivity; [exact Hd5|]. rewrite Hd4, Hd3, Hd2.
    apply union_least; [exact Hd1|apply union_subseteq_r]. }
  assert (∀ name s',
            name ∈ ["ship_view.png"; "cockpit_view.png"] →
            dirs s' ⊆ dirs s ∪ made →
            ∀ b : bool,
              snapshot_readable E s'
                (if b then Some (ai_dir E ++ [name]) else None) = true)
    as Hreadable.
  { intros name s' Hname Hd' [|]; [|reflexivity].
    destruct (Hread name _ Hname eq_refl) as [Hnu Hnd].
    apply readable_snapshot; [by destruct (ai_dir E)| |exact Hnu].
    intros [Hin|Hin]%Hd'%elem_of_union; [by apply Hnd|].
    by apply snoc_not_ancestor in Hin. }
  destruct (call_sd_returns E (if b1 then Some (ai_dir E ++ ["ship_view.png"]) else None)
              prompt (ai_dir E ++ ["ship_texture.png"]) url s5)
    as (sd_ok & s6 & Hrun & Hs6 & Hd6).
  { apply Hreadable; [apply (bool_decide_unpack _); reflexivity|exact Hd5']. }
  erewrite bind_ok by exact Hrun. clear Hrun.
  rewrite parent_snoc in Hd6. fold made in Hd6.
  rewrite Hs5 in Hs6.
  assert (dirs s6 ⊆ dirs s ∪ made) as Hd6'.
  { etransitivity; [exact Hd6|].
    apply union_least; [exact Hd5'|apply union_subseteq_r]. }
  (* the cockpit snapshot, its texture, the PDG hook *)
  match goal with |- ∃ s', (?blk ≫= _) s6 = _ ∧ _ =>
    assert (∃ s9, blk s6 = (Ok (), s9)
                  ∧ scene s9 !! "/mat" = Some (manager "mat")
                  ∧ scene s9 !! "/mat/ship_mat" = None
                  ∧ ∃ n, scene s9 !! assign_material = Some n
                         ∧ ntype n = "material")
      as (s9 & Hrun & Hmat & Hnomat & n & Hsop9 & Hty9)
  end.
  { destruct cockpit_nodes as [c|].
    - destruct Hck as (Hck & Hccam & Hcgeo). rewrite Hccam, Hcgeo.
      subst ck. cbv beta iota.
      destruct (shot_facts rivet conduit true rop1)
        as (Hout1 & Hrop1 & _ & _ & _ & Hcock).
      destruct (Hcock eq_refl) as [Hccam' Hcgeo'].
      rewrite <- Hs6 in Hout1, Hrop1, Hccam', Hcgeo'.
      erewrite bind_ok by (apply path_ok; exact Hccam').
      erewrite bind_ok by (apply path_ok; exact Hcgeo').
      destruct (render_snapshot_returns E (ai_dir E ++ ["cockpit_view.png"])
                  "/obj/cockpit_cam" cockpit s6 _ Hhou Hout1 Hopengl
                  (or_intror (ex_intro _ rop1 (conj Hrop1 Hty1))))
        as (b3 & s7 & rop2 & Hrun & Hs7 & Hty2 & Hd7).
      erewrite bind_ok by exact Hrun. clear Hrun.
      rewrite parent_snoc in Hd7. fold made in Hd7.
      rewrite Hs6, shot_again in Hs7.
      match goal with |- ∃ _, (_call_stable_diffusion E ?i ?p ?o ?u ≫= _) _ = _ ∧ _ =>
        destruct (call_sd_returns E i p o u s7) as (b4 & s8 & Hrun & Hs8 & Hd8)
      end.
      { apply Hreadable; [apply (bool_decide_unpack _); reflexivity|].
        etransitivity; [exact Hd7|].
        apply union_least; [exact Hd6'|apply union_subseteq_r]. }
      erewrite bind_ok by exact Hrun. clear Hrun.
      rewrite Hs7 in Hs8.
      destruct flag; cbv beta iota.
      + destruct (shot_facts rivet conduit true rop2)
          as (_ & _ & _ & _ & _ & Hcock2).
        destruct (Hcock2 eq_refl) as [_ Hcgeo2]. rewrite <- Hs8 in Hcgeo2.
        erewrite bind_ok by (apply path_ok; exact Hcgeo2).
        destruct (set_scene_state (piped rivet conduit rop2) s8)
          as (s9 & Heq & Hs9 & Hd9).
        pose proof (pdg_piped E s8 rivet conduit rop2 Hhou Hcat Hs8) as Hrun.
        rewrite Heq in Hrun.
        exists s9. split; [exact Hrun|]. rewrite Hs9. apply piped_facts.
      + exists s8. split; [reflexivity|]. rewrite Hs8.
        destruct (shot_facts rivet conduit true rop2)
          as (_ & _ & H1 & H2 & H3 & _).
        split_and!; assumption.
    - exists s6. split; [reflexivity|]. rewrite Hs6.
      destruct (shot_facts rivet conduit ck rop1) as (_ & _ & H1 & H2 & H3 & _).
      split_and!; assumption. }
  erewrite bind_ok by exact Hrun. clear Hrun.
  (* the material *)
  destruct (material_returns E
              (if sd_ok then Some (ai_dir E ++ ["ship_texture.png"]) else None)
              s9 _ Hhou Hmat Hnomat)
    as (s10 & Hrun & Hshader & Hframe & _).
  { rewrite Hcat. apply full_catalog_shader. }
  erewrite bind_ok by exact Hrun. clear Hrun.
  erewrite bind_ok by (apply path_ok; exact Hshader).
  destruct (assign_returns E "/mat/ship_mat" assign_material s10 n)
    as (s11 & Hrun & _).
  { rewrite Hframe; [exact Hsop9|unfold assign_material; discriminate]. }
  { exact Hty9. }
  { apply full_catalog_provides; [exact Hcat|reflexivity]. }
  erewrite bind_ok by exact Hrun. clear Hrun.
  (* the report *)
  erewrite bind_ok by reflexivity.
  assert (∀ (b : bool) (m1 m2 : string) s0,
            report ∈ stdout s0 →
            ∃ s0', (if b then print m1 else print m2) s0 = (Ok (), s0')
                   ∧ report ∈ stdout s0') as Hprint.
  { intros [|] ??? Hin; (eexists; split; [reflexivity|]);
      cbn [stdout add_stdout]; apply elem_of_app; by left. }
  match goal with |- ∃ _, ((if _ then print ?m1 else print ?m2) ≫= _) ?s0 = _ ∧ _ =>
    destruct (Hprint sd_ok m1 m2 s0) as (s12 & Hrun & Hdone)
  end.
  { cbn [stdout add_stdout]. apply elem_of_app. right. apply list_elem_of_here. }
  erewrite bind_ok by exact Hrun. clear Hrun.
  destruct cockpit_nodes; [|exists s12; split; [reflexivity|exact Hdone]].
  erewrite bind_ok by reflexivity. apply Hprint. exact Hdone.
Qed.

(** X2.  Outside Houdini the run stops at once with the [RuntimeError] of
    [_ensure_houdini]: nothing is printed, built, sent or written. *)
Theorem setup_needs_hou E prompt tweaks url style flag s :
  hou_importable E = false →
  setup_interstellar_ai E prompt tweaks url style flag s
  = (Raise (Exn RuntimeError
              "This script must be run inside Houdini (hou module not found)."),
     s).
Proof.
  intros Hhou. unfold setup_interstellar_ai.
  apply bind_raise. unfold _ensure_houdini. by rewrite Hhou.
Qed.

(** X3.  In a scene without /obj the run raises [RuntimeError("/obj not
    found")] once the versions have been checked; the scene is as it
    was. *)
Theorem setup_needs_obj E prompt tweaks url style flag s :
  hou_importable E = true →
  scene s !! "/obj" = None →
  ∃ s',
    setup_interstellar_ai E prompt tweaks url style flag s
    = (Raise (Exn RuntimeError "/obj not found"), s')
    ∧ scene s' = scene s.
Proof.
  intros Hhou Hobj. unfold setup_interstellar_ai.
  erewrite bind_ok by (unfold _ensure_houdini; by rewrite Hhou).
  destruct (check_versions_returns E ∅ s Hhou) as (s1 & Hrun & Hs1 & _).
  erewrite bind_ok by exact Hrun.
  erewrite bind_ok by (by apply import_hou_ok).
  exists s1. split; [|exact Hs1].
  apply bind_raise. unfold _create_spaceship_blockout.
  erewrite bind_ok by (by apply import_hou_ok).
  erewrite bind_ok by (unfold Hou.node_at; by rewrite Hs1, Hobj).
  reflexivity.
Qed.

(** X4.  A failure of the host API is not caught: when the host cannot
    make the node type of the ship container, the [OperationFailed] of
    [createNode] ends the run, with the scene as it was. *)
Theorem setup_propagates_host_error E prompt tweaks url style flag s :
  hou_importable E = true →
  is_Some (scene s !! "/obj") →
  scene s !! "/obj/interstellar_ship" = None →
  catalog E !! "geo" = None →
  ∃ s',
    setup_interstellar_ai E prompt tweaks url style flag s
    = (Raise (Exn OperationFailed "Invalid node type name: geo"), s')
    ∧ scene s' = scene s.
Proof.
  intros Hhou [o Hobj] Hship Hgeo. unfold setup_interstellar_ai.
  erewrite bind_ok by (unfold _ensure_houdini; by rewrite Hhou).
  destruct (check_versions_returns E ∅ s Hhou) as (s1 & Hrun & Hs1 & _).
  erewrite bind_ok by exact Hrun.
  erewrite bind_ok by (by apply import_hou_ok).
  exists s1. split; [|exact Hs1].
  apply bind_raise. unfold _create_spaceship_blockout.
  erewrite bind_ok by (by apply import_hou_ok).
  erewrite bind_ok by (eapply node_at_ok; by rewrite Hs1).
  cbv beta iota. apply bind_raise.
  unfold _get_or_create, Hou.node, Hou.node_at, Hou.createNode. unfold_monad.
  change (Hou.child_path "/obj" "interstellar_ship")
    with "/obj/interstellar_ship".
  by rewrite Hs1, Hobj, Hship, Hs1, Hobj, Hgeo.
Qed.

End setup_run.

(** ** The graph builders touch the scene only *)

Section scene_only.
Context (E : Env).
Import SetupHoudiniAi.

Global Instance scene_only_preorder : PreOrder scene_only.
Proof.
  split.
  - by intros s.
  - intros s1 s2 s3 (?&?&?&?) (?&?&?&?). split_and!; congruence.
Qed.

Global Instance offline_preorder : PreOrder offline.
Proof.
  split.
  - by intros s.
  - intros s1 s2 s3 (?&?&?) (?&?&?). split_and!; congruence.
Qed.

Lemma scene_only_offline {A} (m : M A) : keeps scene_only m → keeps offline m.
Proof. intros Hm s. destruct (Hm s) as (?&?&?&?). by split_and!. Qed.

Lemma so_node_at p : keeps scene_only (Hou.node_at p).
Proof. by intros s. Qed.

Lemma so_node parent name : keeps scene_only (Hou.node parent name).
Proof. intros s. unfold Hou.node. by case_match. Qed.

Lemma so_createNode parent ty name :
  keeps scene_only (Hou.createNode E parent ty name).
Proof. intros s. unfold Hou.createNode. by repeat case_match. Qed.

Lemma so_nodeType ty : keeps scene_only (Hou.nodeType E ty).
Proof. by intros s. Qed.

Lemma so_type_name h : keeps scene_only (Hou.type_name h).
Proof. intros s. unfold Hou.type_name. by case_match. Qed.

Lemma so_input h idx : keeps scene_only (Hou.input h idx).
Proof. intros s. unfold Hou.input. by case_match. Qed.

Lemma so_inputs h : keeps scene_only (Hou.inputs h).
Proof. intros s. unfold Hou.inputs. by case_match. Qed.

Lemma so_update_node h f : keeps scene_only (Hou.update_node h f).
Proof. intros s. unfold Hou.update_node. by case_match. Qed.

Lemma so_parm h name : keeps scene_only (Hou.parm E h name).
Proof. intros s. unfold Hou.parm. by case_match. Qed.

Lemma so_parm_set p v : keeps scene_only (Hou.parm_set p v).
Proof.
  unfold Hou.parm_set. destruct p as [[h name]|];
    [apply so_update_node|by intros s].
Qed.

Lemma so_parm_set_from p q : keeps scene_only (Hou.parm_set_from p q).
Proof.
  unfold Hou.parm_set_from. destruct p as [[h name]|]; [|by intros s].
  destruct q as [[h' name']|]; [apply so_update_node|by intros s].
Qed.

Lemma so_children h : keeps scene_only (Hou.children h).
Proof. intros s. unfold Hou.children. by case_match. Qed.

Lemma so_destroy h : keeps scene_only (Hou.destroy h).
Proof. intros s. unfold Hou.destroy. by case_match. Qed.

Lemma so_path h : keeps scene_only (Hou.path h).
Proof. intros s. unfold Hou.path. by case_match. Qed.

Lemma so_layoutChildren h : keeps scene_only (Hou.layoutChildren h).
Proof. intros s. unfold Hou.layoutChildren. by case_match. Qed.

Lemma so_import_hou : keeps scene_only (import_hou E).
Proof. intros s. unfold import_hou. by case_match. Qed.

Lemma keeps_for_each {A} R `{!PreOrder R} (l : list A) body :
  (∀ x, keeps R (body x)) → keeps R (for_each l body).
Proof.
  intros Hb. induction l as [|x l IH]; simpl.
  - apply keeps_ret, _.
  - apply keeps_bind; [apply _|apply Hb|intros _; apply IH].
Qed.

End scene_only.

Create HintDb keeps discriminated.

#[export] Hint Resolve so_node_at so_node so_createNode so_nodeType
  so_type_name so_input so_inputs so_update_node so_parm so_parm_set
  so_parm_set_from so_children so_destroy so_path so_layoutChildren
  so_import_hou : keeps.

(** Cut a computation at its binds and branches and close the leaves with
    the lemmas of the hint database. *)
Ltac keeps_steps :=
  repeat first
    [ solve [auto with keeps nocore]
    | apply keeps_ret; apply _
    | apply keeps_raise; apply _
    | apply keeps_bind; [apply _| |intros ?]
    | apply keeps_try; [apply _| |intros ?]
    | apply keeps_for_each; [apply _|intros ?]
    | match goal with
      | |- keeps _ (match ?x with _ => _ end) => destruct x
      | |- keeps _ (let '(_, _) := ?x in _) => destruct x
      end ].

Section builders.
Context (E : Env).
Import SetupHoudiniAi.

Lemma so_setInput h idx x : keeps scene_only (Hou.setInput h idx x).
Proof. apply so_update_node. Qed.

Lemma so_setDisplayFlag h b : keeps scene_only (Hou.setDisplayFlag h b).
Proof. apply so_update_node. Qed.

Lemma so_setRenderFlag h b : keeps scene_only (Hou.setRenderFlag h b).
Proof. apply so_update_node. Qed.

Lemma so_set_parm h name v : keeps scene_only (set_parm E h name v).
Proof. unfold set_parm. keeps_steps. Qed.

Lemma so_set_parm_from dst src name :
  keeps scene_only (set_parm_from E dst src name).
Proof. unfold set_parm_from. keeps_steps. Qed.

Lemma so_get_or_create parent ty name :
  keeps scene_only (_get_or_create E parent ty name).
Proof. unfold _get_or_create. keeps_steps. Qed.

Lemma so_get_or_create_versioned parent new old name :
  keeps scene_only (get_or_create_versioned E parent new old name).
Proof.
  pose proof so_get_or_create. unfold get_or_create_versioned. keeps_steps.
Qed.

Lemma so_clear_file_nodes geo : keeps scene_only (clear_file_nodes geo).
Proof. unfold clear_file_nodes. keeps_steps. Qed.

Lemma so_copy_tube_parms dst src : keeps scene_only (copy_tube_parms E dst src).
Proof. pose proof so_set_parm_from. unfold copy_tube_parms. keeps_steps. Qed.

Lemma so_merge_node parent name : keeps scene_only (merge_node E parent name).
Proof. unfold merge_node. keeps_steps. Qed.

Lemma so_connect_merge parent a b name :
  keeps scene_only (_connect_merge E parent a b name).
Proof.
  pose proof so_merge_node. pose proof so_setInput.
  unfold _connect_merge. keeps_steps.
Qed.

Lemma so_set_parm_if_present h name v :
  keeps scene_only (set_parm_if_present E h name v).
Proof. pose proof so_set_parm. unfold set_parm_if_present. keeps_steps. Qed.

End builders.

#[export] Hint Resolve so_setInput so_setDisplayFlag so_setRenderFlag
  so_set_parm so_set_parm_from so_get_or_create so_get_or_create_versioned
  so_clear_file_nodes so_copy_tube_parms so_merge_node so_connect_merge
  so_set_parm_if_present : keeps.

Section builders_scene_only.
Context (E : Env).
Import SetupHoudiniAi.

Lemma so_apply_prompt_tweaks geo input_node prompt_text :
  keeps scene_only (_apply_prompt_tweaks E geo input_node prompt_text).
Proof.
  unfold _apply_prompt_tweaks, add_rivets, add_conduit. cbv zeta. keeps_steps.
Qed.

Lemma so_create_spaceship_blockout tweaks :
  keeps scene_only (_create_spaceship_blockout E tweaks).
Proof.
  pose proof so_apply_prompt_tweaks.
  unfold _create_spaceship_blockout. cbv zeta. keeps_steps.
Qed.

Lemma so_add_cockpit parent_obj style :
  keeps scene_only (_add_cockpit E parent_obj style).
Proof. unfold _add_cockpit. keeps_steps. Qed.

Lemma so_create_camera_and_lights :
  keeps scene_only (_create_camera_and_lights E).
Proof. unfold _create_camera_and_lights, none_has_no. keeps_steps. Qed.

Lemma so_assign_material_to_geo material_node_path material_sop :
  keeps scene_only (_assign_material_to_geo E material_node_path material_sop).
Proof. unfold _assign_material_to_geo. keeps_steps. Qed.

(** X5.  The graph builders of [setup_houdini_ai.py] work on the scene
    and on nothing else: whether they return or raise, no line has been
    printed, no request sent, no file or directory made. *)
Theorem builders_touch_scene_only :
  (∀ tweaks, keeps scene_only (_create_spaceship_blockout E tweaks))
  ∧ (∀ geo input_node prompt,
       keeps scene_only (_apply_prompt_tweaks E geo input_node prompt))
  ∧ (∀ parent a b name, keeps scene_only (_connect_merge E parent a b name))
  ∧ (∀ parent ty name, keeps scene_only (_get_or_create E parent ty name))
  ∧ (∀ parent style, keeps scene_only (_add_cockpit E parent style))
  ∧ keeps scene_only (_create_camera_and_lights E)
  ∧ (∀ mat sop, keeps scene_only (_assign_material_to_geo E mat sop)).
Proof.
  split_and!; intros.
  - apply so_create_spaceship_blockout.
  - apply so_apply_prompt_tweaks.
  - apply so_connect_merge.
  - apply so_get_or_create.
  - apply so_add_cockpit.
  - apply so_create_camera_and_lights.
  - apply so_assign_material_to_geo.
Qed.

End builders_scene_only.

(** ** [clear_file_nodes]: the loop over [geo.children()] *)

Section clear.
Import SetupHoudiniAi.

Lemma clear_one_cases c t :
  (clear_one c t = (Ok (), t)
   ∧ ∀ n, scene t !! c = Some n → ntype n ≠ "file")
  ∨ (∃ n, scene t !! c = Some n ∧ ntype n = "file"
          ∧ clear_one c t
            = (Ok (),
               set_scene
                 (Hou.unplug c <$> filter (λ kv, Hou.under c kv.1 = false) (scene t))
                 t)).
Proof.
  unfold clear_one, Hou.type_name, Hou.destroy. unfold_monad.
  destruct (scene t !! c) as [n|] eqn:Hc; simpl.
  - destruct (decide (ntype n = "file")) as [Hty|Hty].
    + right. exists n. by rewrite Hc.
    + left. split; [done|]. by intros n' [= <-].
  - left. split; [done|]. by intros n' [=].
Qed.

Lemma under_self c : Hou.under c c = true.
Proof. unfold Hou.under. by rewrite bool_decide_eq_true_2. Qed.

Lemma lookup_destroyed c (sc : gmap string Node) p n' :
  (Hou.unplug c <$> filter (λ kv, Hou.under c kv.1 = false) sc) !! p = Some n' ↔
  ∃ n, sc !! p = Some n ∧ Hou.under c p = false ∧ n' = Hou.unplug c n.
Proof.
  rewrite lookup_fmap_Some. split.
  - intros (n & <- & [Hn Hu]%map_lookup_filter_Some). by exists n.
  - intros (n & Hn & Hu & ->). exists n. split; [done|].
    by apply map_lookup_filter_Some.
Qed.

(** What a round keeps of every node that is still there, and which nodes
    are still there. *)
Lemma clear_one_spec c t :
  ∃ t',
    clear_one c t = (Ok (), t')
    ∧ scene_only t t'
    ∧ (∀ p n', scene t' !! p = Some n' →
         ∃ n, scene t !! p = Some n ∧ ntype n' = ntype n ∧ nparms n' = nparms n)
    ∧ (∀ n', scene t' !! c = Some n' → ntype n' ≠ "file")
    ∧ (∀ p n, scene t !! p = Some n →
         (∀ nc, scene t !! c = Some nc → ntype nc = "file" →
                Hou.under c p = false) →
         ∃ n', scene t' !! p = Some n'
               ∧ ntype n' = ntype n ∧ nparms n' = nparms n).
Proof.
  destruct (clear_one_cases c t) as [[Hrun Hty] | (n & Hn & Hty & Hrun)].
  - exists t. split_and!; [done|done|eauto|done|eauto].
  - eexists. split_and!; [exact Hrun|done|..]; cbn [scene set_scene].
    + intros p n' (n0 & Hn0 & _ & ->)%lookup_destroyed. by exists n0.
    + intros n' (n0 & _ & Hu & _)%lookup_destroyed.
      by rewrite under_self in Hu.
    + intros p n0 Hn0 Hout. exists (Hou.unplug c n0). split; [|done].
      apply lookup_destroyed. exists n0. split_and!; [done| |done].
      by apply (Hout n).
Qed.

Lemma clear_loop cs t :
  ∃ t',
    for_each cs clear_one t = (Ok (), t')
    ∧ scene_only t t'
    ∧ (∀ p n', scene t' !! p = Some n' →
         ∃ n, scene t !! p = Some n ∧ ntype n' = ntype n ∧ nparms n' = nparms n)
    ∧ (∀ c n', c ∈ cs → scene t' !! c = Some n' → ntype n' ≠ "file")
    ∧ (∀ p n, scene t !! p = Some n →
         (∀ c nc, c ∈ cs → scene t !! c = Some nc → ntype nc = "file" →
                  Hou.under c p = false) →
         ∃ n', scene t' !! p = Some n'
               ∧ ntype n' = ntype n ∧ nparms n' = nparms n).
Proof.
  revert t. induction cs as [|c cs IH]; intros t.
  - exists t. split_and!; [done|done|eauto| |eauto].
    by intros c n' ?%elem_of_nil.
  - destruct (clear_one_spec c t) as (t1 & Hrun1 & Hso1 & HA1 & HB1 & HC1).
    destruct (IH t1) as (t' & Hrun & Hso & HA & HB & HC).
    exists t'. cbn [for_each]. erewrite bind_ok by exact Hrun1.
    split_and!; [exact Hrun|by etransitivity|..].
    + intros p n' Hn'. destruct (HA p n' Hn') as (n1 & Hn1 & Hty1 & Hp1).
      destruct (HA1 p n1 Hn1) as (n & Hn & Hty & Hp).
      exists n. split_and!; congruence.
    + intros x n' [->|Hin]%elem_of_cons Hn'; [|by eapply HB].
      destruct (HA c n' Hn') as (n1 & Hn1 & Hty1 & _).
      rewrite Hty1. by apply HB1.
    + intros p n Hn Hout.
      destruct (HC1 p n Hn) as (n1 & Hn1 & Hty1 & Hp1).
      { intros nc Hnc Hfile. apply (Hout c nc); [apply list_elem_of_here|done..]. }
      destruct (HC p n1 Hn1) as (n' & Hn' & Hty' & Hp').
      { intros x nx Hin Hnx Hfile.
        destruct (HA1 x nx Hnx) as (n0 & Hn0 & Hty0 & _).
        apply (Hout x n0); [by apply list_elem_of_further|done|congruence]. }
      exists n'. split_and!; congruence.
Qed.

Lemma length_append a b :
  String.length (a +:+ b) = String.length a + String.length b.
Proof. induction a as [|x a IH]; simpl; [done|]. by rewrite IH. Qed.

Lemma prefix_length a b : String.prefix a b = true → String.length a ≤ String.length b.
Proof.
  revert b. induction a as [|x a IH]; intros [|y b]; simpl; try done; try lia.
  destruct (Ascii.ascii_dec x y); [|done]. intros Hp%IH. lia.
Qed.

Lemma child_prefix_length h : String.length h ≤ String.length (Hou.child_prefix h).
Proof.
  unfold Hou.child_prefix. case_decide as Hh; [by subst|].
  rewrite length_append. lia.
Qed.

(** A node is not below its own child. *)
Lemma parent_not_under geo c :
  Hou.is_child geo c = true → Hou.under c geo = false.
Proof.
  unfold Hou.is_child, Hou.under.
  intros [[Hpre Hne%negb_true_iff%bool_decide_eq_false]%andb_true_iff _]%andb_true_iff.
  apply prefix_length in Hpre as Hlen.
  pose proof (child_prefix_length geo) as Hgeo.
  apply orb_false_iff. split.
  - apply bool_decide_eq_false. intros ->.
    unfold Hou.child_prefix in *. case_decide as Hc; [done|].
    rewrite length_append in Hlen. simpl in Hlen. lia.
  - destruct (String.prefix (c +:+ "/") geo) eqn:Hp; [|done].
    apply prefix_length in Hp. rewrite length_append in Hp.
    simpl in Hp. lia.
Qed.

(** X6.  [clear_file_nodes] on an existing container returns, with
    nothing printed, sent or written.  Afterwards no child of the container
    is a file node; no node has been added and none has changed its type or
    parameters; every node that was not a file child of the container, nor
    below one, is still there, the container among them. *)
Theorem clear_file_nodes_spec geo s :
  is_Some (scene s !! geo) →
  ∃ s',
    clear_file_nodes geo s = (Ok (), s')
    ∧ scene_only s s'
    ∧ (∀ c n', Hou.is_child geo c = true → scene s' !! c = Some n' →
               ntype n' ≠ "file")
    ∧ (∀ p n', scene s' !! p = Some n' →
         ∃ n, scene s !! p = Some n ∧ ntype n' = ntype n ∧ nparms n' = nparms n)
    ∧ (∀ p n, scene s !! p = Some n →
         (∀ c nc, Hou.is_child geo c = true → scene s !! c = Some nc →
                  ntype nc = "file" → Hou.under c p = false) →
         ∃ n', scene s' !! p = Some n'
               ∧ ntype n' = ntype n ∧ nparms n' = nparms n)
    ∧ is_Some (scene s' !! geo).
Proof.
  intros [g Hg]. unfold clear_file_nodes.
  erewrite bind_ok by (unfold Hou.children; by rewrite Hg).
  set (cs := List.filter (Hou.is_child geo) (map_to_list (scene s)).*1).
  assert (∀ c, c ∈ cs ↔ Hou.is_child geo c = true ∧ is_Some (scene s !! c))
    as Hcs.
  { intros c. unfold cs. rewrite list_elem_of_In, filter_In, <- list_elem_of_In.
    rewrite list_elem_of_fmap. split.
    - intros [([k n] & -> & Hin%elem_of_map_to_list) Hchild]. eauto.
    - intros [Hchild [n Hn]]. split; [|done]. exists (c, n). split; [done|].
      by apply elem_of_map_to_list. }
  destruct (clear_loop cs s) as (s' & Hrun & Hso & HA & HB & HC).
  assert (∀ p n, scene s !! p = Some n →
            (∀ c nc, Hou.is_child geo c = true → scene s !! c = Some nc →
                     ntype nc = "file" → Hou.under c p = false) →
            ∃ n', scene s' !! p = Some n'
                  ∧ ntype n' = ntype n ∧ nparms n' = nparms n) as Hkept.
  { intros p n Hn Hout. apply HC; [done|].
    intros c nc [Hchild _]%Hcs Hnc Hfile. by apply (Hout c nc). }
  exists s'. split_and!; [exact Hrun|exact Hso| |exact HA|exact Hkept|].
  - intros c n' Hchild Hn'. apply (HB c); [|done].
    apply Hcs. split; [done|]. destruct (HA c n' Hn') as (n & Hn & _). eauto.
  - destruct (Hkept geo g Hg) as (n' & Hn' & _); [|eauto].
    intros c nc Hchild _ _. by apply parent_not_under.
Qed.

End clear.

(** ** The answer of the texture calls *)

#[export] Hint Resolve calm_print calm_post calm_raise_for_status calm_json_of
  calm_get calm_first calm_b64decode calm_mkdir calm_write calm_exists
  calm_read : keeps.

Section answer.
Context (E : Env).
Import SetupHoudiniAi.

Global Instance same_files_preorder : PreOrder same_files.
Proof.
  split; [by intros s|].
  intros s1 s2 s3 H1 H2. unfold same_files in *. congruence.
Qed.

Lemma sf_print line : keeps same_files (print line).
Proof. by intros s. Qed.

Lemma sf_post url body t : keeps same_files (Requests.post E url body t).
Proof. intros s. unfold Requests.post. by case_match. Qed.

Lemma sf_raise_for_status resp : keeps same_files (Requests.raise_for_status resp).
Proof. intros s. unfold Requests.raise_for_status. by case_match. Qed.

Lemma sf_json_of resp : keeps same_files (Requests.json_of resp).
Proof. intros s. unfold Requests.json_of. by case_match. Qed.

Lemma sf_get data key : keeps same_files (Json.get data key).
Proof. intros s. by destruct data. Qed.

Lemma sf_first x : keeps same_files (Json.first x).
Proof. intros s. by destruct x as [| | | |[|??]|[|??]|]. Qed.

Lemma sf_b64decode x : keeps same_files (Requests.b64decode_json E x).
Proof. intros s. unfold Requests.b64decode_json. by repeat case_match. Qed.

Lemma sf_mkdir p : keeps same_files (Pathlib.mkdir_parents E p).
Proof. intros s. unfold Pathlib.mkdir_parents. by repeat case_match. Qed.

Lemma sf_exists p : keeps same_files (Pathlib.path_exists p).
Proof. by intros s. Qed.

Lemma sf_read p : keeps same_files (Pathlib.read_bytes E p).
Proof. intros s. unfold Pathlib.read_bytes. by repeat case_match. Qed.

Lemma wwt_bind {A} out (m : M A) (f : A → M bool) :
  keeps same_files m →
  (∀ a, writes_when_true out (f a)) →
  writes_when_true out (m ≫= f).
Proof.
  intros Hm Hf s. unfold mbind, M_bind.
  specialize (Hm s). destruct (m s) as [[a|e] s1]; simpl in *; [|done].
  specialize (Hf a s1). unfold same_files in Hm. by rewrite <- Hm.
Qed.

Lemma wwt_false out (m : M bool) :
  keeps same_files m →
  (∀ s, (m s).1 ≠ Ok true) →
  writes_when_true out m.
Proof.
  intros Hm Hno s. specialize (Hm s). specialize (Hno s).
  destruct (m s) as [[[|]|e] s1]; simpl in *; done.
Qed.

(** The write, and after it only steps that keep the files and end in
    [True]. *)
Lemma wwt_write out png (k : M bool) :
  keeps same_files k →
  (∀ s, (k s).1 = Ok true) →
  writes_when_true out (Pathlib.write_bytes E out png ≫= λ _, k).
Proof.
  intros Hk Htrue s. unfold mbind, M_bind, Pathlib.write_bytes.
  destruct (Pathlib.is_dir s out); [done|].
  destruct (negb (Pathlib.is_dir s (Pathlib.parent out))); [done|].
  destruct (bool_decide (out ∈ unwritable E)); [done|].
  set (s1 := set_files _ s).
  specialize (Hk s1). specialize (Htrue s1). destruct (k s1) as [r s2].
  simpl in *. subst r. exists png. exact Hk.
Qed.

Lemma wwt_try out (body : M bool) handler :
  writes_when_true out body →
  (∀ e, keeps same_files (handler e)) →
  (∀ e s, (handler e s).1 ≠ Ok true) →
  writes_when_true out (try_except body handler).
Proof.
  intros Hb Hh Hno s. unfold try_except. specialize (Hb s).
  destruct (body s) as [[b|e] s1]; simpl in *; [done|].
  specialize (Hh e s1). specialize (Hno e s1).
  destruct (handler e s1) as [[[|]|e'] s2]; simpl in *;
    unfold same_files in Hh; congruence.
Qed.

Lemma wwt_print_false out line :
  writes_when_true out (print line ≫= λ _, mret false).
Proof. by intros s. Qed.

Lemma sd_round_trip_honest url endpoint payload out :
  writes_when_true out (sd_round_trip E url endpoint payload out).
Proof.
  unfold sd_round_trip. apply wwt_try.
  - apply wwt_bind; [apply sf_post|intros resp].
    apply wwt_bind; [apply sf_raise_for_status|intros _].
    apply wwt_bind; [apply sf_json_of|intros data].
    apply wwt_bind; [apply sf_get|intros images]. cbv zeta.
    case_match; [apply wwt_print_false|].
    apply wwt_bind; [apply sf_first|intros img].
    apply wwt_bind; [apply sf_b64decode|intros png].
    apply wwt_bind; [apply sf_mkdir|intros _].
    apply wwt_write; [apply keeps_ret, _|done].
  - intros e. apply keeps_bind; [apply _|apply sf_print|intros _].
    apply keeps_ret, _.
  - by intros e s.
Qed.

Lemma call_sd_honest init prompt out url :
  writes_when_true out (_call_stable_diffusion E init prompt out url).
Proof.
  unfold _call_stable_diffusion.
  case_match; [apply wwt_print_false|].
  case_match; [apply wwt_print_false|].
  apply wwt_bind; [|intros rq; apply sd_round_trip_honest].
  unfold sd_request. cbv zeta.
  destruct init as [p|]; [|apply keeps_ret, _].
  apply keeps_bind; [apply _|apply sf_exists|intros found].
  destruct found; [|apply keeps_ret, _].
  apply keeps_bind; [apply _|apply sf_read|intros data]. apply keeps_ret, _.
Qed.

Lemma call_sd_calm init prompt out url :
  keeps (calm (list_to_set (Pathlib.ancestors (Pathlib.parent out))))
    (_call_stable_diffusion E init prompt out url).
Proof.
  unfold _call_stable_diffusion, sd_request, sd_round_trip. cbv zeta.
  keeps_steps.
Qed.

(** X7.  [_call_stable_diffusion] tells the truth about the texture: it
    answers [True] only when it has written the output file, and when it
    answers [False] or raises, every file is as it was.  It never changes
    the scene, and the only directories it can make are the parent of the
    output file and the directories above it. *)
Theorem call_sd_answer_honest init prompt out url s :
  let r := _call_stable_diffusion E init prompt out url s in
  scene r.2 = scene s
  ∧ dirs r.2 ⊆ dirs s ∪ list_to_set (Pathlib.ancestors (Pathlib.parent out))
  ∧ match r.1 with
    | Ok true => ∃ png, files r.2 = <[out := png]> (files s)
    | _ => files r.2 = files s
    end.
Proof.
  intros r. destruct (call_sd_calm init prompt out url s) as [Hsc Hd].
  split_and!; [exact Hsc|exact Hd|]. apply call_sd_honest.
Qed.

End answer.

(** ** [call_sd_txt2img] of the other script *)

Section txt2img.
Context (E : Env).
Import SetupHoudiniAi GenerateInterstellarShip.

Lemma txt2img_honest prompt out url :
  writes_when_true out (call_sd_txt2img E prompt out url).
Proof.
  unfold call_sd_txt2img, _safe_requests.
  apply wwt_bind; [apply keeps_ret, _|intros requests].
  case_match; [apply wwt_print_false|]. cbv zeta.
  apply wwt_try.
  - apply wwt_bind; [apply sf_post|intros resp].
    apply wwt_bind; [apply sf_raise_for_status|intros _].
    apply wwt_bind; [apply sf_json_of|intros data].
    apply wwt_bind; [apply sf_get|intros images].
    case_match; [apply wwt_print_false|].
    apply wwt_bind; [apply sf_first|intros img].
    apply wwt_bind; [apply sf_mkdir|intros _].
    apply wwt_bind; [apply sf_b64decode|intros png].
    apply wwt_write; [|done].
    apply keeps_bind; [apply _|apply sf_print|intros _]. apply keeps_ret, _.
  - intros e. apply keeps_bind; [apply _|apply sf_print|intros _].
    apply keeps_ret, _.
  - by intros e s.
Qed.

Lemma txt2img_returns prompt out url s :
  ∃ b s',
    call_sd_txt2img E prompt out url s = (Ok b, s')
    ∧ calm (list_to_set (Pathlib.ancestors (Pathlib.parent out))) s s'.
Proof.
  unfold call_sd_txt2img, _safe_requests.
  erewrite bind_ok by reflexivity.
  destruct (requests_importable E); simpl; [|apply print_then_returns].
  apply try_returns; [apply _| |].
  - keeps_steps.
  - intros e s1. apply print_then_returns.
Qed.

(** X8.  [call_sd_txt2img] never raises, whatever the server, the codec
    and the disk do: it answers [True] when it has written the output
    file and [False] with every file as it was; the scene is not
    touched. *)
Theorem call_sd_txt2img_never_raises prompt out url s :
  ∃ b s',
    call_sd_txt2img E prompt out url s = (Ok b, s')
    ∧ scene s' = scene s
    ∧ if b then ∃ png, files s' = <[out := png]> (files s)
      else files s' = files s.
Proof.
  destruct (txt2img_returns prompt out url s) as (b & s' & Hrun & Hsc & _).
  exists b, s'. split_and!; [exact Hrun|exact Hsc|].
  pose proof (txt2img_honest prompt out url s) as Hh.
  rewrite Hrun in Hh. simpl in Hh. by destruct b.
Qed.

Lemma rev_app_app a b c :
  String.rev_app (a +:+ b) c = String.rev_app b (String.rev_app a c).
Proof. revert c. induction a as [|x a IH]; intros c; simpl; [done|]. apply IH. Qed.

Lemma rstrip_slash_slash url : Py.rstrip_slash (url +:+ "/") = Py.rstrip_slash url.
Proof. unfold Py.rstrip_slash, String.rev. by rewrite rev_app_app. Qed.

Lemma truthy_app url tail : url ≠ "" → Py.truthy (Some (url +:+ tail)) = true.
Proof. by destruct url. Qed.

(** X9.  A slash at the end of the API URL makes no difference to either
    texture call: the request goes to the same address. *)
Theorem sd_url_trailing_slash init prompt out url s :
  url ≠ "" →
  _call_stable_diffusion E init prompt out (Some (url +:+ "/")) s
  = _call_stable_diffusion E init prompt out (Some url) s
  ∧ call_sd_txt2img E prompt out (url +:+ "/") s
    = call_sd_txt2img E prompt out url s.
Proof.
  intros Hurl. split.
  - unfold _call_stable_diffusion.
    rewrite truthy_app, truthy_url by done. cbn [negb default from_option].
    unfold sd_round_trip, id. by rewrite rstrip_slash_slash.
  - unfold call_sd_txt2img. by rewrite rstrip_slash_slash.
Qed.

(** X10.  The two texture calls order their last steps differently.  When
    the first image of the response does not decode, [call_sd_txt2img] has
    already made the output directory and leaves it behind, while
    [_call_stable_diffusion] decodes first and makes nothing.  Both answer
    [False] and write no file. *)
Theorem undecodable_image_leaves_directory prompt out url s img :
  url ≠ "" →
  requests_importable E = true →
  (∀ timeout,
     images_present
       (http_post E (Py.rstrip_slash url +:+ "/sdapi/v1/txt2img")
          (JObj (base_payload prompt)) timeout) img) →
  b64decode E img = None →
  can_write E s out = true →
  ∃ s1 s2,
    call_sd_txt2img E prompt out url s = (Ok false, s1)
    ∧ dirs s1 = dirs s ∪ list_to_set (Pathlib.ancestors (Pathlib.parent out))
    ∧ files s1 = files s
    ∧ _call_stable_diffusion E None prompt out (Some url) s = (Ok false, s2)
    ∧ dirs s2 = dirs s
    ∧ files s2 = files s.
Proof.
  intros Hurl Hreq Hhttp Hdec Hcan.
  destruct (Hhttp 180) as (st1 & kvs1 & rest1 & Hhttp1 & Hst1 & Himg1).
  destruct (Hhttp 120) as (st2 & kvs2 & rest2 & Hhttp2 & Hst2 & Himg2).
  eexists _, _. split_and!.
  - unfold call_sd_txt2img, _safe_requests. unfold base_payload in Hhttp1.
    erewrite bind_ok by reflexivity. rewrite Hreq.
    change (negb true) with false. cbv iota zeta.
    erewrite try_raise; [reflexivity|].
    erewrite bind_ok by (unfold Requests.post; by rewrite Hhttp1).
    erewrite bind_ok by (by apply status_ok_passes).
    erewrite bind_ok by reflexivity.
    erewrite bind_ok by (simpl; rewrite Himg1; reflexivity).
    simpl.
    erewrite bind_ok by reflexivity.
    erewrite bind_ok by (by apply mkdir_parent_ok).
    apply bind_raise. simpl. by rewrite Hdec.
  - done.
  - done.
  - rewrite (call_sd_with_request E None prompt out url s
               "/sdapi/v1/txt2img" (base_payload prompt)) by done.
    unfold sd_round_trip.
    erewrite try_raise; [reflexivity|].
    erewrite bind_ok by (unfold Requests.post; by rewrite Hhttp2).
    erewrite bind_ok by (by apply status_ok_passes).
    erewrite bind_ok by reflexivity.
    erewrite bind_ok by (simpl; rewrite Himg2; reflexivity).
    simpl.
    erewrite bind_ok by reflexivity.
    apply bind_raise. simpl. by rewrite Hdec.
  - done.
  - done.
Qed.

(** X11.  [call_sd_txt2img] on a response with status below 400 whose
    first image decodes, with an output path that can be written: one
    request goes to the txt2img endpoint with a timeout of 180 seconds,
    the parent directory is made, the decoded bytes are written at the
    output path and nowhere else, the path is reported, and the answer is
    [True]. *)
Theorem call_sd_txt2img_writes_first_image prompt out url s img png :
  requests_importable E = true →
  images_present
    (http_post E (Py.rstrip_slash url +:+ "/sdapi/v1/txt2img")
       (JObj (base_payload prompt)) 180) img →
  b64decode E img = Some png →
  can_write E s out = true →
  ∃ s',
    call_sd_txt2img E prompt out url s = (Ok true, s')
    ∧ files s' = <[out := png]> (files s)
    ∧ dirs s' = dirs s ∪ list_to_set (Pathlib.ancestors (Pathlib.parent out))
    ∧ sent s'
      = sent s ++ [(Py.rstrip_slash url +:+ "/sdapi/v1/txt2img",
                    JObj (base_payload prompt), 180)]
    ∧ stdout s'
      = stdout s ++ ["[Interstellar] Wrote AI texture: " +:+ Pathlib.str out]
    ∧ scene s' = scene s.
Proof.
  intros Hreq (status & kvs & rest & Hhttp & Hst & Himg) Hdec Hcan.
  set (req := (Py.rstrip_slash url +:+ "/sdapi/v1/txt2img",
               JObj (base_payload prompt), 180)).
  eexists. split.
  - unfold call_sd_txt2img, _safe_requests. unfold base_payload in Hhttp.
    erewrite bind_ok by reflexivity. rewrite Hreq.
    change (negb true) with false. cbv iota zeta.
    apply try_ok.
    erewrite bind_ok by (unfold Requests.post; by rewrite Hhttp).
    erewrite bind_ok by (by apply status_ok_passes).
    erewrite bind_ok by reflexivity.
    erewrite bind_ok by (simpl; rewrite Himg; reflexivity).
    simpl.
    erewrite bind_ok by reflexivity.
    erewrite bind_ok by (by apply mkdir_parent_ok).
    erewrite bind_ok by (simpl; rewrite Hdec; reflexivity).
    erewrite bind_ok
      by (by apply (write_after_mkdir_ok E out png (add_sent req s))).
    reflexivity.
  - by split_and!.
Qed.

End txt2img.

(** ** [_render_viewport_snapshot] *)

Section render.
Context (E : Env).
Import SetupHoudiniAi.

(** X12.  Without /out, or on a host that has neither OpenGL render node
    type, the snapshot is skipped: the answer is [False], no node is made
    and the disk is not touched. *)
Theorem snapshot_skipped out cam geo s :
  hou_importable E = true →
  scene s !! "/out" = None ∨ snapshot_rop_type E = None →
  ∃ s',
    _render_viewport_snapshot E out cam geo s = (Ok false, s')
    ∧ scene s' = scene s ∧ files s' = files s ∧ dirs s' = dirs s.
Proof.
  intros Hhou Hcase. unfold _render_viewport_snapshot.
  erewrite bind_ok by (by apply import_hou_ok).
  destruct (scene s !! "/out") as [o|] eqn:Hout.
  - destruct Hcase as [?|Hty]; [done|].
    erewrite bind_ok by (by eapply node_at_ok). cbv beta iota.
    erewrite bind_ok by reflexivity.
    unfold snapshot_rop_type in Hty.
    destruct (bool_decide (is_Some (catalog E !! "opengl"))); [done|].
    erewrite bind_ok by (erewrite bind_ok by reflexivity; reflexivity).
    destruct (bool_decide (is_Some (catalog E !! "ogl"))); [done|].
    by eexists.
  - exists s. split; [|done].
    erewrite bind_ok by (unfold Hou.node_at; by rewrite Hout). reflexivity.
Qed.

(** X13.  With /out, a render node type that has the five parameters,
    and the snapshot node absent or of that type: the node is found or
    made and given the camera, the picture path, the frame range and the
    1024 by 1024 resolution, and the call returns whatever the renderer
    does.  The answer is [False] when the renderer raises, [True] when it
    has written the picture, and when it has written nothing the answer
    says whether the path was on disk before: a picture of an earlier run
    counts as a snapshot. *)
Theorem snapshot_answer out cam geo s o ty ps :
  hou_importable E = true →
  scene s !! "/out" = Some o →
  snapshot_rop_type E = Some ty →
  catalog E !! ty = Some ps →
  (∀ p, p ∈ ["camera"; "vm_picture"; "trange"; "res1"; "res2"] → p ∈ ps) →
  (scene s !! Examples.snapshot_rop = None
   ∨ ∃ n, scene s !! Examples.snapshot_rop = Some n ∧ ntype n = ty) →
  ∃ s' rop,
    _render_viewport_snapshot E out cam geo s
    = (Ok match rop_render E out with
          | RenderRaises _ => false
          | RenderDone None => Pathlib.is_dir s out || Pathlib.is_file s out
          | RenderDone (Some _) => true
          end, s')
    ∧ scene s' = <[Examples.snapshot_rop := rop]> (scene s)
    ∧ ntype rop = ty
    ∧ nparms rop !! "camera" = Some (VStr cam)
    ∧ nparms rop !! "vm_picture" = Some (VStr (Pathlib.str out))
    ∧ nparms rop !! "trange" = Some (VInt 0)
    ∧ nparms rop !! "res1" = Some (VInt 1024)
    ∧ nparms rop !! "res2" = Some (VInt 1024).
Proof.
  intros Hhou Hout Hty Hcat Hps Hrop.
  unfold _render_viewport_snapshot.
  erewrite bind_ok by (by apply import_hou_ok).
  erewrite bind_ok by (by eapply node_at_ok). cbv beta iota.
  erewrite bind_ok by reflexivity.
  assert ((if bool_decide (is_Some (catalog E !! "opengl"))
           then mret (Some "opengl")
           else Hou.nodeType E "ogl" ≫= λ ogl : bool,
                mret (if ogl then Some "ogl" else None)) s
          = (Ok (Some ty), s)) as Hchoice.
  { unfold snapshot_rop_type in Hty.
    destruct (bool_decide (is_Some (catalog E !! "opengl"))); [by simplify_eq|].
    erewrite bind_ok by reflexivity.
    destruct (bool_decide (is_Some (catalog E !! "ogl"))); by simplify_eq. }
  erewrite bind_ok by exact Hchoice. cbv beta iota.
  change (Hou.child_path "/out" "interstellar_snapshot")
    with Examples.snapshot_rop in *.
  assert (∃ n0 s0,
            _get_or_create E "/out" ty "interstellar_snapshot" s
            = (Ok Examples.snapshot_rop, s0)
            ∧ scene s0 = <[Examples.snapshot_rop := n0]> (scene s)
            ∧ ntype n0 = ty ∧ dirs s0 = dirs s ∧ files s0 = files s)
    as (n0 & s0 & Hget & Hs0 & Hty0 & Hd0 & Hf0).
  { destruct Hrop as [Hnone | (n & Hn & Htyn)].
    - eexists _, _. split; [by eapply get_or_create_new|]. done.
    - exists n, s. split; [apply get_or_create_found; eauto|].
      by rewrite insert_id. }
  erewrite bind_ok by exact Hget.
  assert (scene s0 !! Examples.snapshot_rop = Some n0) as Hn0
    by (rewrite Hs0; apply lookup_insert_eq).
  assert (catalog E !! ntype n0 = Some ps) as Hc0 by (by rewrite Hty0).
  do 5 parm_step Hps.
  set (rop := Hou.store_parm "res2" _ _).
  set (s1 := set_scene _ s0).
  assert (scene s1 !! Examples.snapshot_rop = Some rop) as Hrop1
    by apply lookup_insert_eq.
  exists (match rop_render E out with
          | RenderRaises e =>
              add_stdout ("[Interstellar] Snapshot render failed: " +:+ emsg e) s1
          | RenderDone None => s1
          | RenderDone (Some data) =>
              set_files (<[out := data]> (files s1))
                (set_dirs (dirs s1 ∪ list_to_set
                                       (Pathlib.ancestors (Pathlib.parent out)))
                   s1)
          end), rop.
  split.
  - unfold try_except, mbind, M_bind, Pathlib.render, Pathlib.path_exists.
    rewrite Hrop1.
    destruct (rop_render E out) as [e|[data|]]; simpl.
    + done.
    + unfold Pathlib.is_file. simpl. rewrite lookup_insert_eq.
      rewrite (bool_decide_eq_true_2 (is_Some (Some data))) by eauto.
      by rewrite orb_true_r.
    + unfold Pathlib.is_dir, Pathlib.is_file. simpl. by rewrite Hd0, Hf0.
  - assert (scene s1 = <[Examples.snapshot_rop := rop]> (scene s)) as Hs1.
    { unfold s1. cbn [scene set_scene]. rewrite Hs0.
      by rewrite !insert_insert_eq. }
    split_and!;
      [by destruct (rop_render E out) as [e|[data|]]
      |by rewrite ?store_parm_type
      |unfold rop; cbn [nparms Hou.store_parm];
       repeat (rewrite lookup_insert_ne by done); apply lookup_insert_eq..].
Qed.

End render.

(** ** [_try_stablehoudini_pdg] *)

Section pdg.
Context (E : Env).
Import SetupHoudiniAi.

Lemma offline_print line : keeps offline (print line).
Proof. by intros s. Qed.

Lemma offline_scene_op {A} (m : M A) : keeps scene_only m → keeps offline m.
Proof. apply scene_only_offline. Qed.

Lemma offline_create_first_known topnet types :
  keeps offline (create_first_known E topnet types).
Proof.
  induction types as [|t types IH]; simpl; [apply keeps_ret, _|].
  apply keeps_bind; [apply _|apply offline_scene_op, so_nodeType|intros known].
  destruct known; [|exact IH].
  apply keeps_bind; [apply _|apply offline_scene_op, so_createNode|intros ?].
  apply keeps_ret, _.
Qed.

Lemma offline_set_parm_if_present h name v :
  keeps offline (set_parm_if_present E h name v).
Proof. apply offline_scene_op, so_set_parm_if_present. Qed.

(** X14.  [_try_stablehoudini_pdg] is safe to call on every host and
    scene: it never raises, and it sends nothing and writes nothing. *)
Theorem pdg_never_raises cockpit_geo_path s :
  ∃ s',
    _try_stablehoudini_pdg E cockpit_geo_path s = (Ok (), s')
    ∧ offline s s'.
Proof.
  unfold _try_stablehoudini_pdg.
  match goal with |- ∃ s', try_except ?body ?h s = _ ∧ _ =>
    destruct (try_returns offline body h s) as ([] & s' & Hrun & Hoff)
  end.
  - pose proof offline_print. pose proof offline_create_first_known.
    pose proof offline_set_parm_if_present.
    pose proof (λ p, offline_scene_op _ (so_node_at p)).
    pose proof (λ p n, offline_scene_op _ (so_node p n)).
    pose proof (λ p t n, offline_scene_op _ (so_createNode E p t n)).
    pose proof (λ h i x, offline_scene_op _ (so_setInput h i x)).
    pose proof (λ h, offline_scene_op _ (so_layoutChildren h)).
    pose proof (offline_scene_op _ (so_import_hou E)).
    unfold none_has_no. keeps_steps.
  - intros e s1. eexists _, _. split; [reflexivity|done].
  - by exists s'.
Qed.

(** X15.  On a host without a StableHoudini node type the PDG step is
    skipped with a printed line, but not without a trace: the TOP network
    /obj/stablehoudini_pdg has been made by then and stays in the scene. *)
Theorem pdg_skip_leaves_topnet cockpit_geo_path s :
  hou_importable E = true →
  is_Some (scene s !! "/obj") →
  scene s !! "/obj/stablehoudini_pdg" = None →
  is_Some (catalog E !! "topnet") →
  catalog E !! "sd_img2img" = None →
  catalog E !! "top_stable_diffusion" = None →
  _try_stablehoudini_pdg E cockpit_geo_path s
  = (Ok (),
     add_stdout
       "[Interstellar] StableHoudini TOP node not found; skipping PDG setup."
       (set_scene
          (<["/obj/stablehoudini_pdg" := new_node "topnet"]> (scene s)) s)).
Proof.
  intros Hhou [o Hobj] Hfree [ps Htop] Hsd1 Hsd2.
  unfold _try_stablehoudini_pdg. apply try_ok.
  erewrite bind_ok by (by apply import_hou_ok).
  erewrite bind_ok by (by eapply node_at_ok).
  erewrite bind_ok
    by (unfold Hou.node, Hou.node_at;
        change (Hou.child_path "/obj" "stablehoudini_pdg")
          with "/obj/stablehoudini_pdg";
        by rewrite Hobj, Hfree).
  cbv beta iota.
  erewrite bind_ok.
  2:{ erewrite bind_ok by (by eapply node_at_ok). cbv beta iota.
      unfold Hou.createNode. rewrite Hobj, Htop.
      rewrite unique_path_free by exact Hfree. reflexivity. }
  erewrite bind_ok.
  2:{ cbn [create_first_known]. unfold Hou.nodeType.
      erewrite bind_ok by reflexivity.
      rewrite Hsd1, bool_decide_eq_false_2 by (by intros [? ?]).
      erewrite bind_ok by reflexivity.
      rewrite Hsd2, bool_decide_eq_false_2 by (by intros [? ?]).
      reflexivity. }
  reflexivity.
Qed.

(** X16.  On a host that cannot make a TOP network the failure of
    [createNode] is caught: the step prints the host's message and leaves
    the scene as it was. *)
Theorem pdg_reports_host_error cockpit_geo_path s :
  hou_importable E = true →
  is_Some (scene s !! "/obj") →
  scene s !! "/obj/stablehoudini_pdg" = None →
  catalog E !! "topnet" = None →
  _try_stablehoudini_pdg E cockpit_geo_path s
  = (Ok (),
     add_stdout
       "[Interstellar] StableHoudini PDG setup skipped: Invalid node type name: topnet"
       s).
Proof.
  intros Hhou [o Hobj] Hfree Htop.
  unfold _try_stablehoudini_pdg. erewrite try_raise; cycle 1.
  { erewrite bind_ok by (by apply import_hou_ok).
    erewrite bind_ok by (by eapply node_at_ok).
    erewrite bind_ok
      by (unfold Hou.node, Hou.node_at;
          change (Hou.child_path "/obj" "stablehoudini_pdg")
            with "/obj/stablehoudini_pdg";
          by rewrite Hobj, Hfree).
    cbv beta iota. apply bind_raise.
    erewrite bind_ok by (by eapply node_at_ok). cbv beta iota.
    unfold Hou.createNode. by rewrite Hobj, Htop. }
  reflexivity.
Qed.

End pdg.

(** ** The shader and its assignment *)

Section shader.
Context (E : Env).
Import SetupHoudiniAi.

Lemma parm_run h name s n ps :
  scene s !! h = Some n →
  catalog E !! ntype n = Some ps →
  Hou.parm E h name s
  = (Ok (if bool_decide (name ∈ ps) then Some (h, name) else None), s).
Proof.
  intros Hn Hps. unfold Hou.parm, Hou.has_parm. by rewrite Hn, Hps.
Qed.

Lemma set_parm_run h name v s n ps :
  scene s !! h = Some n →
  catalog E !! ntype n = Some ps →
  set_parm E h name v s
  = if bool_decide (name ∈ ps)
    then (Ok (), set_scene (<[h := Hou.store_parm name v n]> (scene s)) s)
    else (Raise (Exn AttributeError "'NoneType' object has no attribute 'set'"),
          s).
Proof.
  intros Hn Hps. unfold set_parm.
  erewrite bind_ok by (by eapply parm_run).
  case_bool_decide; [|done].
  unfold Hou.parm_set, Hou.update_node. by rewrite Hn.
Qed.

(** The guarded assignment stores the value when the node has the
    parameter and does nothing when it has not. *)
Lemma set_parm_if_present_run h name v s n ps :
  scene s !! h = Some n →
  catalog E !! ntype n = Some ps →
  set_parm_if_present E h name v s
  = (Ok (),
     if bool_decide (name ∈ ps)
     then set_scene (<[h := Hou.store_parm name v n]> (scene s)) s
     else s).
Proof.
  intros Hn Hps. unfold set_parm_if_present.
  erewrite bind_ok by (by eapply parm_run).
  case_bool_decide as Hin; [|done].
  rewrite (set_parm_run h name v s n ps Hn Hps).
  by rewrite bool_decide_eq_true_2.
Qed.

Lemma set_parm_if_present_node h name v s n ps :
  scene s !! h = Some n →
  catalog E !! ntype n = Some ps →
  ∃ s',
    set_parm_if_present E h name v s = (Ok (), s')
    ∧ scene s' = <[h := stored_if ps name v n]> (scene s)
    ∧ scene_only s s'.
Proof.
  intros Hn Hps. rewrite (set_parm_if_present_run h name v s n ps Hn Hps).
  unfold stored_if. case_bool_decide.
  - eexists. split; [reflexivity|]. done.
  - exists s. split; [reflexivity|]. by rewrite insert_id.
Qed.

Lemma stored_if_type ps name v n : ntype (stored_if ps name v n) = ntype n.
Proof. unfold stored_if. by case_bool_decide. Qed.

Lemma elem_of_pair (x a b : string) : x ∈ [a; b] ↔ x = a ∨ x = b.
Proof. rewrite !elem_of_cons, elem_of_nil. tauto. Qed.

Ltac read_parm :=
  simpl;
  repeat first [ rewrite lookup_insert_eq
               | rewrite lookup_insert_ne by done
               | rewrite lookup_empty ];
  first [done | exfalso; intuition (discriminate || congruence)].

Lemma texture_parm_stored ps texture name :
  nparms
    (stored_if ps "basecolortex_texture" (VStr texture)
       (stored_if ps "basecolor_texture" (VStr texture)
          (stored_if ps "basecolortex_useTexture" (VInt 1)
             (stored_if ps "basecolor_useTexture" (VInt 1)
                (new_node (shader_type E)))))) !! name
  = texture_parm ps texture name.
Proof.
  unfold texture_parm, stored_if.
  rewrite !(bool_decide_ext _ _ (elem_of_pair name _ _)).
  destruct (decide (name = "basecolor_useTexture")) as [->|N1];
    [|destruct (decide (name = "basecolortex_useTexture")) as [->|N2];
      [|destruct (decide (name = "basecolor_texture")) as [->|N3];
        [|destruct (decide (name = "basecolortex_texture")) as [->|N4]]]];
    repeat case_bool_decide; read_parm.
Qed.

Lemma for_each_stored h names (v : string → pval) s n ps :
  scene s !! h = Some n →
  catalog E !! ntype n = Some ps →
  ∃ s',
    for_each names (λ name, set_parm_if_present E h name (v name)) s
    = (Ok (), s')
    ∧ scene s'
      = <[h := foldl (λ n name, stored_if ps name (v name) n) n names]> (scene s)
    ∧ scene_only s s'.
Proof.
  revert s n. induction names as [|name names IH]; intros s n Hn Hps.
  - exists s. split_and!; [done| |done]. simpl. by rewrite insert_id.
  - destruct (set_parm_if_present_node h name (v name) s n ps Hn Hps)
      as (s1 & Hrun1 & Hs1 & Hso1).
    destruct (IH s1 (stored_if ps name (v name) n)) as (s2 & Hrun2 & Hs2 & Hso2).
    { rewrite Hs1. apply lookup_insert_eq. }
    { by rewrite stored_if_type. }
    exists s2. cbn [for_each foldl]. erewrite bind_ok by exact Hrun1.
    split_and!; [exact Hrun2| |by etransitivity].
    rewrite Hs2, Hs1. apply insert_insert_eq.
Qed.

(** X17.  With /mat in the scene and no shader yet, the shader is made as
    /mat/ship_mat, of the Principled Shader 2.0 type when the host has it
    and of the legacy type otherwise.  When a texture path is given and is
    on disk, each of the four texture parameters that the shader type has
    is set (the switches to 1, the paths to the texture path) and the ones
    it has not are passed over; without a texture on disk no parameter is
    set. *)
Theorem shader_texture_parms tex s m ps :
  hou_importable E = true →
  scene s !! "/mat" = Some m →
  scene s !! "/mat/ship_mat" = None →
  catalog E !! shader_type E = Some ps →
  ∃ s' n,
    _create_or_update_material E tex s = (Ok "/mat/ship_mat", s')
    ∧ scene s' = <["/mat/ship_mat" := n]> (scene s)
    ∧ scene_only s s'
    ∧ ntype n = shader_type E
    ∧ ∀ name,
        nparms n !! name
        = if snapshot_on_disk s tex
          then texture_parm ps (Pathlib.str (default [] tex)) name
          else None.
Proof.
  intros Hhou Hmat Hfree Hps.
  unfold _create_or_update_material.
  erewrite bind_ok by (by apply import_hou_ok).
  erewrite bind_ok by (by eapply node_at_ok). cbv beta iota.
  erewrite bind_ok by reflexivity.
  erewrite bind_ok by reflexivity. cbv zeta.
  fold (shader_type E).
  erewrite bind_ok by (by eapply get_or_create_new).
  change (Hou.child_path "/mat" "ship_mat") with "/mat/ship_mat".
  set (n0 := new_node (shader_type E)).
  set (s1 := set_scene _ s).
  assert (scene s1 !! "/mat/ship_mat" = Some n0) as Hn0
    by apply lookup_insert_eq.
  assert (scene_only s s1) as Hso1 by done.
  assert (scene s1 = <["/mat/ship_mat" := n0]> (scene s)) as Hs1 by done.
  clearbody s1.
  assert (snapshot_on_disk s1 tex = snapshot_on_disk s tex) as Hdisk.
  { destruct Hso1 as (Hf & Hd & _). unfold snapshot_on_disk.
    destruct tex as [p|]; [|done].
    unfold Pathlib.is_dir, Pathlib.is_file. by rewrite Hf, Hd. }
  destruct (snapshot_on_disk s tex) eqn:Hon.
  - destruct tex as [p|]; [|done]. cbn [default from_option]. unfold id.
    simpl in Hdisk.
    destruct (for_each_stored "/mat/ship_mat"
                ["basecolor_useTexture"; "basecolortex_useTexture"]
                (λ _, VInt 1) s1 n0 ps Hn0 Hps)
      as (s2 & Hrun2 & Hs2 & Hso2).
    assert (∃ n2, scene s2 !! "/mat/ship_mat" = Some n2
                  ∧ ntype n2 = shader_type E
                  ∧ scene s2 = <["/mat/ship_mat" := n2]> (scene s1))
      as (n2 & Hn2 & Hty2 & Hs2').
    { eexists. split_and!; [rewrite Hs2; apply lookup_insert_eq| |exact Hs2].
      cbn [foldl]. by rewrite !stored_if_type. }
    destruct (for_each_stored "/mat/ship_mat"
                ["basecolor_texture"; "basecolortex_texture"]
                (λ _, VStr (Pathlib.str p)) s2 n2 ps Hn2)
      as (s3 & Hrun3 & Hs3 & Hso3); [by rewrite Hty2|].
    erewrite bind_ok
      by (erewrite bind_ok by reflexivity; rewrite Hdisk;
          erewrite bind_ok by exact Hrun2; exact Hrun3).
    eexists s3, _. split_and!; [reflexivity| |by repeat (etransitivity; [eassumption|])|..].
    + rewrite Hs3, Hs2', Hs1. rewrite !insert_insert_eq. reflexivity.
    + cbn [foldl]. rewrite !stored_if_type. by rewrite Hty2.
    + intros name. cbn [foldl].
      assert (n2 = foldl (λ n name, stored_if ps name (VInt 1) n) n0
                     ["basecolor_useTexture"; "basecolortex_useTexture"])
        as ->.
      { rewrite Hs2 in Hn2. rewrite lookup_insert_eq in Hn2. congruence. }
      apply texture_parm_stored.
  - exists s1, n0. split_and!; [|done|done|done|intros name; apply lookup_empty].
    destruct tex as [p|]; [|reflexivity].
    erewrite bind_ok; [reflexivity|].
    erewrite bind_ok by reflexivity.
    simpl in Hdisk. by rewrite Hdisk.
Qed.

Lemma store_parm_lookup ms (n : Node) s :
  scene (set_scene (<[ms := n]> (scene s)) s) !! ms = Some n.
Proof. apply lookup_insert_eq. Qed.

(** X18.  [_assign_material_to_geo] on a material SOP of the scene looks
    for the parameter shop_materialpath1 only.  Without it nothing is done.
    With it, the three parameters are set in turn, and a SOP type that
    lacks num_materials or group1 makes the call raise [AttributeError], in
    the second case with num_materials already set. *)
Theorem assign_material_cases material_node_path ms s n ps :
  scene s !! ms = Some n →
  catalog E !! ntype n = Some ps →
  let missing := Exn AttributeError "'NoneType' object has no attribute 'set'" in
  let n1 := Hou.store_parm "num_materials" (VInt 1) n in
  let n2 := Hou.store_parm "group1" (VStr "") n1 in
  let n3 := Hou.store_parm "shop_materialpath1" (VStr material_node_path) n2 in
  _assign_material_to_geo E material_node_path (Some ms) s
  = if bool_decide ("shop_materialpath1" ∈ ps) then
      if bool_decide ("num_materials" ∈ ps) then
        if bool_decide ("group1" ∈ ps) then
          (Ok (), set_scene (<[ms := n3]> (scene s)) s)
        else (Raise missing, set_scene (<[ms := n1]> (scene s)) s)
      else (Raise missing, s)
    else (Ok (), s).
Proof.
  intros Hn Hps missing n1 n2 n3. unfold _assign_material_to_geo.
  erewrite bind_ok by (by eapply parm_run).
  case_bool_decide as Hshop; [|done].
  case_bool_decide as Hnum; cycle 1.
  { apply bind_raise. rewrite (set_parm_run ms _ _ s n ps Hn Hps).
    by rewrite bool_decide_eq_false_2. }
  erewrite bind_ok
    by (rewrite (set_parm_run ms _ _ s n ps Hn Hps);
        by rewrite bool_decide_eq_true_2).
  fold n1.
  pose proof (store_parm_lookup ms n1 s) as Hn1.
  case_bool_decide as Hgroup; cycle 1.
  { apply bind_raise. rewrite (set_parm_run ms _ _ _ n1 ps Hn1 Hps).
    by rewrite bool_decide_eq_false_2. }
  erewrite bind_ok
    by (rewrite (set_parm_run ms _ _ _ n1 ps Hn1 Hps);
        by rewrite bool_decide_eq_true_2).
  fold n2. rewrite set_scene_twice. cbn [scene set_scene].
  rewrite insert_insert_eq.
  pose proof (store_parm_lookup ms n2 s) as Hn2.
  rewrite (set_parm_run ms _ _ _ n2 ps Hn2 Hps).
  rewrite bool_decide_eq_true_2 by done.
  rewrite set_scene_twice. cbn [scene set_scene].
  by rewrite insert_insert_eq.
Qed.

End shader.

(** ** scripts/generate_interstellar_ship.py: [build_ship] *)

Section build.
Context (E : Env).
Import SetupHoudiniAi GenerateInterstellarShip.

Lemma so_get_or_create_ship parent ty name :
  keeps scene_only (get_or_create E parent ty name).
Proof. apply so_get_or_create. Qed.

Lemma so_ship_network : keeps scene_only (ship_network E).
Proof.
  pose proof so_get_or_create_ship.
  unfold ship_network, none_has_no, enumerate. cbv zeta. cbn [imap].
  keeps_steps.
Qed.

Lemma so_ship_shader : keeps scene_only (ship_shader E).
Proof.
  pose proof so_get_or_create_ship.
  unfold ship_shader, none_has_no. cbv zeta. keeps_steps.
Qed.

Lemma so_assign_shader mat_sop mat : keeps scene_only (assign_shader E mat_sop mat).
Proof. unfold assign_shader. keeps_steps. Qed.

(** X19.  Without a texture prompt ([None] or the empty string)
    [build_ship] works on the scene and on nothing else: whether it
    returns or raises, no request has been sent, no file or directory made
    and no line printed. *)
Theorem build_ship_without_prompt prompt_for_texture :
  Py.truthy prompt_for_texture = false →
  keeps scene_only (build_ship E prompt_for_texture).
Proof.
  intros Hno. pose proof so_ship_network. pose proof so_ship_shader.
  pose proof so_assign_shader.
  unfold build_ship. rewrite Hno. cbv zeta. keeps_steps.
Qed.

(** The three assignments of [build_ship] on the material SOP. *)
Lemma assign_shader_run mat_sop mat s n ps :
  scene s !! mat_sop = Some n →
  catalog E !! ntype n = Some ps →
  is_Some (scene s !! mat) →
  ∃ s',
    assign_shader E mat_sop mat s = (Ok (), s')
    ∧ scene s'
      = <[mat_sop
          := stored_if ps "shop_materialpath1" (VStr mat)
               (stored_if ps "group1" (VStr "")
                  (stored_if ps "num_materials" (VInt 1) n))]> (scene s)
    ∧ scene_only s s'.
Proof.
  intros Hn Hps Hmat. unfold assign_shader.
  destruct (set_parm_if_present_node E mat_sop "num_materials" (VInt 1)
              s n ps Hn Hps) as (s1 & Hrun1 & Hs1 & Hso1).
  erewrite bind_ok by exact Hrun1.
  set (n1 := stored_if ps "num_materials" (VInt 1) n) in *.
  assert (scene s1 !! mat_sop = Some n1) as Hn1
    by (rewrite Hs1; apply lookup_insert_eq).
  assert (catalog E !! ntype n1 = Some ps) as Hps1
    by (unfold n1; by rewrite stored_if_type).
  destruct (set_parm_if_present_node E mat_sop "group1" (VStr "")
              s1 n1 ps Hn1 Hps1) as (s2 & Hrun2 & Hs2 & Hso2).
  erewrite bind_ok by exact Hrun2.
  set (n2 := stored_if ps "group1" (VStr "") n1) in *.
  assert (scene s2 !! mat_sop = Some n2) as Hn2
    by (rewrite Hs2; apply lookup_insert_eq).
  assert (catalog E !! ntype n2 = Some ps) as Hps2
    by (unfold n2; by rewrite stored_if_type).
  assert (scene s2 = <[mat_sop := n2]> (scene s)) as Hs2'.
  { rewrite Hs2, Hs1. apply insert_insert_eq. }
  assert (scene_only s s2) as Hso by (by etransitivity).
  erewrite bind_ok by (by eapply parm_run).
  unfold stored_if at 1. case_bool_decide as Hshop.
  - erewrite bind_ok by (by eapply parm_run).
    rewrite bool_decide_eq_true_2 by done.
    assert (is_Some (scene s2 !! mat)) as Hmat2.
    { rewrite Hs2'. destruct (decide (mat_sop = mat)) as [->|Hne].
      - rewrite lookup_insert_eq. eauto.
      - by rewrite lookup_insert_ne. }
    erewrite bind_ok by (by apply path_ok).
    unfold Hou.parm_set, Hou.update_node. rewrite Hn2.
    eexists. split_and!; [reflexivity| |done].
    cbn [scene set_scene]. rewrite Hs2'. apply insert_insert_eq.
  - exists s2. by split_and!.
Qed.

(** X20.  The three assignments of [build_ship] on the material SOP are
    guarded one by one: on a SOP and a shader of the scene the block never
    raises, whatever parameters the SOP type has.  It sets those of
    num_materials, group1 and shop_materialpath1 that the type has, the
    last one to the path of the shader, and leaves every other parameter
    and every other node as it was. *)
Theorem assign_shader_never_raises mat_sop mat s n ps :
  scene s !! mat_sop = Some n →
  catalog E !! ntype n = Some ps →
  is_Some (scene s !! mat) →
  ∃ s' n',
    assign_shader E mat_sop mat s = (Ok (), s')
    ∧ scene s' = <[mat_sop := n']> (scene s)
    ∧ (∀ name v,
         (name, v) ∈ [("num_materials", VInt 1); ("group1", VStr "");
                      ("shop_materialpath1", VStr mat)] →
         nparms n' !! name
         = if bool_decide (name ∈ ps) then Some v else nparms n !! name)
    ∧ (∀ name,
         name ∉ ["num_materials"; "group1"; "shop_materialpath1"] →
         nparms n' !! name = nparms n !! name).
Proof.
  intros Hn Hps Hmat.
  destruct (assign_shader_run mat_sop mat s n ps Hn Hps Hmat)
    as (s' & Hrun & Hs' & _).
  eexists s', _. split_and!; [exact Hrun|exact Hs'|..].
  - intros name v Hin. unfold stored_if.
    rewrite !elem_of_cons, elem_of_nil in Hin.
    destruct Hin as [[= -> ->]|[[= -> ->]|[[= -> ->]|[]]]];
      repeat case_bool_decide; simpl;
      repeat first [ rewrite lookup_insert_eq
                   | rewrite lookup_insert_ne by done ];
      done.
  - intros name Hout. unfold stored_if.
    rewrite !not_elem_of_cons in Hout. destruct Hout as (N1 & N2 & N3 & _).
    repeat case_bool_decide; simpl;
      repeat (rewrite lookup_insert_ne by done); done.
Qed.

(** X21.  In a scene without /obj [build_ship] asks the root for a node
    of type obj.  On a host that has no such node type the
    [OperationFailed] of [createNode] ends the call before anything is
    built; without a root node the call ends with an [AttributeError]. *)
Theorem build_ship_without_obj prompt_for_texture s :
  hou_importable E = true →
  scene s !! "/obj" = None →
  catalog E !! "obj" = None →
  build_ship E prompt_for_texture s
  = (Raise match scene s !! "/" with
            | Some _ => Exn OperationFailed "Invalid node type name: obj"
            | None =>
                Exn AttributeError
                  "'NoneType' object has no attribute 'createNode'"
            end, s).
Proof.
  intros Hhou Hobj Hty. unfold build_ship.
  erewrite bind_ok by (by apply import_hou_ok).
  apply bind_raise. unfold ship_network.
  erewrite bind_ok by (unfold Hou.node_at; by rewrite Hobj).
  apply bind_raise. unfold Hou.node_at, Hou.createNode, none_has_no.
  unfold_monad. destruct (scene s !! "/") as [r|] eqn:Hroot; [|done].
  by rewrite Hroot, Hty.
Qed.

End build.

(** ** [build_ship] from start to end *)

Section build_run.
Import Examples SetupHoudiniAi GenerateInterstellarShip.

Lemma ship_network_new E s :
  hou_importable E = true →
  catalog E = full_catalog →
  scene s = new_scene →
  ship_network E s = (Ok (ship, assign_material), set_scene networked s).
Proof. intros Hhou Hcat Hsc. env_state E s. both_sides. Qed.

Lemma ship_shader_networked E s :
  hou_importable E = true →
  catalog E = full_catalog →
  scene s = networked →
  ship_shader E s = (Ok ship_mat, set_scene shaded s).
Proof. intros Hhou Hcat Hsc. env_state E s. both_sides. Qed.

Lemma shaded_facts :
  shaded !! ship_mat = Some (new_node "principledshader::2.0")
  ∧ (∃ a, shaded !! assign_material = Some a ∧ ntype a = "material"
          ∧ nparms a = ∅)
  ∧ (∃ g, shaded !! ship = Some g)
  ∧ (∃ mg, shaded !! ship_merge = Some mg
           ∧ ninputs mg = list_to_map (enumerate ship_parts))
  ∧ shaded !! Hou.child_path ship "opt_reduce" = None
  ∧ (∃ sh, shaded !! Hou.child_path ship "hull_shield_3" = Some sh
           ∧ ntype sh = "tube"
           ∧ nparms sh !! "rad1" = Some (VFloat (80 * 1.2))).
Proof.
  split_and!; [|eexists; split_and?..| |eexists; split_and?];
    vm_compute; reflexivity.
Qed.

(** The texture step never stops the build; it can only change the
    shader. *)
Lemma texture_shader_returns E prompt s m ps :
  scene s !! ship_mat = Some m →
  catalog E !! ntype m = Some ps →
  ∃ s' m',
    texture_shader E prompt ship_mat s = (Ok (), s')
    ∧ scene s' = <[ship_mat := m']> (scene s)
    ∧ ntype m' = ntype m.
Proof.
  intros Hm Hps. unfold texture_shader. cbv zeta.
  match goal with |- context [call_sd_txt2img E ?p ?o ?u] =>
    destruct (txt2img_returns E p o u s) as ([|] & s1 & Hrun & Hs1 & _)
  end.
  - erewrite bind_ok by exact Hrun. rewrite <- Hs1 in Hm.
    destruct (for_each_stored E ship_mat
                ["basecolor_useTexture"; "basecolortex_useTexture"]
                (λ _, VInt 1) s1 m ps Hm Hps)
      as (s2 & Hrun2 & Hs2 & _).
    erewrite bind_ok by exact Hrun2.
    match type of Hs2 with _ = <[_ := ?n]> _ =>
      assert (scene s2 !! ship_mat = Some n) as Hn2
        by (rewrite Hs2; apply lookup_insert_eq);
      assert (ntype n = ntype m) as Hty2
        by (cbn [foldl]; by rewrite !stored_if_type)
    end.
    match goal with |- context [for_each ?names (λ name, set_parm_if_present E _ name ?v)] =>
      destruct (for_each_stored E ship_mat names (λ _, v) s2 _ ps Hn2)
        as (s3 & Hrun3 & Hs3 & _); [by rewrite Hty2|]
    end.
    eexists s3, _. split_and!; [exact Hrun3| |].
    + rewrite Hs3, Hs2, Hs1. apply insert_insert_eq.
    + cbn [foldl]. by rewrite !stored_if_type.
  - erewrite bind_ok by exact Hrun.
    exists s1, m. split_and!; [done| |done]. rewrite Hs1. by rewrite insert_id.
Qed.

Lemma update_node_run h f s n :
  scene s !! h = Some n →
  ∃ s',
    Hou.update_node h f s = (Ok (), s')
    ∧ scene s' = <[h := f n]> (scene s).
Proof.
  intros Hn. unfold Hou.update_node. rewrite Hn. by eexists.
Qed.

Lemma ship_paths_differ :
  ship ≠ assign_material ∧ ship ≠ ship_mat ∧ ship ≠ ship_merge
  ∧ assign_material ≠ ship_mat ∧ assign_material ≠ ship_merge
  ∧ ship_mat ≠ ship_merge
  ∧ Hou.child_path ship "opt_reduce" ≠ ship
  ∧ Hou.child_path ship "opt_reduce" ≠ assign_material
  ∧ Hou.child_path ship "opt_reduce" ≠ ship_mat.
Proof. split_and!; discriminate. Qed.

(** X22.  [build_ship] on a new scene of a host that has every node type
    and parameter the script uses: the build completes for every texture
    prompt, whatever the server, the codec and the disk do.  The merge node
    then takes the ten parts in the order core, three shields, nozzles,
    plasma cores, ring, cone; the material SOP points at the shader
    /mat/ship_mat and carries the display and render flags; and, unlike the
    ship of [setup_interstellar_ai], this one has no polyreduce node. *)
Theorem build_ship_completes E prompt_for_texture s :
  hou_importable E = true →
  catalog E = full_catalog →
  scene s = new_scene →
  ∃ s' mg a,
    build_ship E prompt_for_texture s = (Ok (), s')
    ∧ scene s' !! ship_merge = Some mg
    ∧ ninputs mg = list_to_map (enumerate ship_parts)
    ∧ scene s' !! assign_material = Some a
    ∧ nparms a !! "shop_materialpath1" = Some (VStr ship_mat)
    ∧ ndisplay a = true ∧ nrender a = true
    ∧ has_type (scene s') ship_mat "principledshader::2.0"
    ∧ scene s' !! Hou.child_path ship "opt_reduce" = None.
Proof.
  intros Hhou Hcat Hsc.
  destruct ship_paths_differ as (D1 & D2 & D3 & D4 & D5 & D6 & D7 & D8 & D9).
  destruct shaded_facts
    as (Hmat0 & (a0 & Ha0 & Haty & _) & (g0 & Hg0) & (mg & Hmg & Hins) & Hnored & _).
  unfold build_ship.
  erewrite bind_ok by (by apply import_hou_ok).
  (* the network *)
  destruct (set_scene_state networked s) as (s1 & Heq & Hs1 & _).
  pose proof (ship_network_new E s Hhou Hcat Hsc) as Hrun.
  rewrite Heq in Hrun. clear Heq.
  erewrite bind_ok by exact Hrun. clear Hrun. cbv zeta. cbn [fst snd].
  (* the shader *)
  destruct (set_scene_state shaded s1) as (s2 & Heq & Hs2 & _).
  pose proof (ship_shader_networked E s1 Hhou Hcat Hs1) as Hrun.
  rewrite Heq in Hrun. clear Heq.
  erewrite bind_ok by exact Hrun. clear Hrun.
  (* the texture *)
  destruct (full_catalog_provides E "principledshader::2.0" [] Hcat eq_refl)
    as (psh & Hpsh & _).
  assert (∃ s3 m',
            (if Py.truthy prompt_for_texture
             then texture_shader E (default "" prompt_for_texture) ship_mat
             else mret ()) s2 = (Ok (), s3)
            ∧ scene s3 = <[ship_mat := m']> shaded
            ∧ ntype m' = "principledshader::2.0")
    as (s3 & m' & Hrun & Hs3 & Hmty).
  { destruct (Py.truthy prompt_for_texture).
    - destruct (texture_shader_returns E (default "" prompt_for_texture) s2
                  (new_node "principledshader::2.0") psh)
        as (s3 & m' & Hrun & Hs3 & Hmty); [by rewrite Hs2|exact Hpsh|].
      exists s3, m'. rewrite Hs2 in Hs3. split_and!; assumption.
    - exists s2, (new_node "principledshader::2.0").
      split_and!; [reflexivity| |reflexivity].
      rewrite Hs2. rewrite insert_id by exact Hmat0. reflexivity. }
  erewrite bind_ok by exact Hrun. clear Hrun.
  (* the assignment *)
  destruct (full_catalog_provides E "material"
              ["num_materials"; "group1"; "shop_materialpath1"] Hcat eq_refl)
    as (psm & Hpsm & Hin).
  destruct (assign_shader_run E assign_material ship_mat s3 a0 psm)
    as (s4 & Hrun & Hs4 & _).
  { rewrite Hs3. rewrite lookup_insert_ne by done. exact Ha0. }
  { by rewrite Haty. }
  { rewrite Hs3, lookup_insert_eq. by exists m'. }
  erewrite bind_ok by exact Hrun. clear Hrun.
  unfold stored_if in Hs4.
  rewrite !bool_decide_eq_true_2 in Hs4
    by (apply Hin; by apply (bool_decide_unpack _)).
  (* the flags *)
  unfold Hou.setDisplayFlag, Hou.setRenderFlag.
  match goal with |- context [Hou.update_node ship ?f] =>
    destruct (update_node_run ship f s4 g0) as (s5 & Hrun & Hs5)
  end.
  { rewrite Hs4, Hs3. do 2 (rewrite lookup_insert_ne by done). exact Hg0. }
  erewrite bind_ok by exact Hrun. clear Hrun.
  match type of Hs4 with _ = <[_ := ?n]> _ => set (a1 := n) in * end.
  match goal with |- context [Hou.update_node assign_material ?f ≫= _] =>
    destruct (update_node_run assign_material f s5 a1) as (s6 & Hrun & Hs6)
  end.
  { rewrite Hs5, Hs4. rewrite lookup_insert_ne by done. apply lookup_insert_eq. }
  erewrite bind_ok by exact Hrun. clear Hrun.
  match type of Hs6 with _ = <[_ := ?n]> _ => set (a2 := n) in * end.
  match goal with |- context [Hou.update_node assign_material ?f ≫= _] =>
    destruct (update_node_run assign_material f s6 a2) as (s7 & Hrun & Hs7)
  end.
  { rewrite Hs6. apply lookup_insert_eq. }
  erewrite bind_ok by exact Hrun. clear Hrun.
  match type of Hs7 with _ = <[_ := ?n]> _ => set (a3 := n) in * end.
  assert (scene s7
          = <[assign_material := a3]>
              (<[ship := {| ntype := ntype g0; ninputs := ninputs g0;
                            nparms := nparms g0; ndisplay := true;
                            nrender := nrender g0 |}]>
                 (<[assign_material := a1]> (<[ship_mat := m']> shaded))))
    as Hs7'.
  { rewrite Hs7, Hs6, Hs5, Hs4, Hs3. rewrite insert_insert_eq. reflexivity. }
  exists s7, mg, a3. split_and!.
  - unfold Hou.layoutChildren. rewrite Hs7'.
    rewrite lookup_insert_ne by done. rewrite lookup_insert_eq. reflexivity.
  - rewrite Hs7'. do 4 (rewrite lookup_insert_ne by done). exact Hmg.
  - exact Hins.
  - rewrite Hs7. apply lookup_insert_eq.
  - unfold a3, a2, a1. simpl. apply lookup_insert_eq.
  - reflexivity.
  - reflexivity.
  - exists m'. split; [|exact Hmty]. rewrite Hs7'.
    do 3 (rewrite lookup_insert_ne by done). apply lookup_insert_eq.
  - rewrite Hs7'. do 4 (rewrite lookup_insert_ne by done). exact Hnored.
Qed.

End build_run.

(** ** Running the blockout again; the version check *)

Section rerun.
Import Examples SetupHoudiniAi.

Lemma blockout_built_plain E tweaks s :
  hou_importable E = true →
  catalog E = full_catalog →
  wants_rivets tweaks || wants_conduit tweaks = false →
  scene s = built false false →
  _create_spaceship_blockout E tweaks s
  = ((_create_spaceship_blockout studio (tweak_prompt false false)
        (start new_scene)).1,
     set_scene (built false false) s).
Proof.
  intros Hhou Hcat Hplain Hsc. env_state E s.
  unfold _create_spaceship_blockout at 1. unfold _apply_prompt_tweaks.
  unfold wants_rivets, wants_conduit in Hplain.
  destruct (Py.truthy tweaks);
    [destruct (Py.contains "rivet" (Py.lower (default "" tweaks)));
     destruct (Py.contains "glow" (Py.lower (default "" tweaks)));
     destruct (Py.contains "conduit" (Py.lower (default "" tweaks)))|];
    try discriminate Hplain; both_sides.
Qed.

(** X23.  Without the rivet and conduit keywords in the tweak prompt,
    [_create_spaceship_blockout] can be run again on the scene it has
    built from a new one (full host): the second run returns the same
    nodes and changes nothing. *)
Theorem blockout_rerun E tweaks s :
  hou_importable E = true →
  catalog E = full_catalog →
  scene s = new_scene →
  wants_rivets tweaks || wants_conduit tweaks = false →
  ∃ nodes s1,
    _create_spaceship_blockout E tweaks s = (Ok nodes, s1)
    ∧ _create_spaceship_blockout E tweaks s1 = (Ok nodes, s1).
Proof.
  intros Hhou Hcat Hsc Hplain.
  pose proof (blockout_new_scene E tweaks s Hhou Hcat Hsc) as Hrun1.
  destruct (orb_false_elim _ _ Hplain) as [Hr Hc].
  rewrite Hr, Hc in Hrun1.
  destruct (set_scene_state (built false false) s) as (s1 & Heq & Hs1 & _).
  pose proof (blockout_built_plain E tweaks s1 Hhou Hcat Hplain Hs1) as Hrun2.
  assert (set_scene (built false false) s1 = s1) as Hfix
    by (rewrite <- Heq; apply set_scene_twice).
  rewrite Hfix in Hrun2. rewrite Heq in Hrun1.
  pose proof (blockout_nodes false false) as Hnodes.
  destruct (_create_spaceship_blockout studio _ (start new_scene)).1
    as [nodes|]; [|destruct Hnodes].
  exists nodes, s1. split; [exact Hrun1|exact Hrun2].
Qed.

End rerun.

Section versions.
Context (E : Env).
Import SetupHoudiniAi.

(** X24.  [_check_versions] inside Houdini never raises and only prints:
    a warning when Python is not 3.9, then a warning when the major
    version of Houdini is below 20.  A host that reports no version
    numbers at all gets no Houdini warning: the [IndexError] is
    swallowed. *)
Theorem check_versions_warns s :
  hou_importable E = true →
  _check_versions E s
  = (Ok (), printed (python_warning E ++ houdini_warning E) s).
Proof.
  intros Hhou. unfold _check_versions, python_warning, houdini_warning.
  erewrite bind_ok by (by apply import_hou_ok).
  destruct (bool_decide (python_version E = (3, 9))); simpl;
    (erewrite bind_ok by reflexivity);
    (destruct (application_version E) as [|major rest]; [reflexivity|]);
    unfold try_except; (erewrite bind_ok by reflexivity);
    by destruct (major <? 20).
Qed.

End versions.

(** ** The properties at concrete scenes *)

Section instances.
Import Examples SetupHoudiniAi.

Ltac by_computation := vm_compute; reflexivity.

Ltac some_by_computation := eexists; vm_compute; reflexivity.

Lemma studio_provides type_name parms :
  (match catalog studio !! type_name with
   | Some ps => forallb (λ p, bool_decide (p ∈ ps)) parms
   | None => false
   end) = true →
  provides studio type_name parms.
Proof.
  destruct (catalog studio !! type_name) as [ps|] eqn:Hc; [|done].
  intros Hall. exists ps. split; [exact Hc|]. intros p Hp.
  rewrite forallb_forall in Hall.
  eapply bool_decide_eq_true_1, Hall. by apply list_elem_of_In.
Qed.

Lemma ship_scene_tweak_ready : tweak_ready studio ship (start ship_scene).
Proof.
  split_and!; [done|some_by_computation| |apply studio_provides; by_computation..].
  intros name Hin.
  assert (forallb (λ n, bool_decide
                          (scene (start ship_scene) !! Hou.child_path ship n = None))
            tweak_names = true) as Hall by by_computation.
  rewrite forallb_forall in Hall.
  eapply bool_decide_eq_true_1, Hall. by apply list_elem_of_In.
Qed.

(** C1 at a prompt with both keyword groups, in capitals. *)
Lemma apply_prompt_tweaks_branches_witness :
  ∃ s',
    _apply_prompt_tweaks studio ship uvs
      "add procedural RIVETS and Glowing conduits" (start ship_scene)
    = (Ok "/obj/interstellar_ship/merge_conduit", s')
    ∧ rivet_branch (scene s') ship uvs "/obj/interstellar_ship/merge_rivets"
    ∧ conduit_branch (scene s') ship "/obj/interstellar_ship/merge_rivets"
        "/obj/interstellar_ship/merge_conduit".
Proof.
  destruct (apply_prompt_tweaks_branches studio ship uvs
              "add procedural RIVETS and Glowing conduits" (start ship_scene)
              ship_scene_tweak_ready) as (s' & Hrun & Hrivet & Hconduit).
  exists s'. split_and!.
  - exact Hrun.
  - apply Hrivet. reflexivity.
  - apply Hconduit. reflexivity.
Defined.

(** C2 on a container in which the merge node does not exist yet. *)
Lemma connect_merge_wiring_witness :
  is_Some (scene (start ship_scene) !! ship)
  ∧ is_Some (catalog studio !! "merge")
  ∧ ∃ m n0 s0 ins',
      merge_node studio ship "merge_rivets" (start ship_scene) = (Ok m, s0)
      ∧ scene s0 !! m = Some n0
      ∧ _connect_merge studio ship uvs rivets_copy "merge_rivets"
          (start ship_scene)
        = (Ok m, set_scene (<[m := Hou.set_inputs ins' n0]> (scene s0)) s0).
Proof.
  assert (is_Some (scene (start ship_scene) !! ship)) as H1
    by some_by_computation.
  assert (is_Some (catalog studio !! "merge")) as H2 by some_by_computation.
  split_and!; [exact H1|exact H2|].
  destruct (connect_merge_wiring studio ship uvs rivets_copy "merge_rivets"
              (start ship_scene) H1 H2)
    as (m & n0 & s0 & ins' & Hm & Hn0 & _ & _ & Hrun & _).
  exists m, n0, s0, ins'. split_and!; assumption.
Defined.

(** C3 as stated fails: the merge node has the base at input 0 and the
    branch at input 1; after another call with the same base and branch
    the branch is also at input 2, so the wiring is not what it was. *)
Lemma connect_merge_again_duplicates :
  ∃ before after s',
    scene wired_once !! "/obj/interstellar_ship/merge_rivets" = Some before
    ∧ ntype before = "merge"
    ∧ ninputs before !! 0 = Some uvs
    ∧ ninputs before !! 1 = Some rivets_copy
    ∧ ninputs before !! 2 = None
    ∧ _connect_merge studio ship uvs rivets_copy "merge_rivets" wired_once
      = (Ok "/obj/interstellar_ship/merge_rivets", s')
    ∧ scene s' !! "/obj/interstellar_ship/merge_rivets" = Some after
    ∧ ninputs after !! 1 = Some rivets_copy
    ∧ ninputs after !! 2 = Some rivets_copy
    ∧ ninputs after ≠ ninputs before.
Proof.
  eexists _, _, _. split_and!; try by_computation.
  intros Heq.
  assert (ninputs
            (Hou.set_inputs
               (<[2 := rivets_copy]> (<[1 := rivets_copy]> (<[0 := uvs]> ∅)))
               (new_node "merge")) !! 2
          = ninputs
              (Hou.set_inputs (<[1 := rivets_copy]> (<[0 := uvs]> ∅))
                 (new_node "merge")) !! 2) as Habs.
  { f_equal. etransitivity; [|etransitivity; [exact Heq|]]; by_computation. }
  vm_compute in Habs. discriminate Habs.
Qed.

(** C3 amended, at the same scene. *)
Lemma connect_merge_again_witness :
  ∃ idx n,
    scene wired_once !! Hou.child_path ship "merge_rivets" = Some n
    ∧ ninputs n !! idx = None
    ∧ _connect_merge studio ship uvs rivets_copy "merge_rivets" wired_once
      = (Ok (Hou.child_path ship "merge_rivets"),
         set_scene
           (<[Hou.child_path ship "merge_rivets"
              := Hou.set_inputs (<[idx := rivets_copy]> (ninputs n)) n]>
              (scene wired_once)) wired_once)
    ∧ <[idx := rivets_copy]> (ninputs n) !! 0 = Some uvs
    ∧ size (<[idx := rivets_copy]> (ninputs n)) = S (size (ninputs n)).
Proof.
  set (n := Hou.set_inputs (<[1 := rivets_copy]> (<[0 := uvs]> ∅))
              (new_node "merge")).
  assert (scene wired_once !! Hou.child_path ship "merge_rivets" = Some n)
    as Hn by by_computation.
  destruct (connect_merge_again studio ship uvs rivets_copy "merge_rivets"
              wired_once n)
    as (idx & _ & Hfree & _ & Hrun & H0 & _ & _ & Hsize).
  - some_by_computation.
  - exact Hn.
  - reflexivity.
  - by_computation.
  - exists 1. by_computation.
  - exists idx, n. split_and!; assumption.
Defined.

Definition api : string := "http://127.0.0.1:7860/".

(** C4 fails on the code.  The snapshot is on disk and cannot be read:
    [_call_stable_diffusion] raises instead of returning [False], and
    [setup_interstellar_ai], whose renderer has just written that
    snapshot, is aborted by the same error before any material is made. *)
Theorem call_sd_snapshot_read_escapes :
  _call_stable_diffusion locked (Some ship_view) "hull plating" ship_texture
    (Some api) with_snapshot
  = (Raise (Exn OSError
              "Permission denied: '/proj/ai_tools/generated/ship_view.png'"),
     with_snapshot)
  ∧ (setup_interstellar_ai locked "hull plating" None (Some api) None false
       (start new_scene)).1
    = Raise (Exn OSError
               "Permission denied: '/proj/ai_tools/generated/ship_view.png'")
  ∧ scene (setup_interstellar_ai locked "hull plating" None (Some api) None
             false (start new_scene)).2 !! "/mat/ship_mat" = None.
Proof. split_and!; by_computation. Qed.

(** C5 with no URL at all. *)
Lemma call_sd_skips_without_url_witness :
  ∃ s',
    _call_stable_diffusion studio (Some ship_view) "hull plating"
      ship_texture None with_snapshot = (Ok false, s')
    ∧ sent s' = []
    ∧ files s' = files with_snapshot.
Proof.
  destruct (call_sd_skips_without_url studio (Some ship_view) "hull plating"
              ship_texture None with_snapshot (or_introl eq_refl))
    as (s' & Hrun & _ & Hsent & Hfiles & _).
  exists s'. split_and!; assumption.
Defined.

Lemma api_configured : api ≠ "".
Proof. discriminate. Qed.

(** C6 with a server that returns one image and an empty disk. *)
Lemma call_sd_writes_first_image_witness :
  ∃ s',
    _call_stable_diffusion gallery None "hull plating" ship_texture
      (Some api) (start new_scene) = (Ok true, s')
    ∧ files s' = <[ship_texture := png_magic]> ∅
    ∧ Pathlib.is_dir s' generated = true.
Proof.
  destruct (call_sd_writes_first_image gallery None "hull plating"
              ship_texture api (start new_scene)
              "/sdapi/v1/txt2img" (base_payload "hull plating")
              png_magic_b64 png_magic)
    as (s' & Hrun & Hfiles & Hdir & _).
  - exact api_configured.
  - reflexivity.
  - reflexivity.
  - exists 200, [("images", JList [JStr png_magic_b64]); ("info", JStr "")], [].
    split_and!; reflexivity.
  - reflexivity.
  - by_computation.
  - exists s'. split_and!; assumption.
Defined.

(** C7 with an empty image list and with nothing listening. *)
Lemma call_sd_no_images_witness :
  (∃ line,
     _call_stable_diffusion empty_gallery None "hull plating" ship_texture
       (Some api) (start new_scene)
     = (Ok false,
        add_stdout line
          (add_sent ("http://127.0.0.1:7860/sdapi/v1/txt2img",
                     JObj (base_payload "hull plating"), 120)
             (start new_scene))))
  ∧ (∃ line,
       _call_stable_diffusion studio None "hull plating" ship_texture
         (Some api) (start new_scene)
       = (Ok false,
          add_stdout line
            (add_sent ("http://127.0.0.1:7860/sdapi/v1/txt2img",
                       JObj (base_payload "hull plating"), 120)
               (start new_scene))))
  ∧ (∃ line,
       GenerateInterstellarShip.call_sd_txt2img empty_gallery "hull plating"
         ship_texture api (start new_scene)
       = (Ok false,
          add_stdout line
            (add_sent ("http://127.0.0.1:7860/sdapi/v1/txt2img",
                       JObj (base_payload "hull plating"), 180)
               (start new_scene)))).
Proof.
  split_and!.
  - apply (call_sd_no_images empty_gallery None "hull plating" ship_texture
             api (start new_scene) "/sdapi/v1/txt2img"
             (base_payload "hull plating") api_configured eq_refl).
    + reflexivity.
    + left. exists 200, [("images", JList [])].
      split_and!; [reflexivity..|]. by right.
  - apply (call_sd_no_images studio None "hull plating" ship_texture
             api (start new_scene) "/sdapi/v1/txt2img"
             (base_payload "hull plating") api_configured eq_refl).
    + reflexivity.
    + right. by exists unreachable.
  - apply (call_sd_no_images empty_gallery None "hull plating" ship_texture
             api (start new_scene) "/sdapi/v1/txt2img"
             (base_payload "hull plating") api_configured eq_refl).
    + reflexivity.
    + left. exists 200, [("images", JList [])].
      split_and!; [reflexivity..|]. by right.
Defined.

(** C8 with the snapshot on disk: one request, to img2img. *)
Lemma call_sd_request_witness :
  ∃ r s' req,
    _call_stable_diffusion gallery (Some ship_view) "hull plating"
      ship_texture (Some api) with_snapshot = (r, s')
    ∧ sent s' = [req]
    ∧ req.1.1 = "http://127.0.0.1:7860/sdapi/v1/img2img".
Proof.
  destruct (call_sd_request gallery (Some ship_view) "hull plating"
              ship_texture api with_snapshot api_configured)
    as (r & s' & new & Hrun & Hsent & Hnone & Hreq).
  destruct new as [|req new].
  - destruct Hnone as [Hnone _].
    destruct (Hnone eq_refl) as [Habs|Habs]; vm_compute in Habs;
      discriminate Habs.
  - destruct (Hreq req) as (Hone & endpoint & body & -> & _ & _ & _ & _ & _ & _ & Hshape).
    { apply list_elem_of_here. }
    exists r, s', (Py.rstrip_slash api +:+ endpoint, JObj body, 120).
    split_and!; [exact Hrun| |].
    + rewrite Hsent, Hone. reflexivity.
    + change (snapshot_on_disk with_snapshot (Some ship_view)) with true
        in Hshape.
      destruct Hshape as (-> & _). reflexivity.
Defined.

(** C10 on a name that is free, then taken. *)
Lemma get_or_create_idempotent_witness :
  ∃ s1,
    _get_or_create studio ship "scatter" "rivets_scatter" (start ship_scene)
    = (Ok "/obj/interstellar_ship/rivets_scatter", s1)
    ∧ _get_or_create studio ship "scatter" "rivets_scatter" s1
      = (Ok "/obj/interstellar_ship/rivets_scatter", s1)
    ∧ size (scene s1) ≤ S (size (scene (start ship_scene))).
Proof.
  destruct (get_or_create_idempotent studio ship "scatter" "rivets_scatter"
              (start ship_scene))
    as (r & s1 & Hrun & _ & Hagain & _ & Hsize & _).
  assert (r = Ok "/obj/interstellar_ship/rivets_scatter") as ->.
  { assert ((_get_or_create studio ship "scatter" "rivets_scatter"
               (start ship_scene)).1
            = Ok "/obj/interstellar_ship/rivets_scatter") as Hfst
      by by_computation.
    rewrite Hrun in Hfst. exact Hfst. }
  exists s1. split_and!; assumption.
Defined.

(** C9 fails as stated: [hou] is imported and /obj exists, and the run is
    still aborted, by the host refusing to create a node of a type it does
    not have. *)
Lemma setup_aborts_on_missing_node_type :
  hou_importable no_polyreduce = true
  ∧ is_Some (scene (start new_scene) !! "/obj")
  ∧ (setup_interstellar_ai no_polyreduce "hull plating" None None None false
       (start new_scene)).1
    = Raise (Exn OperationFailed "Invalid node type name: polyreduce").
Proof. split_and!; [reflexivity|some_by_computation|by_computation]. Qed.

End instances.

(** ** The further properties at concrete hosts and scenes *)

Section more_instances.
Import Examples SetupHoudiniAi GenerateInterstellarShip.

Lemma gallery_snapshots_readable : snapshots_readable gallery (start new_scene).
Proof. intros name p _ _. split; apply not_elem_of_empty. Qed.

(** X1 with every option on: tweaks, a server, a cockpit, the PDG hook. *)
Lemma setup_completes_witness :
  ∃ s',
    setup_interstellar_ai gallery "hull plating" (Some "rivets and glow")
      (Some api) (Some "retro cockpit") true (start new_scene) = (Ok (), s')
    ∧ "[Interstellar] Setup complete." ∈ stdout s'.
Proof.
  apply (setup_completes gallery "hull plating" (Some "rivets and glow")
           (Some api) (Some "retro cockpit") true (start new_scene)).
  - reflexivity.
  - reflexivity.
  - reflexivity.
  - exact gallery_snapshots_readable.
Defined.

(** X2 in a plain Python. *)
Lemma setup_needs_hou_witness :
  setup_interstellar_ai outside "hull plating" None None None false
    (start new_scene)
  = (Raise (Exn RuntimeError
              "This script must be run inside Houdini (hou module not found)."),
     start new_scene).
Proof.
  apply (setup_needs_hou outside "hull plating" None None None false
           (start new_scene)).
  reflexivity.
Defined.

(** X3 in an empty scene. *)
Lemma setup_needs_obj_witness :
  ∃ s',
    setup_interstellar_ai studio "hull plating" None None None false (start ∅)
    = (Raise (Exn RuntimeError "/obj not found"), s')
    ∧ scene s' = ∅.
Proof.
  apply (setup_needs_obj studio "hull plating" None None None false (start ∅)).
  - reflexivity.
  - reflexivity.
Defined.

(** X4 on a host that can make no node. *)
Lemma setup_propagates_host_error_witness :
  ∃ s',
    setup_interstellar_ai bare "hull plating" None None None false
      (start new_scene)
    = (Raise (Exn OperationFailed "Invalid node type name: geo"), s')
    ∧ scene s' = new_scene.
Proof.
  apply (setup_propagates_host_error bare "hull plating" None None None false
           (start new_scene)).
  - reflexivity.
  - eexists. vm_compute. reflexivity.
  - vm_compute. reflexivity.
  - reflexivity.
Defined.

(** X6 on a new container with its file node. *)
Lemma clear_file_nodes_spec_witness :
  ∃ s',
    clear_file_nodes ship (start fresh_geo) = (Ok (), s')
    ∧ scene_only (start fresh_geo) s'
    ∧ is_Some (scene s' !! ship).
Proof.
  destruct (clear_file_nodes_spec ship (start fresh_geo))
    as (s' & Hrun & Hso & _ & _ & _ & Hship).
  - eexists. vm_compute. reflexivity.
  - exists s'. split_and!; assumption.
Defined.

(** X9 at the default address. *)
Lemma sd_url_trailing_slash_witness :
  _call_stable_diffusion studio None "hull plating" ship_texture
    (Some "http://127.0.0.1:7860/") (start new_scene)
  = _call_stable_diffusion studio None "hull plating" ship_texture
      (Some "http://127.0.0.1:7860") (start new_scene)
  ∧ call_sd_txt2img studio "hull plating" ship_texture
      "http://127.0.0.1:7860/" (start new_scene)
    = call_sd_txt2img studio "hull plating" ship_texture
        "http://127.0.0.1:7860" (start new_scene).
Proof.
  apply (sd_url_trailing_slash studio None "hull plating" ship_texture
           "http://127.0.0.1:7860" (start new_scene)).
  discriminate.
Defined.

(** X10 with a server whose image is not base64 text. *)
Lemma undecodable_image_leaves_directory_witness :
  ∃ s1 s2,
    call_sd_txt2img noisy_gallery "hull plating" ship_texture api
      (start new_scene) = (Ok false, s1)
    ∧ dirs s1 = list_to_set (Pathlib.ancestors generated)
    ∧ _call_stable_diffusion noisy_gallery None "hull plating" ship_texture
        (Some api) (start new_scene) = (Ok false, s2)
    ∧ dirs s2 = ∅.
Proof.
  destruct (undecodable_image_leaves_directory noisy_gallery "hull plating"
              ship_texture api (start new_scene) "not an image")
    as (s1 & s2 & Hrun1 & Hd1 & _ & Hrun2 & Hd2 & _).
  - exact api_configured.
  - reflexivity.
  - intros timeout. exists 200, [("images", JList [JStr "not an image"])], [].
    split_and!; reflexivity.
  - reflexivity.
  - vm_compute. reflexivity.
  - exists s1, s2. split_and!; [exact Hrun1| |exact Hrun2|exact Hd2].
    rewrite Hd1. apply union_empty_l_L.
Defined.

(** X11 with a server that returns one image. *)
Lemma call_sd_txt2img_writes_first_image_witness :
  ∃ s',
    call_sd_txt2img gallery "hull plating" ship_texture api (start new_scene)
    = (Ok true, s')
    ∧ files s' = <[ship_texture := png_magic]> ∅
    ∧ stdout s'
      = ["[Interstellar] Wrote AI texture: /proj/ai_tools/generated/ship_texture.png"].
Proof.
  destruct (call_sd_txt2img_writes_first_image gallery "hull plating"
              ship_texture api (start new_scene) png_magic_b64 png_magic)
    as (s' & Hrun & Hfiles & _ & _ & Hout & _).
  - reflexivity.
  - exists 200, [("images", JList [JStr png_magic_b64]); ("info", JStr "")], [].
    split_and!; reflexivity.
  - reflexivity.
  - vm_compute. reflexivity.
  - exists s'. split_and!; assumption.
Defined.

(** X12 in a scene without /out. *)
Lemma snapshot_skipped_witness :
  ∃ s',
    _render_viewport_snapshot studio ship_view "/obj/interstellar_cam" ship
      (start ∅) = (Ok false, s')
    ∧ scene s' = ∅ ∧ files s' = ∅ ∧ dirs s' = ∅.
Proof.
  apply (snapshot_skipped studio ship_view "/obj/interstellar_cam" ship
           (start ∅)).
  - reflexivity.
  - left. reflexivity.
Defined.

(** X13 with a renderer that writes nothing, on an empty disk. *)
Lemma snapshot_answer_witness :
  ∃ s' rop,
    _render_viewport_snapshot studio ship_view "/obj/interstellar_cam" ship
      (start new_scene) = (Ok false, s')
    ∧ scene s' = <[snapshot_rop := rop]> new_scene
    ∧ nparms rop !! "camera" = Some (VStr "/obj/interstellar_cam").
Proof.
  destruct (snapshot_answer studio ship_view "/obj/interstellar_cam" ship
              (start new_scene) (manager "out") "opengl"
              (list_to_set ["camera"; "vm_picture"; "trange"; "res1"; "res2"]))
    as (s' & rop & Hrun & Hs' & _ & Hcam & _).
  - reflexivity.
  - vm_compute. reflexivity.
  - vm_compute. reflexivity.
  - vm_compute. reflexivity.
  - intros p Hp. by apply elem_of_list_to_set.
  - left. vm_compute. reflexivity.
  - exists s', rop. split_and!; assumption.
Defined.

(** X15 on a host without the StableHoudini HDA. *)
Lemma pdg_skip_leaves_topnet_witness :
  _try_stablehoudini_pdg no_stablehoudini cockpit (start new_scene)
  = (Ok (),
     add_stdout
       "[Interstellar] StableHoudini TOP node not found; skipping PDG setup."
       (set_scene
          (<["/obj/stablehoudini_pdg" := new_node "topnet"]> new_scene)
          (start new_scene))).
Proof.
  apply (pdg_skip_leaves_topnet no_stablehoudini cockpit (start new_scene)).
  - reflexivity.
  - eexists. vm_compute. reflexivity.
  - vm_compute. reflexivity.
  - eexists. vm_compute. reflexivity.
  - vm_compute. reflexivity.
  - vm_compute. reflexivity.
Defined.

(** X16 on a host that can make no node. *)
Lemma pdg_reports_host_error_witness :
  _try_stablehoudini_pdg bare cockpit (start new_scene)
  = (Ok (),
     add_stdout
       "[Interstellar] StableHoudini PDG setup skipped: Invalid node type name: topnet"
       (start new_scene)).
Proof.
  apply (pdg_reports_host_error bare cockpit (start new_scene)).
  - reflexivity.
  - eexists. vm_compute. reflexivity.
  - vm_compute. reflexivity.
  - reflexivity.
Defined.

(** X17 with the texture on disk: the host's shader has the two
    parameters without the "tex" infix, and only those are set. *)
Lemma shader_texture_parms_witness :
  ∃ s' n,
    _create_or_update_material studio (Some ship_view) with_snapshot
    = (Ok "/mat/ship_mat", s')
    ∧ scene s' = <["/mat/ship_mat" := n]> new_scene
    ∧ nparms n !! "basecolor_useTexture" = Some (VInt 1)
    ∧ nparms n !! "basecolor_texture"
      = Some (VStr "/proj/ai_tools/generated/ship_view.png")
    ∧ nparms n !! "basecolortex_texture" = None.
Proof.
  destruct (shader_texture_parms studio (Some ship_view) with_snapshot
              (manager "mat")
              (list_to_set ["basecolor_useTexture"; "basecolor_texture"]))
    as (s' & n & Hrun & Hs' & _ & _ & Hparms).
  - reflexivity.
  - vm_compute. reflexivity.
  - vm_compute. reflexivity.
  - vm_compute. reflexivity.
  - exists s', n. split_and!; [exact Hrun|exact Hs'|..];
      rewrite Hparms; vm_compute; reflexivity.
Defined.

(** X18 on a material SOP of the full host. *)
Lemma assign_material_cases_witness :
  _assign_material_to_geo studio "/mat/ship_mat" (Some assign_material)
    (start sop_scene)
  = (Ok (),
     set_scene
       (<[assign_material
          := Hou.store_parm "shop_materialpath1" (VStr "/mat/ship_mat")
               (Hou.store_parm "group1" (VStr "")
                  (Hou.store_parm "num_materials" (VInt 1)
                     (new_node "material")))]> sop_scene)
       (start sop_scene)).
Proof.
  pose proof (assign_material_cases studio "/mat/ship_mat" assign_material
                (start sop_scene) (new_node "material")
                (list_to_set ["num_materials"; "group1"; "shop_materialpath1"]))
    as Hrun.
  cbv zeta in Hrun. rewrite Hrun.
  - reflexivity.
  - vm_compute. reflexivity.
  - vm_compute. reflexivity.
Defined.

(** X19 with no prompt at all. *)
Lemma build_ship_without_prompt_witness :
  scene_only (start new_scene) (build_ship studio None (start new_scene)).2.
Proof.
  apply (build_ship_without_prompt studio None eq_refl (start new_scene)).
Defined.

(** X20 on a host whose material SOP has none of the parameters. *)
Lemma assign_shader_never_raises_witness :
  ∃ s' n',
    assign_shader (with_catalog {["material" := ∅]} studio)
      assign_material "/mat" (start sop_scene) = (Ok (), s')
    ∧ scene s' = <[assign_material := n']> sop_scene
    ∧ nparms n' !! "shop_materialpath1" = None.
Proof.
  destruct (assign_shader_never_raises (with_catalog {["material" := ∅]} studio)
              assign_material "/mat" (start sop_scene) (new_node "material") ∅)
    as (s' & n' & Hrun & Hs' & Hset & _).
  - vm_compute. reflexivity.
  - vm_compute. reflexivity.
  - eexists. vm_compute. reflexivity.
  - exists s', n'. split_and!; [exact Hrun|exact Hs'|].
    rewrite (Hset "shop_materialpath1" (VStr "/mat")).
    + reflexivity.
    + apply list_elem_of_further, list_elem_of_further, list_elem_of_here.
Defined.

(** X21 in an empty scene. *)
Lemma build_ship_without_obj_witness :
  build_ship bare None (start ∅)
  = (Raise (Exn AttributeError
              "'NoneType' object has no attribute 'createNode'"), start ∅).
Proof.
  rewrite (build_ship_without_obj bare None (start ∅)) by reflexivity.
  reflexivity.
Defined.

(** X22 with a texture prompt and a server that returns one image. *)
Lemma build_ship_completes_witness :
  ∃ s' mg a,
    build_ship gallery (Some "hull plating") (start new_scene) = (Ok (), s')
    ∧ scene s' !! ship_merge = Some mg
    ∧ ninputs mg !! 3 = Some "/obj/interstellar_ship/hull_shield_3"
    ∧ scene s' !! assign_material = Some a
    ∧ nparms a !! "shop_materialpath1" = Some (VStr "/mat/ship_mat").
Proof.
  destruct (build_ship_completes gallery (Some "hull plating")
              (start new_scene))
    as (s' & mg & a & Hrun & Hmg & Hins & Ha & Hshop & _).
  - reflexivity.
  - reflexivity.
  - reflexivity.
  - exists s', mg, a. split_and!; [exact Hrun|exact Hmg| |exact Ha|exact Hshop].
    rewrite Hins. vm_compute. reflexivity.
Defined.

(** X23 with a tweak prompt that has neither keyword. *)
Lemma blockout_rerun_witness :
  ∃ nodes s1,
    _create_spaceship_blockout studio (Some "plain hull") (start new_scene)
    = (Ok nodes, s1)
    ∧ _create_spaceship_blockout studio (Some "plain hull") s1
      = (Ok nodes, s1).
Proof.
  apply (blockout_rerun studio (Some "plain hull") (start new_scene)).
  - reflexivity.
  - reflexivity.
  - reflexivity.
  - reflexivity.
Defined.

(** X24 on Houdini 19.5 with Python 3.7: both warnings. *)
Lemma check_versions_warns_witness :
  _check_versions legacy (start new_scene)
  = (Ok (),
     printed
       ["[Interstellar] Warning: Python 3.7 detected; recommended 3.9";
        "[Interstellar] Warning: Houdini 19.5.303 detected; recommended 20+"]
       (start new_scene)).
Proof.
  apply (check_versions_warns legacy (start new_scene)). reflexivity.
Defined.

End more_instances.
